(** * OutlookMailClient: account rotation, inbox scan and polling

    A shallow embedding of [core/outlookmail_client.py].  The client picks a
    mailbox from a remote account pool in round-robin order, lists the inbox
    of the selected mailbox over HTTP, scans the messages for a verification
    code and polls until a code shows up or the attempts are used up.

    Python values that come out of [res.json()] are embedded as [pyval];
    every operation the client applies to them (truthiness, [.get], [len],
    iteration, [+], slicing, [<]) is written out with the exception Python
    raises when the value has the wrong shape.  Methods are computations in
    a state-and-exception monad over a [world] that holds the class
    attributes, the instances, the remote service and the trace of emitted
    log lines and sleeps. *)

From Stdlib Require Import ZArith List String Ascii Bool Lia Permutation Sorted.
From Stdlib Require Import FinFun.
Import ListNotations.
Open Scope string_scope.
Open Scope list_scope.
Open Scope Z_scope.
Set Warnings "-register-all".

(** ** Python values *)

(** The values [json.loads] produces.  A [str] is embedded as a [string]
    whose characters stand for code points below 256; a [dict] is the list
    of its items in insertion order (its keys are distinct, and a lookup
    takes the first binding); JSON numbers are taken to be integers. *)
Inductive pyval : Type :=
| PNone
| PBool (b : bool)
| PInt (n : Z)
| PStr (s : string)
| PList (l : list pyval)
| PDict (d : list (string * pyval)).

(** The exceptions the client can meet; all derive from [Exception]. *)
Inductive exn : Type :=
| AttributeError
| TypeError
| ValueError
| IndexError
| ZeroDivisionError
| OverflowError
| OSError
| JSONDecodeError
| RequestException.

(** What evaluating an expression gives: a value or a raised exception. *)
Inductive result (A : Type) : Type :=
| Ok (a : A)
| Raise (e : exn).
Arguments Ok {A} a.
Arguments Raise {A} e.

(** What running a method gives: it returns, it lets an exception escape,
    or the bound put on the pagination loop is reached first. *)
Inductive outcome (A : Type) : Type :=
| Returns (a : A)
| Raises (e : exn)
| OutOfFuel.
Arguments Returns {A} a.
Arguments Raises {A} e.
Arguments OutOfFuel {A}.

Module Py.

(** [bool(v)]. *)
Definition truthy (v : pyval) : bool :=
  match v with
  | PNone => false
  | PBool b => b
  | PInt n => negb (n =? 0)
  | PStr s => negb (String.eqb s "")
  | PList l => match l with [] => false | _ => true end
  | PDict d => match d with [] => false | _ => true end
  end.

(** [a or b]. *)
Definition or_ (a b : pyval) : pyval := if truthy a then a else b.

Fixpoint assoc (k : string) (d : list (string * pyval)) : option pyval :=
  match d with
  | [] => None
  | (k', v) :: d' => if String.eqb k k' then Some v else assoc k d'
  end.

(** [v.get(k)]: only a dict has the method. *)
Definition get (v : pyval) (k : string) : result pyval :=
  match v with
  | PDict d => Ok (match assoc k d with Some x => x | None => PNone end)
  | _ => Raise AttributeError
  end.

Fixpoint chars (s : string) : list pyval :=
  match s with
  | EmptyString => []
  | String c s' => PStr (String c EmptyString) :: chars s'
  end.

(** The items [for x in v] yields: elements of a list, keys of a dict,
    characters of a str; anything else is not iterable. *)
Definition iter (v : pyval) : result (list pyval) :=
  match v with
  | PList l => Ok l
  | PDict d => Ok (map (fun kv => PStr (fst kv)) d)
  | PStr s => Ok (chars s)
  | _ => Raise TypeError
  end.

(** [len(v)]. *)
Definition len (v : pyval) : result Z :=
  match v with
  | PList l => Ok (Z.of_nat (List.length l))
  | PDict d => Ok (Z.of_nat (List.length d))
  | PStr s => Ok (Z.of_nat (String.length s))
  | _ => Raise TypeError
  end.

(** [l[i]] on a list, with Python's negative indices. *)
Definition index (l : list pyval) (i : Z) : result pyval :=
  let n := Z.of_nat (List.length l) in
  let j := if i <? 0 then i + n else i in
  if (j <? 0) || (n <=? j) then Raise IndexError
  else match nth_error l (Z.to_nat j) with
       | Some x => Ok x
       | None => Raise IndexError
       end.

(** The integer a [bool] or [int] stands for in arithmetic. *)
Definition as_int (v : pyval) : option Z :=
  match v with
  | PBool b => Some (if b then 1 else 0)
  | PInt n => Some n
  | _ => None
  end.

(** [a + b]. *)
Definition add (a b : pyval) : result pyval :=
  match a, b with
  | PStr s, PStr t => Ok (PStr (s ++ t)%string)
  | PList l, PList m => Ok (PList (l ++ m))
  | _, _ =>
      match as_int a, as_int b with
      | Some x, Some y => Ok (PInt (x + y))
      | _, _ => Raise TypeError
      end
  end.

(** [v[:n]]: str and list can be sliced (a dict raises too, [KeyError]
    from Python 3.12 on). *)
Definition slice_to (n : nat) (v : pyval) : result pyval :=
  match v with
  | PStr s => Ok (PStr (substring 0 n s))
  | PList l => Ok (PList (firstn n l))
  | _ => Raise TypeError
  end.

(** [s.replace("Z", "+00:00")] on the characters of a str. *)
Fixpoint replace_Z (s : string) : string :=
  match s with
  | EmptyString => EmptyString
  | String c s' =>
      if Ascii.eqb c "Z"%char then ("+00:00" ++ replace_Z s')%string
      else String c (replace_Z s')
  end.

(** [v.replace("Z", "+00:00")]: a str method. *)
Definition replace_z (v : pyval) : result string :=
  match v with
  | PStr s => Ok (replace_Z s)
  | _ => Raise AttributeError
  end.

(** [a // b] on ints. *)
Definition floordiv (a b : Z) : result Z :=
  if b =? 0 then Raise ZeroDivisionError else Ok (a / b).

End Py.

(** ** The world the client runs in *)

(** The two URLs the client builds:
    [{base_url}/accounts?page={page}&page_size={page_size}] and
    [{base_url}/emails/by-email/{email}?folder=inbox]. *)
Inductive url : Type :=
| AccountsUrl (base : string) (page page_size : Z)
| InboxUrl (base : string) (email : pyval).

(** What [requests.request] is called with. *)
Record request : Type := {
  req_method : string;
  req_url : url;
  req_proxies : option string;
  req_timeout : Z
}.

(** [res.content] and what [res.json()] makes of it. *)
Inductive content : Type :=
| NoContent
| Malformed
| Json (v : pyval).

Record response : Type := {
  status_code : Z;
  res_content : content
}.

(** The remote end either fails at the transport level or answers. *)
Inductive http_outcome : Type :=
| TransportError
| Answer (res : response).

Inductive level : Type := info | warning | error.

(** The lines handed to [_log], one constructor per format string. *)
Inductive message : Type :=
| SendingRequest (method : string) (u : url)
| ReceivedResponse (status : Z)
| AccountsHttpFailed (status : Z)
| AccountsException (e : exn)
| FetchingPool
| PoolEmpty
| PoolSize (total : Z)
| AccountSelected (position total : Z) (email : pyval)
| EmailsHttpFailed (status : Z)
| EmailsNotSuccess
| EmailsException (e : exn)
| EmailUnset
| PullingEmails (email : pyval)
| InboxEmpty
| EmailsReceived (count : Z)
| CheckingEmail (idx : Z) (subject : pyval)
| CodeFound (code : string)
| OldEmailsSkipped (skipped : Z)
| NoCodeFound
| FetchCodeException (e : exn)
| PollStart (timeout interval max_retries : Z)
| PollAttempt (i max_retries : Z)
| PollSuccess (code : string)
| PollTimeout (timeout : Z).

(** Observable steps: a line given to [_log] (the callback, when there is
    one, receives it and whatever it raises is swallowed) and a call of
    [time.sleep]. *)
Inductive event : Type :=
| Log (lv : level) (msg : message)
| Slept (seconds : Z).

(** The attributes of one client object. *)
Record instance : Type := {
  base_url : string;
  proxy_url : string;
  email : pyval;
  account_id : pyval
}.

(** The class attributes [_account_index] and [_accounts_cache], shared by
    every instance; the instances by object identity; the remote service,
    which answers the [n]-th request of the run; the events so far, most
    recent first. *)
Record world : Type := {
  _account_index : Z;
  _accounts_cache : list pyval;
  objects : nat -> instance;
  remote : nat -> request -> http_outcome;
  requests_sent : nat;
  trace : list event
}.

Definition set_account_index (i : Z) (w : world) : world :=
  {| _account_index := i; _accounts_cache := _accounts_cache w;
     objects := objects w; remote := remote w;
     requests_sent := requests_sent w; trace := trace w |}.

Definition set_accounts_cache (c : list pyval) (w : world) : world :=
  {| _account_index := _account_index w; _accounts_cache := c;
     objects := objects w; remote := remote w;
     requests_sent := requests_sent w; trace := trace w |}.

Definition set_object (self : nat) (o : instance) (w : world) : world :=
  {| _account_index := _account_index w; _accounts_cache := _accounts_cache w;
     objects := fun i => if Nat.eqb i self then o else objects w i;
     remote := remote w;
     requests_sent := requests_sent w; trace := trace w |}.

Definition emit (e : event) (w : world) : world :=
  {| _account_index := _account_index w; _accounts_cache := _accounts_cache w;
     objects := objects w; remote := remote w;
     requests_sent := requests_sent w; trace := e :: trace w |}.

Definition count_request (w : world) : world :=
  {| _account_index := _account_index w; _accounts_cache := _accounts_cache w;
     objects := objects w; remote := remote w;
     requests_sent := S (requests_sent w); trace := trace w |}.

(** ** The monad of methods *)

Definition M (A : Type) : Type := world -> outcome A * world.

Definition ret {A} (a : A) : M A := fun w => (Returns a, w).

Definition bind {A B} (m : M A) (k : A -> M B) : M B :=
  fun w =>
    match m w with
    | (Returns a, w') => k a w'
    | (Raises e, w') => (Raises e, w')
    | (OutOfFuel, w') => (OutOfFuel, w')
    end.

(** An expression evaluated inside a method. *)
Definition lift {A} (r : result A) : M A :=
  fun w =>
    match r with
    | Ok a => (Returns a, w)
    | Raise e => (Raises e, w)
    end.

Definition out_of_fuel {A} : M A := fun w => (OutOfFuel, w).

(** [try: m  except Exception as e: h e]. *)
Definition try_except {A} (m : M A) (h : exn -> M A) : M A :=
  fun w =>
    match m w with
    | (Raises e, w') => h e w'
    | other => other
    end.

Definition get_world : M world := fun w => (Returns w, w).
Definition modify (f : world -> world) : M unit := fun w => (Returns tt, f w).

Declare Scope py_scope.
Delimit Scope py_scope with py.
Notation "x <- m ;; k" := (bind m (fun x => k))
  (at level 61, m at next level, right associativity) : py_scope.
Notation "m ;; k" := (bind m (fun _ => k))
  (at level 61, right associativity) : py_scope.
Open Scope py_scope.

Definition read_self (self : nat) : M instance :=
  w <- get_world ;; ret (objects w self).

(** The world after [self.email = v]. *)
Definition assign_email (self : nat) (v : pyval) (w : world) : world :=
  let o := objects w self in
  set_object self {| base_url := base_url o; proxy_url := proxy_url o;
                     email := v; account_id := account_id o |} w.

(** The world after [self.account_id = v]. *)
Definition assign_account_id (self : nat) (v : pyval) (w : world) : world :=
  let o := objects w self in
  set_object self {| base_url := base_url o; proxy_url := proxy_url o;
                     email := email o; account_id := v |} w.

Definition set_email (self : nat) (v : pyval) : M unit :=
  modify (assign_email self v).

Definition set_account_id (self : nat) (v : pyval) : M unit :=
  modify (assign_account_id self v).

(** [set_credentials]: only the address is kept. *)
Definition set_credentials (self : nat) (address : string) : M unit :=
  set_email self (PStr address).

(** [_log]. *)
Definition _log (lv : level) (msg : message) : M unit :=
  modify (emit (Log lv msg)).

(** [requests.request]: the remote end is asked once. *)
Definition requests_request (rq : request) : M response :=
  w <- get_world ;;
  modify count_request ;;
  match remote w (requests_sent w) rq with
  | TransportError => lift (Raise RequestException)
  | Answer res => ret res
  end.

(** [res.json()]. *)
Definition json (res : response) : result pyval :=
  match res_content res with
  | Json v => Ok v
  | _ => Raise JSONDecodeError
  end.

(** [res.json() if res.content else default]. *)
Definition json_or (res : response) (default : pyval) : result pyval :=
  match res_content res with
  | NoContent => Ok default
  | _ => json res
  end.

(** The request [_request] makes for an instance when it is given no
    keyword arguments: the proxy when one is set, a timeout of 120. *)
Definition request_of (o : instance) (method : string) (u : url) : request :=
  {| req_method := method; req_url := u;
     req_proxies :=
       if Py.truthy (PStr (proxy_url o)) then Some (proxy_url o) else None;
     req_timeout := 120 |}.

(** [_request]. *)
Definition _request (self : nat) (method : string) (u : url) : M response :=
  _log info (SendingRequest method u) ;;
  o <- read_self self ;;
  res <- requests_request (request_of o method u) ;;
  _log info (ReceivedResponse (status_code res)) ;;
  ret res.

(** Sequencing of pure steps that may raise. *)
Definition and_then {A B} (r : result A) (k : A -> result B) : result B :=
  match r with
  | Ok a => k a
  | Raise e => Raise e
  end.

Fixpoint map_result {A B} (f : A -> result B) (l : list A) : result (list B) :=
  match l with
  | [] => Ok []
  | x :: l' =>
      and_then (f x) (fun y =>
      and_then (map_result f l') (fun ys => Ok (y :: ys)))
  end.

(** ** The client *)

Section Client.

(** [core.mail_utils.extract_verification_code], the pattern matcher the
    client imports: given text it returns a code or [None]. *)
Variable extract_verification_code : string -> option string.

(** What the same function does when it is handed something that is not
    text (the sum of two numbers, the concatenation of two lists). *)
Variable extract_nontext : pyval -> result (option string).

(** [datetime.fromisoformat(s).astimezone().replace(tzinfo=None)]: the
    naive local time a string denotes, [None] when any step raises.
    Times, [since_time] included, are naive local datetimes, given as
    integers on one scale. *)
Variable fromisoformat_local : string -> option Z.

(** Python's [<] on two lists. *)
Variable list_lt : list pyval -> list pyval -> result bool.

(** What [time.sleep] answers to a length that is not negative: [None]
    when the platform waits that long, the exception it raises otherwise
    ([OverflowError] for a length that does not fit the C time type,
    [OSError] for a deadline the clock refuses).  Where the limit lies
    depends on the platform; the answer is taken to depend on the length
    alone. *)
Variable sleep_refusal : Z -> option exn.

(** [sys.get_int_max_str_digits()]: the number of digits above which the
    interpreter refuses to write an int in decimal; 0 when it sets no
    limit. *)
Variable int_max_str_digits : Z.

(** *** Account selection *)

Definition page_size : Z := 100.

(** How one turn of the [while True] loop of [_fetch_accounts] ends. *)
Inductive loop_exit : Type :=
| Break (all_accounts : list pyval)
| Continue (all_accounts : list pyval) (page : Z).

(** One turn of the loop.  The [try] block is cut at
    [all_accounts.extend(accounts)]: what can raise before it leaves the
    list as it was, what can raise after it sees the extended list. *)
Definition _fetch_accounts_turn (self : nat) (all_accounts : list pyval)
    (page : Z) : M loop_exit :=
  o <- read_self self ;;
  let u := AccountsUrl (base_url o) page page_size in
  let on_exception acc := fun e =>
    _log error (AccountsException e) ;; ret (Break acc) in
  fetched <- try_except
    (res <- _request self "GET" u ;;
     if negb (status_code res =? 200) then
       _log error (AccountsHttpFailed (status_code res)) ;;
       ret (inl (Break all_accounts))
     else
       accounts <- lift (json_or res (PList [])) ;;
       if negb (Py.truthy accounts) then ret (inl (Break all_accounts))
       else
         items <- lift (Py.iter accounts) ;;
         ret (inr (accounts, all_accounts ++ items)))
    (fun e => r <- on_exception all_accounts e ;; ret (inl r)) ;;
  match fetched with
  | inl exit => ret exit
  | inr (accounts, extended) =>
      try_except
        (n <- lift (Py.len accounts) ;;
         if n <? page_size then ret (Break extended)
         else ret (Continue extended (page + 1)))
        (on_exception extended)
  end.

Fixpoint _fetch_accounts_loop (fuel : nat) (self : nat)
    (all_accounts : list pyval) (page : Z) : M (list pyval) :=
  match fuel with
  | O => out_of_fuel
  | S fuel' =>
      exit <- _fetch_accounts_turn self all_accounts page ;;
      match exit with
      | Break acc => ret acc
      | Continue acc page' => _fetch_accounts_loop fuel' self acc page'
      end
  end.

(** [_fetch_accounts], its loop bounded by [fuel] turns. *)
Definition _fetch_accounts (fuel : nat) (self : nat) : M (list pyval) :=
  _fetch_accounts_loop fuel self [] 1.

(** [register_account]. *)
Definition register_account (fuel : nat) (self : nat) : M bool :=
  _log info FetchingPool ;;
  fetched <- _fetch_accounts fuel self ;;
  modify (set_accounts_cache fetched) ;;
  w <- get_world ;;
  if negb (Py.truthy (PList (_accounts_cache w))) then
    _log error PoolEmpty ;;
    ret false
  else
    let total := Z.of_nat (List.length (_accounts_cache w)) in
    _log info (PoolSize total) ;;
    let index := _account_index w mod total in
    account <- lift (Py.index (_accounts_cache w) index) ;;
    e <- lift (Py.get account "email") ;;
    set_email self e ;;
    i <- lift (Py.get account "id") ;;
    set_account_id self i ;;
    modify (set_account_index ((index + 1) mod total)) ;;
    o <- read_self self ;;
    _log info (AccountSelected (index + 1) total (email o)) ;;
    ret true.

(** *** Listing the inbox *)

(** [list(v)]. *)
Definition py_list (v : pyval) : result (list pyval) := Py.iter v.

(** The [try] block of [_list_emails]. *)
Definition _list_emails_try (self : nat) (u : url) : M (list pyval) :=
  res <- _request self "GET" u ;;
  if negb (status_code res =? 200) then
    _log error (EmailsHttpFailed (status_code res)) ;;
    ret []
  else
    body <- lift (json_or res (PDict [])) ;;
    success <- lift (Py.get body "success") ;;
    if negb (Py.truthy success) then
      _log error EmailsNotSuccess ;;
      ret []
    else
      emails <- lift (Py.get body "emails") ;;
      lift (py_list (Py.or_ emails (PList []))).

(** [_list_emails]. *)
Definition _list_emails (self : nat) (address : pyval) : M (list pyval) :=
  o <- read_self self ;;
  let u := InboxUrl (base_url o) address in
  try_except
    (_list_emails_try self u)
    (fun e => _log error (EmailsException e) ;; ret []).

(** *** Scanning the inbox for a code *)

(** Python's [<] on the values a sort key can take. *)
Definition py_lt (a b : pyval) : result bool :=
  match a, b with
  | PStr s, PStr t => Ok (String.ltb s t)
  | PList l, PList m => list_lt l m
  | _, _ =>
      match Py.as_int a, Py.as_int b with
      | Some x, Some y => Ok (x <? y)
      | _, _ => Raise TypeError
      end
  end.

(** [lambda x: x.get("received_time") or ""]. *)
Definition sort_key (x : pyval) : result pyval :=
  and_then (Py.get x "received_time") (fun t => Ok (Py.or_ t (PStr ""))).

(** Stable insertion of a keyed message into a list in descending order:
    the message goes in front of the first one it is not below. *)
Fixpoint insert_desc (kx : pyval * pyval) (l : list (pyval * pyval))
    : result (list (pyval * pyval)) :=
  match l with
  | [] => Ok [kx]
  | ky :: l' =>
      and_then (py_lt (fst kx) (fst ky)) (fun below =>
      if below then and_then (insert_desc kx l') (fun r => Ok (ky :: r))
      else Ok (kx :: l))
  end.

Fixpoint sort_desc (l : list (pyval * pyval))
    : result (list (pyval * pyval)) :=
  match l with
  | [] => Ok []
  | kx :: l' => and_then (sort_desc l') (insert_desc kx)
  end.

(** [sorted(emails, key=..., reverse=True)]: the keys are computed first,
    then the messages are put in descending key order, equal keys keeping
    their order.  On keys that are all text or all numbers every stable
    sort gives this list, and on a mix of the two every sort raises.  On
    keys that are lists the outcome follows [list_lt] along the comparisons
    of an insertion sort; the properties of the scan order are stated for
    text keys. *)
Definition sorted_newest_first (emails : list pyval) : result (list pyval) :=
  and_then (map_result sort_key emails) (fun keys =>
  and_then (sort_desc (combine keys emails)) (fun sorted =>
  Ok (map snd sorted))).

(** The time filter of the loop body: [true] when the message is skipped. *)
Definition too_old (since_time : option Z) (msg : pyval) : result bool :=
  match since_time with
  | None => Ok false
  | Some since =>
      and_then (Py.get msg "received_time") (fun received_time =>
      if Py.truthy received_time then
        match
          and_then (Py.replace_z received_time) (fun s =>
          match fromisoformat_local s with
          | Some msg_time => Ok (msg_time <? since)
          | None => Raise ValueError
          end)
        with
        | Ok skip => Ok skip
        | Raise _ => Ok false
        end
      else Ok false)
  end.

(** [extract_verification_code(content)]. *)
Definition extract (content : pyval) : result (option string) :=
  match content with
  | PStr s => Ok (extract_verification_code s)
  | other => extract_nontext other
  end.

(** [if code:] on an optional str. *)
Definition nonempty (code : option string) : bool :=
  match code with
  | Some c => Py.truthy (PStr c)
  | None => false
  end.

(** The [for idx, msg in enumerate(emails, 1)] loop and the lines after
    it. *)
Fixpoint scan (since_time : option Z) (emails : list pyval)
    (idx skipped : Z) : M (option string) :=
  match emails with
  | [] =>
      (if negb (skipped =? 0) then _log info (OldEmailsSkipped skipped)
       else ret tt) ;;
      _log warning NoCodeFound ;;
      ret None
  | msg :: rest =>
      old <- lift (too_old since_time msg) ;;
      if old then scan since_time rest (idx + 1) (skipped + 1)
      else
        s <- lift (Py.get msg "subject") ;;
        let subject := Py.or_ s (PStr "") in
        shown <- lift (Py.slice_to 50 subject) ;;
        _log info (CheckingEmail idx shown) ;;
        b <- lift (Py.get msg "body") ;;
        p <- lift (Py.get msg "body_preview") ;;
        content <- lift (Py.add (Py.or_ b (PStr "")) (Py.or_ p (PStr ""))) ;;
        code <- lift (extract content) ;;
        if nonempty code then
          _log info (CodeFound (match code with Some c => c | None => "" end)) ;;
          ret code
        else scan since_time rest (idx + 1) skipped
  end.

(** The [try] block of [fetch_verification_code]; [address] is
    [self.email]. *)
Definition fetch_verification_code_try (self : nat) (address : pyval)
    (since_time : option Z) : M (option string) :=
  _log info (PullingEmails address) ;;
  emails <- _list_emails self address ;;
  if negb (Py.truthy (PList emails)) then
    _log info InboxEmpty ;;
    ret None
  else
    sorted <- lift (sorted_newest_first emails) ;;
    _log info (EmailsReceived (Z.of_nat (List.length sorted))) ;;
    scan since_time sorted 1 0.

(** [fetch_verification_code]. *)
Definition fetch_verification_code (self : nat) (since_time : option Z)
    : M (option string) :=
  o <- read_self self ;;
  if negb (Py.truthy (email o)) then
    _log error EmailUnset ;;
    ret None
  else
    try_except
      (fetch_verification_code_try self (email o) since_time)
      (fun e => _log error (FetchCodeException e) ;; ret None).

(** *** Polling *)

(** What [time.sleep(seconds)] checks before it waits: a negative length
    is refused with a [ValueError], a length the platform cannot wait
    for with the platform's exception. *)
Definition time_sleep (seconds : Z) : result unit :=
  if seconds <? 0 then Raise ValueError
  else match sleep_refusal seconds with
       | Some e => Raise e
       | None => Ok tt
       end.

(** [time.sleep(seconds)]. *)
Definition sleep (seconds : Z) : M unit :=
  lift (time_sleep seconds) ;;
  modify (emit (Slept seconds)).

(** An int field of an f-string: writing the int in decimal raises
    [ValueError] when it has more digits than the interpreter allows.
    Only the numbers a caller hands to [poll_for_code] can be that long;
    the counts, positions, page numbers and status codes that the other
    lines show are built by the client or come out of the HTTP library
    and stay far below the limit. *)
Definition str_int (n : Z) : result unit :=
  if (0 <? int_max_str_digits) && (10 ^ int_max_str_digits <=? Z.abs n)
  then Raise ValueError
  else Ok tt.

(** The int fields of one f-string, written from left to right. *)
Fixpoint format_ints (ns : list Z) : result unit :=
  match ns with
  | [] => Ok tt
  | n :: ns' => and_then (str_int n) (fun _ => format_ints ns')
  end.

(** The [for i in range(1, max_retries + 1)] loop and the lines after it;
    [remaining] counts the values of [i] still to come.  The f-strings
    that show the caller's numbers are formatted before they are
    logged. *)
Fixpoint poll_loop (self : nat) (since_time : option Z)
    (timeout interval max_retries : Z) (remaining : nat) (i : Z)
    : M (option string) :=
  match remaining with
  | O =>
      lift (format_ints [timeout]) ;;
      _log error (PollTimeout timeout) ;;
      ret None
  | S remaining' =>
      lift (format_ints [i; max_retries]) ;;
      _log info (PollAttempt i max_retries) ;;
      code <- fetch_verification_code self since_time ;;
      if nonempty code then
        _log info (PollSuccess (match code with Some c => c | None => "" end)) ;;
        ret code
      else
        (if i <? max_retries then sleep interval else ret tt) ;;
        poll_loop self since_time timeout interval max_retries
          remaining' (i + 1)
  end.

(** [poll_for_code]. *)
Definition poll_for_code (self : nat) (timeout interval : Z)
    (since_time : option Z) : M (option string) :=
  o <- read_self self ;;
  if negb (Py.truthy (email o)) then
    _log error EmailUnset ;;
    ret None
  else
    q <- lift (Py.floordiv timeout interval) ;;
    let max_retries := Z.max 1 q in
    lift (format_ints [timeout; interval; max_retries]) ;;
    _log info (PollStart timeout interval max_retries) ;;
    poll_loop self since_time timeout interval max_retries
      (Z.to_nat max_retries) 1.

End Client.

(** ** Running the client: drivers, environments and observations *)

(** [register_account] called [n] times in a row on the same instance:
    each call starts in the world the previous one left; the outcome of
    every call is kept together with the world it left. *)
Fixpoint register_rounds (n : nat) (fuel self : nat) (w : world)
    : list (outcome bool * world) :=
  match n with
  | O => []
  | S n' =>
      let r := register_account fuel self w in
      r :: register_rounds n' fuel self (snd r)
  end.

(** A remote service that holds a fixed pool and serves it in pages, the
    same way at every request; it has no inbox endpoint. *)
Definition accounts_service (pool : list pyval) : nat -> request -> http_outcome :=
  fun _ rq =>
    match req_url rq with
    | AccountsUrl _ page size =>
        Answer {| status_code := 200;
                  res_content :=
                    Json (PList (firstn (Z.to_nat size)
                                   (skipn (Z.to_nat ((page - 1) * size)) pool))) |}
    | InboxUrl _ _ => Answer {| status_code := 404; res_content := NoContent |}
    end.

(** A remote service whose inbox endpoint always answers with the given
    response and which has no accounts endpoint. *)
Definition inbox_service (res : response) : nat -> request -> http_outcome :=
  fun _ rq =>
    match req_url rq with
    | InboxUrl _ _ => Answer res
    | AccountsUrl _ _ _ => TransportError
    end.

(** The answer of a healthy inbox endpoint holding [emails]. *)
Definition inbox_of (emails : list pyval) : response :=
  {| status_code := 200;
     res_content := Json (PDict [("success", PBool true);
                                 ("emails", PList emails)]) |}.


(** The request for one page of accounts. *)
Definition page_request (o : instance) (page : Z) : request :=
  request_of o "GET" (AccountsUrl (base_url o) page 100).



(** What a method leaves alone when it only talks to the network and
    logs: the class attributes, the instances and the service. *)
Definition same_state (w w' : world) : Prop :=
  _account_index w' = _account_index w /\
  _accounts_cache w' = _accounts_cache w /\
  objects w' = objects w /\
  remote w' = remote w.

Definition is_dict (v : pyval) : bool :=
  match v with PDict _ => true | _ => false end.

(** The steps of a poll that can be read off the trace. *)
Inductive poll_step : Type :=
| Attempt (i max_retries : Z)
| Fetch
| Found (code : string)
| Sleep (seconds : Z).

(** The announcement of an attempt, the first line
    [fetch_verification_code] logs once it is past its email check, the
    line it logs when it has a code, and a sleep. *)
Definition poll_view (e : event) : option poll_step :=
  match e with
  | Log _ (PollAttempt i n) => Some (Attempt i n)
  | Log _ (PullingEmails _) => Some Fetch
  | Log _ (CodeFound c) => Some (Found c)
  | Slept s => Some (Sleep s)
  | _ => None
  end.

(** The poll steps of a trace, most recent first like the trace. *)
Fixpoint steps (t : list event) : list poll_step :=
  match t with
  | [] => []
  | e :: t' =>
      match poll_view e with
      | Some s => s :: steps t'
      | None => steps t'
      end
  end.

(** The poll steps of a world, in the order they happened. *)
Definition history (w : world) : list poll_step := rev (steps (trace w)).

(** What the [k] attempts of a poll, numbered from [i], go through when
    all but the last find no code and the last ends with [code]: each
    attempt is announced and makes one call of [fetch_verification_code];
    a sleep of [interval] follows each attempt but the last; the last one
    logs the code when it has one, and nothing follows it. *)
Fixpoint schedule (interval max_retries : Z) (k : nat) (i : Z)
    (code : option string) : list poll_step :=
  match k with
  | O => []
  | S k' =>
      Attempt i max_retries :: Fetch ::
      match k' with
      | O => match code with Some c => [Found c] | None => [] end
      | S _ => Sleep interval :: schedule interval max_retries k' (i + 1) code
      end
  end.

(** The line a poll that ran its attempts ends on. *)
Definition closing_line (timeout : Z) (code : option string) : event :=
  match code with
  | Some c => Log info (PollSuccess c)
  | None => Log error (PollTimeout timeout)
  end.

(** [k] calls of [fetch_verification_code] in a row, numbered from [i]:
    each call is announced; every call but the last returns no code and
    is followed by a sleep of [interval]; the last call returns [code]
    and leaves the world [w']. *)
Inductive attempts (fetch : M (option string)) (interval max_retries : Z)
    : nat -> Z -> world -> option string -> world -> Prop :=
| attempts_last (i : Z) (w : world) (code : option string) (w' : world) :
    fetch (emit (Log info (PollAttempt i max_retries)) w) = (Returns code, w') ->
    attempts fetch interval max_retries 1 i w code w'
| attempts_next (k : nat) (i : Z) (w w1 : world) (code : option string)
    (w' : world) :
    fetch (emit (Log info (PollAttempt i max_retries)) w) = (Returns None, w1) ->
    attempts fetch interval max_retries k (i + 1) (emit (Slept interval) w1)
      code w' ->
    attempts fetch interval max_retries (S k) i w code w'.

(** What a method leaves alone when it adds no poll step to the trace. *)
Definition same_steps (w w' : world) : Prop :=
  steps (trace w') = steps (trace w).

(** What the loop of the scan does to the poll steps: it adds one [Found]
    step when it returns a code, which is then not empty, and none
    otherwise. *)
Definition found_or_quiet (w : world) (r : outcome (option string) * world)
    : Prop :=
  match fst r with
  | Returns (Some c) =>
      Py.truthy (PStr c) = true /\
      steps (trace (snd r)) = Found c :: steps (trace w)
  | Returns None | Raises _ => steps (trace (snd r)) = steps (trace w)
  | OutOfFuel => False
  end.

(** *** The inbox scan as the specification words it *)

Module Spec.

(** A field that is text, or is missing, [None] or otherwise falsy. *)
Definition text_or_falsy (v : pyval) : bool :=
  match v with
  | PStr _ => true
  | other => negb (Py.truthy other)
  end.

Definition lookup (d : list (string * pyval)) (k : string) : pyval :=
  match Py.assoc k d with Some v => v | None => PNone end.

(** A message as the API documents it: an object whose four fields,
    when present, are text. *)
Definition message_ok (m : pyval) : bool :=
  match m with
  | PDict d =>
      text_or_falsy (lookup d "received_time")
      && text_or_falsy (lookup d "subject")
      && text_or_falsy (lookup d "body")
      && text_or_falsy (lookup d "body_preview")
  | _ => false
  end.

(** The text of a field, the empty string when it is missing. *)
Definition text (m : pyval) (k : string) : string :=
  match m with
  | PDict d => match lookup d k with PStr s => s | _ => "" end
  | _ => ""
  end.

Definition received_time (m : pyval) : string := text m "received_time".

(** Body followed by preview. *)
Definition body_text (m : pyval) : string :=
  (text m "body" ++ text m "body_preview")%string.

Section Scan.

Variable extract_verification_code : string -> option string.
Variable fromisoformat_local : string -> option Z.

(** A code was extracted and it is not empty. *)
Definition code_of (m : pyval) : option string :=
  match extract_verification_code (body_text m) with
  | Some c => if String.eqb c "" then None else Some c
  | None => None
  end.

(** The first message of the list that yields a code decides. *)
Fixpoint first_code (l : list pyval) : option string :=
  match l with
  | [] => None
  | m :: l' =>
      match code_of m with
      | Some c => Some c
      | None => first_code l'
      end
  end.

(** The message has a timestamp that parses to a time strictly before
    [since]. *)
Definition earlier_than (since : Z) (m : pyval) : bool :=
  match fromisoformat_local (Py.replace_Z (received_time m)) with
  | Some t => negb (String.eqb (received_time m) "") && (t <? since)
  | None => false
  end.

(** The messages left to scan once those before [since_time] are
    dropped. *)
Definition kept (since_time : option Z) (l : list pyval) : list pyval :=
  match since_time with
  | None => l
  | Some since => filter (fun m => negb (earlier_than since m)) l
  end.

End Scan.

(** Newest first: no message is followed by one with a greater
    timestamp, timestamps being compared as strings. *)
Definition newest_first (l : list pyval) : Prop :=
  StronglySorted
    (fun a b => String.leb (received_time b) (received_time a) = true) l.

End Spec.

(** *** Stand-ins for the collaborators, for running examples *)

Definition is_digit (c : ascii) : bool :=
  let n := nat_of_ascii c in (48 <=? n)%nat && (n <=? 57)%nat.

Fixpoint all_digits (s : string) : bool :=
  match s with
  | EmptyString => true
  | String c s' => is_digit c && all_digits s'
  end.

(** A pattern matcher that takes the first run of six digits. *)
Fixpoint six_digits (s : string) : option string :=
  match s with
  | EmptyString => None
  | String _ s' =>
      let candidate := substring 0 6 s in
      if (String.length candidate =? 6)%nat && all_digits candidate
      then Some candidate
      else six_digits s'
  end.

(** A matcher that gives up on anything that is not text. *)
Definition no_nontext (v : pyval) : result (option string) := Raise TypeError.

(** A list order that refuses every comparison. *)
Definition no_list_lt (l m : list pyval) : result bool := Raise TypeError.

(** A clock that reads three instants of one morning and nothing else;
    the values are seconds after midnight. *)
Definition morning_clock (s : string) : option Z :=
  if String.eqb s "2026-01-27T11:49:10+00:00" then Some 42550
  else if String.eqb s "2026-01-27T11:50:10+00:00" then Some 42610
  else if String.eqb s "2026-01-27T11:51:10+00:00" then Some 42670
  else None.

(** A platform whose clock counts nanoseconds in 64 bits: a wait of
    9223372036 seconds or more is refused. *)
Definition int64_clock (seconds : Z) : option exn :=
  if 9223372036 <? seconds then Some OverflowError
  else if seconds =? 9223372036 then Some OSError
  else None.

(** The limit on the digits of an int that the interpreter starts
    with. *)
Definition default_max_str_digits : Z := 4300.

Definition blank_instance : instance :=
  {| base_url := "http://your-outlook-api.com"; proxy_url := "";
     email := PNone; account_id := PNone |}.

(** A fresh process: index 0, empty cache, instances as [__init__] leaves
    them, nothing requested or logged yet. *)
Definition fresh_world (service : nat -> request -> http_outcome) : world :=
  {| _account_index := 0; _accounts_cache := [];
     objects := fun _ => blank_instance;
     remote := service; requests_sent := 0; trace := [] |}.

(** The world when the remote end is replaced by another. *)
Definition with_remote (service : nat -> request -> http_outcome) (w : world)
    : world :=
  {| _account_index := _account_index w; _accounts_cache := _accounts_cache w;
     objects := objects w; remote := service;
     requests_sent := requests_sent w; trace := trace w |}.

(** The same, after [set_credentials] on instance 0. *)
Definition world_with_email (service : nat -> request -> http_outcome)
    (address : string) : world :=
  snd (set_credentials 0 address (fresh_world service)).

Definition account (id : Z) (address : string) : pyval :=
  PDict [("id", PInt id); ("email", PStr address)].

Definition mail (received subject body : string) : pyval :=
  PDict [("subject", PStr subject); ("body", PStr body);
         ("body_preview", PStr ""); ("received_time", PStr received)].

(** *** What runs are asked to satisfy *)

(** Every step of the method respects the relation [R] between the world
    before and the world after. *)
Definition keeps {A} (R : world -> world -> Prop) (m : M A) : Prop :=
  forall w, R w (snd (m w)).

(** A method that only talks to the network and logs. *)
Definition preserves {A} (m : M A) : Prop := keeps same_state m.

(** A method whose loop bound is never the reason it stops. *)
Definition total {A} (m : M A) : Prop := forall w, fst (m w) <> OutOfFuel.

(** A method that returns in every world. *)
Definition safe {A} (m : M A) : Prop :=
  forall w, exists a, fst (m w) = Returns a.

(** The world [register_account] leaves when it selects the account [d]
    found at [index] in the freshly fetched [pool]; [w1] is the world
    after the fetch. *)
Definition selected (self : nat) (pool : list pyval)
    (d : list (string * pyval)) (index : Z) (w1 : world) : world :=
  let total := Z.of_nat (List.length pool) in
  emit (Log info (AccountSelected (index + 1) total (Spec.lookup d "email")))
    (set_account_index ((index + 1) mod total)
       (assign_account_id self (Spec.lookup d "id")
          (assign_email self (Spec.lookup d "email")
             (emit (Log info (PoolSize total))
                (set_accounts_cache pool w1))))).

(** A call of [register_account] that ended as [r] selected the account
    at [position] of [pool]. *)
Definition selects (pool : list pyval) (self : nat) (position : Z)
    (r : outcome bool * world) : Prop :=
  fst r = Returns true /\
  exists acct,
    nth_error pool (Z.to_nat position) = Some acct /\
    Py.get acct "email" = Ok (email (objects (snd r) self)) /\
    Py.get acct "id" = Ok (account_id (objects (snd r) self)) /\
    hd_error (trace (snd r))
    = Some (Log info (AccountSelected (position + 1)
                        (Z.of_nat (List.length pool))
                        (email (objects (snd r) self)))).

(** A message paired with its text key. *)
Definition keyed (p : pyval * pyval) : Prop :=
  fst p = PStr (Spec.received_time (snd p)).

(** [b] is not newer than [a]. *)
Definition not_newer (a b : pyval * pyval) : Prop :=
  String.leb (Spec.received_time (snd b)) (Spec.received_time (snd a))
  = true.

(** *** Sample pools and inboxes *)

Definition pool_of_three : list pyval :=
  [account 1 "ann@outlook.com"; account 2 "bob@outlook.com";
   account 3 "cy@outlook.com"].

(** A hundred accounts, enough for one full page. *)
Definition pool_of_hundred : list pyval :=
  map (fun i => account (Z.of_nat i) "user@outlook.com") (seq 0 100).


(** An older message with a code and a newer one without. *)
Definition inbox_of_two : list pyval :=
  [mail "2026-01-27T11:49:10Z" "Your code" "Use 123456 to sign in";
   mail "2026-01-27T11:51:10Z" "Welcome" "Thanks for joining"].

(** Three messages of one morning; the two older ones carry a code. *)
Definition inbox_of_three : list pyval :=
  [mail "2026-01-27T11:49:10Z" "Your code" "Use 123456 to sign in";
   mail "2026-01-27T11:50:10Z" "Your new code" "Use 654321 to sign in";
   mail "2026-01-27T11:51:10Z" "Welcome" "Thanks for joining"].

(** A message whose timestamp is not a time. *)
Definition inbox_with_bad_time : list pyval :=
  [mail "yesterday" "Hello" "Nothing to see"].

(** ** The rest of the class *)

(** *** Construction *)

(** The default of [base_url]. *)
Definition default_base_url : string := "http://your-outlook-api.com".

(** The string without its longest suffix of characters that satisfy [p]. *)
Fixpoint rstrip_where (p : ascii -> bool) (s : string) : string :=
  match s with
  | EmptyString => EmptyString
  | String c s' =>
      match rstrip_where p s' with
      | EmptyString => if p c then EmptyString else String c EmptyString
      | r => String c r
      end
  end.

(** The string without its longest prefix of characters that satisfy [p]. *)
Fixpoint lstrip_where (p : ascii -> bool) (s : string) : string :=
  match s with
  | EmptyString => EmptyString
  | String c s' => if p c then lstrip_where p s' else s
  end.

Definition is_slash (c : ascii) : bool := Ascii.eqb c "/"%char.

(** [c.isspace()] on the characters below 256: tab to carriage return,
    the four separators, the space, next line and the no-break space. *)
Definition isspace (c : ascii) : bool :=
  let n := nat_of_ascii c in
  ((9 <=? n)%nat && (n <=? 13)%nat)
  || ((28 <=? n)%nat && (n <=? 32)%nat)
  || (n =? 133)%nat || (n =? 160)%nat.

(** [v.rstrip("/")]: a str method. *)
Definition py_rstrip_slash (v : pyval) : result string :=
  match v with
  | PStr s => Ok (rstrip_where is_slash s)
  | _ => Raise AttributeError
  end.

(** [v.strip()]: a str method. *)
Definition py_strip (v : pyval) : result string :=
  match v with
  | PStr s => Ok (rstrip_where isspace (lstrip_where isspace s))
  | _ => Raise AttributeError
  end.

(** The world after [self.base_url = s]. *)
Definition assign_base_url (self : nat) (s : string) (w : world) : world :=
  let o := objects w self in
  set_object self {| base_url := s; proxy_url := proxy_url o;
                     email := email o; account_id := account_id o |} w.

(** The world after [self.proxy_url = s]. *)
Definition assign_proxy_url (self : nat) (s : string) (w : world) : world :=
  let o := objects w self in
  set_object self {| base_url := base_url o; proxy_url := s;
                     email := email o; account_id := account_id o |} w.

(** [__init__], on the object [self]; the callback is kept out of the
    instance, as for [_log]. *)
Definition __init__ (self : nat) (base_url proxy : pyval) : M unit :=
  b <- lift (py_rstrip_slash (Py.or_ base_url (PStr default_base_url))) ;;
  modify (assign_base_url self b) ;;
  p <- lift (py_strip (Py.or_ proxy (PStr ""))) ;;
  modify (assign_proxy_url self p) ;;
  set_email self PNone ;;
  set_account_id self PNone.

(** The last character of the string satisfies [p]. *)
Fixpoint ends_with (p : ascii -> bool) (s : string) : bool :=
  match s with
  | EmptyString => false
  | String c EmptyString => p c
  | String _ s' => ends_with p s'
  end.

(** The first character of the string satisfies [p]. *)
Definition starts_with (p : ascii -> bool) (s : string) : bool :=
  match s with
  | EmptyString => false
  | String c _ => p c
  end.

(** Every character of the string satisfies [p]. *)
Fixpoint all_chars (p : ascii -> bool) (s : string) : bool :=
  match s with
  | EmptyString => true
  | String c s' => p c && all_chars p s'
  end.

(** *** More drivers, environments and observations *)

(** [register_account] called in a row by the instances of [selfs], one
    call each, in that order. *)
Fixpoint register_rounds_by (selfs : list nat) (fuel : nat) (w : world)
    : list (outcome bool * world) :=
  match selfs with
  | [] => []
  | self :: rest =>
      let r := register_account fuel self w in
      r :: register_rounds_by rest fuel (snd r)
  end.

(** A service that answers every request for accounts with the same
    page, whatever the page number. *)
Definition endless_service (page : list pyval) : nat -> request -> http_outcome :=
  fun _ rq =>
    match req_url rq with
    | AccountsUrl _ _ _ =>
        Answer {| status_code := 200; res_content := Json (PList page) |}
    | InboxUrl _ _ => TransportError
    end.

(** The calls of [fetch_verification_code] among poll steps. *)
Fixpoint fetches (l : list poll_step) : nat :=
  match l with
  | [] => 0
  | Fetch :: l' => S (fetches l')
  | _ :: l' => fetches l'
  end.

(** The time slept among poll steps. *)
Fixpoint slept (l : list poll_step) : Z :=
  match l with
  | [] => 0
  | Sleep s :: l' => s + slept l'
  | _ :: l' => slept l'
  end.

(** A method that sends no request. *)
Definition same_requests (w w' : world) : Prop :=
  requests_sent w' = requests_sent w.

(** A method that sends exactly one request. *)
Definition one_request {A} (m : M A) : Prop :=
  forall w, requests_sent (snd (m w)) = S (requests_sent w).

(** As many requests as calls of [fetch_verification_code]. *)
Definition request_per_fetch (w w' : world) : Prop :=
  (requests_sent w' + fetches (steps (trace w))
   = requests_sent w + fetches (steps (trace w')))%nat.

(** A method that only adds to the trace. *)
Definition extends (w w' : world) : Prop :=
  exists new, trace w' = new ++ trace w.

(** On every world where the object [self] is [o], the method leaves the
    events [marks] in the trace, right above what was there, whatever it
    logs after them. *)
Definition leaves {A} (self : nat) (o : instance) (marks : list event)
    (m : M A) : Prop :=
  forall w, objects w self = o ->
            exists new, trace (snd (m w)) = new ++ marks ++ trace w.

(** The lines of a trace that announce a request. *)
Fixpoint sendings (t : list event) : nat :=
  match t with
  | [] => 0
  | Log _ (SendingRequest _ _) :: t' => S (sendings t')
  | _ :: t' => sendings t'
  end.

(** As many announcements as requests. *)
Definition line_per_request (w w' : world) : Prop :=
  (sendings (trace w') + requests_sent w
   = sendings (trace w) + requests_sent w')%nat.

(** The messages of a list that carry the timestamp [s]. *)
Definition at_time (s : string) (l : list pyval) : list pyval :=
  filter (fun m => String.eqb (Spec.received_time m) s) l.

(** Two messages received at the same time, the second with a code. *)
Definition inbox_of_twins : list pyval :=
  [mail "2026-01-27T11:49:10Z" "First" "Nothing here";
   mail "2026-01-27T11:49:10Z" "Second" "Use 654321 to sign in";
   mail "2026-01-27T11:51:10Z" "Third" "Nothing either"].

(** An inbox in which one entry is not a message. *)
Definition inbox_with_junk : list pyval :=
  [mail "2026-01-27T11:49:10Z" "Your code" "Use 123456 to sign in";
   PStr "junk"].

(** An account object that has no email. *)
Definition pool_without_email : list pyval := [PDict [("id", PInt 7)]].

(** * Properties *)

(** ** How methods compose *)

Section Keeps.

(** A relation between the world before and the world after that every
    step of a method respects. *)
Variable R : world -> world -> Prop.
Hypothesis R_refl : forall w, R w w.
Hypothesis R_trans : forall w1 w2 w3, R w1 w2 -> R w2 w3 -> R w1 w3.

Lemma keeps_ret {A} (a : A) : keeps R (ret a).
Proof. intro w. apply R_refl. Qed.

Lemma keeps_lift {A} (r : result A) : keeps R (lift r).
Proof. intro w. unfold lift. destruct r; apply R_refl. Qed.

Lemma keeps_out_of_fuel {A} : keeps R (@out_of_fuel A).
Proof. intro w. apply R_refl. Qed.

Lemma keeps_get_world : keeps R get_world.
Proof. intro w. apply R_refl. Qed.

Lemma keeps_modify (f : world -> world) :
  (forall w, R w (f w)) -> keeps R (modify f).
Proof. intros H w. apply H. Qed.

Lemma keeps_bind {A B} (m : M A) (k : A -> M B) :
  keeps R m -> (forall a, keeps R (k a)) -> keeps R (bind m k).
Proof.
  intros Hm Hk w. unfold bind.
  specialize (Hm w).
  destruct (m w) as [[a | e |] w1]; simpl in *; auto.
  eapply R_trans; [exact Hm | apply Hk].
Qed.

Lemma keeps_try_except {A} (m : M A) (h : exn -> M A) :
  keeps R m -> (forall e, keeps R (h e)) -> keeps R (try_except m h).
Proof.
  intros Hm Hh w. unfold try_except.
  specialize (Hm w).
  destruct (m w) as [[a | e |] w1]; simpl in *; auto.
  eapply R_trans; [exact Hm | apply Hh].
Qed.

End Keeps.

Lemma safe_total {A} (m : M A) : safe m -> total m.
Proof. intros H w. destruct (H w) as [a Ha]. rewrite Ha. discriminate. Qed.

Lemma safe_ret {A} (a : A) : safe (ret a).
Proof. intro w. now exists a. Qed.

Lemma safe_modify (f : world -> world) : safe (modify f).
Proof. intro w. now exists tt. Qed.

Lemma safe_get_world : safe get_world.
Proof. intro w. now exists w. Qed.

Lemma safe_bind {A B} (m : M A) (k : A -> M B) :
  safe m -> (forall a, safe (k a)) -> safe (bind m k).
Proof.
  intros Hm Hk w. unfold bind.
  destruct (Hm w) as [a Ha].
  destruct (m w) as [r w1]; simpl in Ha; subst r.
  apply Hk.
Qed.

Lemma total_lift {A} (r : result A) : total (lift r).
Proof. intro w. unfold lift. destruct r; discriminate. Qed.

Lemma total_bind {A B} (m : M A) (k : A -> M B) :
  total m -> (forall a, total (k a)) -> total (bind m k).
Proof.
  intros Hm Hk w. unfold bind.
  specialize (Hm w).
  destruct (m w) as [[a | e |] w1]; simpl in *; try discriminate.
  - apply Hk.
  - contradiction.
Qed.

Lemma total_try_except {A} (m : M A) (h : exn -> M A) :
  total m -> (forall e, total (h e)) -> total (try_except m h).
Proof.
  intros Hm Hh w. unfold try_except.
  specialize (Hm w).
  destruct (m w) as [[a | e |] w1]; simpl in *; try discriminate.
  - apply Hh.
  - contradiction.
Qed.

(** A handler that always returns turns a bounded block into a method
    that always returns. *)
Lemma safe_try_except {A} (m : M A) (h : exn -> M A) :
  total m -> (forall e, safe (h e)) -> safe (try_except m h).
Proof.
  intros Hm Hh w. unfold try_except.
  specialize (Hm w).
  destruct (m w) as [[a | e |] w1]; simpl in *.
  - now exists a.
  - apply Hh.
  - contradiction.
Qed.

Lemma safe_bind_value {A B} (a : A) (k : A -> M B) :
  safe (k a) -> safe (bind (lift (Ok a)) k).
Proof. intros H w. unfold bind, lift. apply H. Qed.

Lemma safe_log (lv : level) (msg : message) : safe (_log lv msg).
Proof. apply safe_modify. Qed.

Lemma safe_read_self (self : nat) : safe (read_self self).
Proof. intro w. now eexists. Qed.

Create HintDb methods.
#[local] Hint Resolve safe_total safe_ret safe_modify safe_get_world safe_log
  safe_read_self total_lift : methods.

Ltac method_step :=
  first
    [ apply total_lift
    | apply safe_total; solve [auto with methods]
    | apply total_bind; [ | intros ]
    | apply total_try_except; [ | intros ]
    | apply safe_ret | apply safe_log | apply safe_modify
    | apply safe_read_self | apply safe_get_world
    | apply safe_bind; [ | intros ]
    | match goal with
      | |- total (if ?b then _ else _) => destruct b
      | |- safe (if ?b then _ else _) => destruct b
      | |- total (match ?x with _ => _ end) => destruct x
      | |- safe (match ?x with _ => _ end) => destruct x
      end ].

Lemma total_requests_request (rq : request) : total (requests_request rq).
Proof.
  intro w. unfold requests_request, bind, get_world, modify. simpl.
  destruct (remote w (requests_sent w) rq); simpl; discriminate.
Qed.

Lemma total_request (self : nat) (method : string) (u : url) :
  total (_request self method u).
Proof.
  unfold _request.
  repeat first [ apply total_requests_request | method_step ].
Qed.

Lemma total_list_emails_try (self : nat) (u : url) :
  total (_list_emails_try self u).
Proof.
  unfold _list_emails_try.
  repeat first [ apply total_request | method_step ].
Qed.

Lemma safe_list_emails (self : nat) (address : pyval) :
  safe (_list_emails self address).
Proof.
  unfold _list_emails.
  apply safe_bind; [ auto with methods | intros o ].
  apply safe_try_except.
  - apply total_list_emails_try.
  - intros e. repeat method_step.
Qed.

(** ** Listing the inbox *)

Ltac run_request H :=
  unfold _request, requests_request, bind, _log, read_self, get_world,
    modify, ret, lift; simpl;
  rewrite ?H; simpl.

(** C8.  [_list_emails] returns in every world, whatever the service does.
    It returns the empty list when the request fails at the transport
    level, when the status is not 200, when the body is not JSON, when the
    payload's [success] entry is missing, false or otherwise falsy, and
    whenever its [try] block raises; when the status is 200 and the payload
    has a true [success] and a list under [emails], it returns that list. *)
Theorem list_emails_outcome (self : nat) (address : pyval) (w : world) :
  let u := InboxUrl (base_url (objects w self)) address in
  let out := remote w (requests_sent w) (request_of (objects w self) "GET" u) in
  exists l w',
    _list_emails self address w = (Returns l, w') /\
    (out = TransportError -> l = []) /\
    (forall res, out = Answer res -> status_code res <> 200 -> l = []) /\
    (forall res, out = Answer res -> res_content res = Malformed -> l = []) /\
    (forall res d,
        out = Answer res -> json_or res (PDict []) = Ok (PDict d) ->
        Py.truthy (Spec.lookup d "success") = false -> l = []) /\
    (forall e w1, _list_emails_try self u w = (Raises e, w1) ->
        l = [] /\ w' = emit (Log error (EmailsException e)) w1) /\
    (forall res d emails,
        out = Answer res -> status_code res = 200 ->
        res_content res = Json (PDict d) ->
        Py.truthy (Spec.lookup d "success") = true ->
        Spec.lookup d "emails" = PList emails ->
        l = emails).
Proof.
  intros u out.
  destruct (safe_list_emails self address w) as [l Hl].
  destruct (_list_emails self address w) as [r w'] eqn:E.
  simpl in Hl. subst r.
  exists l, w'. split; [reflexivity | ].
  unfold _list_emails, bind, read_self, get_world, ret in E. simpl in E.
  fold u in E.
  unfold try_except in E.
  assert (Hrun : forall o,
    out = o ->
    _list_emails_try self u w =
    match o with
    | TransportError =>
        (Raises RequestException,
         count_request (emit (Log info (SendingRequest "GET" u)) w))
    | Answer res =>
        let w1 := emit (Log info (ReceivedResponse (status_code res)))
                    (count_request (emit (Log info (SendingRequest "GET" u)) w)) in
        if negb (status_code res =? 200)
        then (Returns [], emit (Log error (EmailsHttpFailed (status_code res))) w1)
        else
          match json_or res (PDict []) with
          | Raise e => (Raises e, w1)
          | Ok body =>
              match Py.get body "success" with
              | Raise e => (Raises e, w1)
              | Ok success =>
                  if negb (Py.truthy success)
                  then (Returns [], emit (Log error EmailsNotSuccess) w1)
                  else
                    match Py.get body "emails" with
                    | Raise e => (Raises e, w1)
                    | Ok emails =>
                        match py_list (Py.or_ emails (PList [])) with
                        | Ok l0 => (Returns l0, w1)
                        | Raise e => (Raises e, w1)
                        end
                    end
              end
          end
    end).
  { intros o Ho. unfold out in Ho.
    unfold _list_emails_try. run_request Ho.
    destruct o as [ | res]; simpl; [reflexivity | ].
    destruct (negb (status_code res =? 200)); simpl; [reflexivity | ].
    destruct (json_or res (PDict [])) as [body | e]; simpl; [ | reflexivity].
    destruct (Py.get body "success") as [success | e]; simpl; [ | reflexivity].
    destruct (negb (Py.truthy success)); simpl; [reflexivity | ].
    destruct (Py.get body "emails") as [emails | e]; simpl; [ | reflexivity].
    destruct (py_list (Py.or_ emails (PList []))); reflexivity. }
  refine (conj _ (conj _ (conj _ (conj _ (conj _ _))))).
  - intros Ho. rewrite (Hrun _ Ho) in E. simpl in E.
    unfold bind, _log, modify, ret in E. simpl in E. congruence.
  - intros res Ho Hst. rewrite (Hrun _ Ho) in E. simpl in E.
    apply Z.eqb_neq in Hst. rewrite Hst in E. simpl in E. congruence.
  - intros res Ho Hc. rewrite (Hrun _ Ho) in E. simpl in E.
    destruct (negb (status_code res =? 200)); [congruence | ].
    unfold json_or, json in E. rewrite Hc in E.
    unfold bind, _log, modify, ret in E. simpl in E. congruence.
  - intros res d Ho Hj Hs. rewrite (Hrun _ Ho) in E. simpl in E.
    destruct (negb (status_code res =? 200)); [congruence | ].
    rewrite Hj in E. simpl in E. unfold Spec.lookup in Hs.
    rewrite Hs in E. simpl in E. congruence.
  - intros e w1 Hraise. rewrite Hraise in E.
    unfold bind, _log, modify, ret in E. simpl in E.
    split; congruence.
  - intros res d emails Ho Hst Hc Hs He.
    rewrite (Hrun _ Ho) in E. simpl in E.
    rewrite Hst in E. simpl in E.
    unfold json_or, json in E. rewrite Hc in E. simpl in E.
    unfold Spec.lookup in Hs, He. rewrite Hs, He in E. simpl in E.
    unfold Py.or_ in E. destruct emails; simpl in E; congruence.
Qed.

(** ** Fetching the pool *)

Lemma same_steps_refl (w : world) : same_steps w w.
Proof. reflexivity. Qed.

Lemma same_steps_trans (w1 w2 w3 : world) :
  same_steps w1 w2 -> same_steps w2 w3 -> same_steps w1 w3.
Proof. unfold same_steps. congruence. Qed.

Lemma same_state_refl (w : world) : same_state w w.
Proof. repeat split. Qed.

Lemma same_state_trans (w1 w2 w3 : world) :
  same_state w1 w2 -> same_state w2 w3 -> same_state w1 w3.
Proof.
  intros (Hi & Hc & Ho & Hr) (Hi' & Hc' & Ho' & Hr').
  repeat split; congruence.
Qed.

Lemma same_state_emit (e : event) (w : world) : same_state w (emit e w).
Proof. repeat split. Qed.

Lemma same_state_count (w : world) : same_state w (count_request w).
Proof. repeat split. Qed.

Ltac keeps_step R Hrefl Htrans :=
  first
    [ apply (keeps_ret R Hrefl)
    | apply (keeps_lift R Hrefl)
    | apply (keeps_get_world R Hrefl)
    | apply (keeps_out_of_fuel R Hrefl)
    | apply (keeps_modify R); intro; solve [ repeat split | reflexivity ]
    | apply (keeps_bind R Htrans); [ | intros ]
    | apply (keeps_try_except R Htrans); [ | intros ]
    | match goal with
      | |- keeps _ (if ?b then _ else _) => destruct b
      | |- keeps _ (match ?x with _ => _ end) => destruct x
      end ].

Ltac preserves_step :=
  unfold preserves; keeps_step same_state same_state_refl same_state_trans.

Lemma preserves_request (self : nat) (method : string) (u : url) :
  preserves (_request self method u).
Proof.
  unfold _request, requests_request, _log, read_self.
  repeat preserves_step.
Qed.

Lemma preserves_fetch_accounts_turn (self : nat) (acc : list pyval) (page : Z) :
  preserves (_fetch_accounts_turn self acc page).
Proof.
  unfold _fetch_accounts_turn, _log, read_self.
  repeat first [ apply preserves_request | preserves_step ].
Qed.

Lemma preserves_fetch_accounts_loop (fuel self : nat) :
  forall (acc : list pyval) (page : Z),
    preserves (_fetch_accounts_loop fuel self acc page).
Proof.
  induction fuel as [ | fuel IH]; intros acc page; simpl.
  - preserves_step.
  - apply (keeps_bind same_state same_state_trans).
    + apply preserves_fetch_accounts_turn.
    + intros [acc' | acc' page']; [preserves_step | apply IH].
Qed.

(** [_fetch_accounts] lets no exception out. *)
Lemma fetch_accounts_turn_safe (self : nat) (acc : list pyval) (page : Z) :
  safe (_fetch_accounts_turn self acc page).
Proof.
  unfold _fetch_accounts_turn.
  apply safe_bind; [auto with methods | intros o].
  apply safe_bind.
  - apply safe_try_except.
    + repeat first [ apply total_request | method_step ].
    + intros e. repeat method_step.
  - intros [exit | [accounts extended]]; [auto with methods | ].
    apply safe_try_except.
    + repeat method_step.
    + intros e. repeat method_step.
Qed.

Lemma fetch_accounts_loop_never_raises (fuel self : nat) :
  forall (acc : list pyval) (page : Z) (w : world) (e : exn),
    fst (_fetch_accounts_loop fuel self acc page w) <> Raises e.
Proof.
  induction fuel as [ | fuel IH]; intros acc page w e; simpl.
  - discriminate.
  - unfold bind.
    destruct (fetch_accounts_turn_safe self acc page w) as [exit Hexit].
    destruct (_fetch_accounts_turn self acc page w) as [r w1].
    simpl in Hexit. subst r.
    destruct exit as [acc' | acc' page']; [discriminate | apply IH].
Qed.

(** One turn of the loop on a page that comes back as a JSON list. *)
Lemma fetch_accounts_turn_on_list (self : nat) (acc items : list pyval)
    (page : Z) (w : world) :
  remote w (requests_sent w) (page_request (objects w self) page)
  = Answer {| status_code := 200; res_content := Json (PList items) |} ->
  let w1 :=
    emit (Log info (ReceivedResponse 200))
      (count_request
         (emit (Log info (SendingRequest "GET"
                            (AccountsUrl (base_url (objects w self)) page 100)))
            w)) in
  _fetch_accounts_turn self acc page w =
  (Returns
     (match items with
      | [] => Break acc
      | _ => if Z.of_nat (List.length items) <? 100
             then Break (acc ++ items)
             else Continue (acc ++ items) (page + 1)
      end), w1).
Proof.
  intros H w1. unfold page_request in H.
  unfold _fetch_accounts_turn, try_except.
  run_request H. unfold page_size. rewrite H. simpl.
  destruct items as [ | x items]; simpl; [reflexivity | ].
  destruct (Z.pos (Pos.of_succ_nat (List.length items)) <? 100); reflexivity.
Qed.





(** On a service that holds a fixed pool the loop gathers the whole pool,
    as soon as the bound allows for one request more than the pool has
    full pages. *)
Lemma fetch_accounts_loop_pool (self : nat) (pool : list pyval) :
  forall (fuel : nat) (rest acc : list pyval) (p : nat) (w : world),
    remote w = accounts_service pool ->
    skipn (100 * p) pool = rest ->
    acc ++ rest = pool ->
    (List.length rest < 100 * fuel)%nat ->
    fst (_fetch_accounts_loop fuel self acc (Z.of_nat p + 1) w) = Returns pool.
Proof.
  induction fuel as [ | fuel IH]; intros rest acc p w Hr Hrest Hacc Hfuel;
    [simpl in Hfuel; lia | ].
  simpl. unfold bind.
  assert (Hans :
    remote w (requests_sent w) (page_request (objects w self) (Z.of_nat p + 1))
    = Answer {| status_code := 200;
                res_content := Json (PList (firstn 100 rest)) |}).
  { rewrite Hr. unfold accounts_service, page_request, request_of.
    cbn [req_url].
    assert (Hp : Z.to_nat ((Z.of_nat p + 1 - 1) * 100) = (100 * p)%nat) by lia.
    rewrite Hp, Hrest. reflexivity. }
  rewrite (fetch_accounts_turn_on_list self acc _ _ w Hans).
  destruct (firstn 100 rest) as [ | x items] eqn:Hfirst.
  - simpl.
    destruct rest as [ | y rest]; [ | discriminate].
    rewrite app_nil_r in Hacc. now subst acc.
  - rewrite <- Hfirst.
    destruct (Z.of_nat (List.length (firstn 100 rest)) <? 100) eqn:Hshort.
    + unfold ret. cbn [fst]. apply Z.ltb_lt in Hshort.
      rewrite length_firstn in Hshort.
      rewrite firstn_all2 by lia. now rewrite Hacc.
    + apply Z.ltb_ge in Hshort. rewrite length_firstn in Hshort.
      replace (Z.of_nat p + 1 + 1) with (Z.of_nat (S p) + 1) by lia.
      apply (IH (skipn 100 rest)).
      * exact Hr.
      * rewrite <- Hrest, skipn_skipn. f_equal. lia.
      * rewrite <- app_assoc, firstn_skipn. exact Hacc.
      * rewrite length_skipn. lia.
Qed.

(** ** Registration *)

(** [register_account], given what the fetch gave. *)
Lemma register_account_run (fuel self : nat) (w : world) :
  let fetched := _fetch_accounts fuel self (emit (Log info FetchingPool) w) in
  register_account fuel self w =
  match fetched with
  | (Returns pool, w1) =>
      match pool with
      | [] =>
          (Returns false, emit (Log error PoolEmpty) (set_accounts_cache [] w1))
      | _ =>
          let total := Z.of_nat (List.length pool) in
          let index := _account_index w1 mod total in
          let w2 := emit (Log info (PoolSize total))
                      (set_accounts_cache pool w1) in
          match Py.index pool index with
          | Ok (PDict d) => (Returns true, selected self pool d index w1)
          | Ok _ => (Raises AttributeError, w2)
          | Raise e => (Raises e, w2)
          end
      end
  | (Raises e, w1) => (Raises e, w1)
  | (OutOfFuel, w1) => (OutOfFuel, w1)
  end.
Proof.
  intros fetched. unfold register_account.
  unfold bind at 1. unfold _log at 1. unfold modify at 1.
  unfold bind at 1. fold fetched.
  destruct fetched as [[pool | e | ] w1]; try reflexivity.
  destruct pool as [ | a pool]; [reflexivity | ].
  assert (Htrue : Py.truthy (PList (a :: pool)) = true) by reflexivity.
  remember (a :: pool) as l eqn:Hl.
  unfold bind, modify, get_world, _log, lift, ret, set_email, set_account_id,
    read_self.
  cbn [_accounts_cache set_accounts_cache]. rewrite Htrue.
  cbn [negb _accounts_cache _account_index emit set_accounts_cache].
  destruct (Py.index l (_account_index w1 mod Z.of_nat (List.length l)))
    as [acct | e]; [ | reflexivity].
  destruct acct; try reflexivity.
  simpl. unfold selected, Spec.lookup. simpl.
  rewrite Nat.eqb_refl. reflexivity.
Qed.

(** The fetch of [register_account] leaves the class attributes, the
    instances and the service as it found them. *)
Lemma register_fetch_same_state (fuel self : nat) (w : world) :
  same_state w
    (snd (_fetch_accounts fuel self (emit (Log info FetchingPool) w))).
Proof.
  eapply same_state_trans; [apply (same_state_emit (Log info FetchingPool)) | ].
  apply preserves_fetch_accounts_loop.
Qed.

Lemma index_in_range (l : list pyval) (i : Z) :
  0 <= i < Z.of_nat (List.length l) ->
  Py.index l i = match nth_error l (Z.to_nat i) with
                 | Some x => Ok x
                 | None => Raise IndexError
                 end.
Proof.
  intros [Hlo Hhi]. unfold Py.index.
  destruct (i <? 0) eqn:Hneg; [apply Z.ltb_lt in Hneg; lia | ].
  rewrite Hneg. simpl.
  destruct (Z.of_nat (List.length l) <=? i) eqn:Hge;
    [apply Z.leb_le in Hge; lia | reflexivity].
Qed.

(** C10.  When [register_account] returns [False], no instance has
    changed (so the selected email and the account id are the ones from
    before the call) and the stored index is the same, but the class-wide
    cache has been replaced by the empty fetch result: whatever pool was
    cached before is gone. *)
Theorem failed_registration_erases_cache (fuel self : nat) (w w' : world) :
  register_account fuel self w = (Returns false, w') ->
  objects w' = objects w /\
  email (objects w' self) = email (objects w self) /\
  account_id (objects w' self) = account_id (objects w self) /\
  _account_index w' = _account_index w /\
  _accounts_cache w' = [].
Proof.
  intros H.
  rewrite register_account_run in H.
  pose proof (register_fetch_same_state fuel self w) as (Hi & _ & Ho & _).
  destruct (_fetch_accounts fuel self (emit (Log info FetchingPool) w))
    as [[pool | e | ] w1]; try discriminate.
  simpl in Hi, Ho.
  destruct pool as [ | a pool].
  - injection H as <-. simpl. rewrite Ho. repeat split. exact Hi.
  - cbv zeta in H.
    destruct (Py.index (a :: pool) _) as [[ | | | | | ] | ]; discriminate.
Qed.

(** C9.  A call of [register_account] that returns [True] has cached a
    non-empty pool and selected the account at position
    [stored index mod pool size] of it, where the stored index is the one
    the call found: the instance's email and account id are that
    account's, the last line logged names that position, and the index
    the call stores is the next position modulo the size, hence within
    [0, size).  The world before the call is arbitrary, so this holds at
    every call of every sequence, whatever pool the calls before it
    fetched. *)
Theorem successful_registration_selects_modulo_size
    (fuel self : nat) (w w' : world) :
  register_account fuel self w = (Returns true, w') ->
  let total := Z.of_nat (List.length (_accounts_cache w')) in
  let position := _account_index w mod total in
  0 < total /\
  0 <= position < total /\
  (exists acct,
      nth_error (_accounts_cache w') (Z.to_nat position) = Some acct /\
      Py.get acct "email" = Ok (email (objects w' self)) /\
      Py.get acct "id" = Ok (account_id (objects w' self))) /\
  hd_error (trace w')
  = Some (Log info (AccountSelected (position + 1) total
                      (email (objects w' self)))) /\
  _account_index w' = (position + 1) mod total /\
  0 <= _account_index w' < total.
Proof.
  intros H.
  rewrite register_account_run in H.
  pose proof (register_fetch_same_state fuel self w) as (Hi & _ & _ & _).
  destruct (_fetch_accounts fuel self (emit (Log info FetchingPool) w))
    as [[pool | e | ] w1]; try discriminate.
  simpl in Hi.
  destruct pool as [ | a pool]; [discriminate | ].
  remember (a :: pool) as l eqn:Hl.
  assert (Hpos : 0 < Z.of_nat (List.length l)) by (subst l; simpl; lia).
  cbv zeta in H. rewrite Hi in H.
  pose proof (Z.mod_pos_bound (_account_index w) _ Hpos) as Hrange.
  rewrite (index_in_range l _ Hrange) in H.
  destruct (nth_error l _) as [acct | ] eqn:Hnth; [ | discriminate].
  destruct acct as [ | | | | | d]; try discriminate.
  injection H as <-.
  unfold selected. simpl. rewrite Nat.eqb_refl. simpl.
  repeat split; try lia.
  - exists (PDict d). repeat split. exact Hnth.
  - apply Z.mod_pos_bound. exact Hpos.
  - apply Z.mod_pos_bound. exact Hpos.
Qed.

(** A fetch that brought back a non-empty pool of objects is followed by
    the selection of the account at [stored index mod size]. *)
Lemma register_account_selects (fuel self : nat) (w : world)
    (pool : list pyval) :
  fst (_fetch_accounts fuel self (emit (Log info FetchingPool) w))
  = Returns pool ->
  pool <> [] ->
  Forall (fun a => is_dict a = true) pool ->
  let w1 := snd (_fetch_accounts fuel self (emit (Log info FetchingPool) w)) in
  let position := _account_index w mod Z.of_nat (List.length pool) in
  exists d,
    nth_error pool (Z.to_nat position) = Some (PDict d) /\
    register_account fuel self w
    = (Returns true, selected self pool d position w1).
Proof.
  intros Hfetch Hne Hdict w1 position.
  pose proof (register_fetch_same_state fuel self w) as (Hi & _ & _ & _).
  fold w1 in Hi.
  rewrite register_account_run.
  destruct (_fetch_accounts fuel self (emit (Log info FetchingPool) w))
    as [r w1'] eqn:E.
  simpl in Hfetch, w1. subst r w1.
  destruct pool as [ | a pool]; [contradiction | ].
  remember (a :: pool) as l eqn:Hl.
  assert (Hpos : 0 < Z.of_nat (List.length l)) by (subst l; simpl; lia).
  cbv zeta. rewrite Hi. fold position.
  pose proof (Z.mod_pos_bound (_account_index w) _ Hpos) as Hrange.
  fold position in Hrange.
  rewrite (index_in_range l _ Hrange).
  destruct (nth_error l (Z.to_nat position)) as [acct | ] eqn:Hnth.
  - assert (Hin : In acct l) by (eapply nth_error_In; exact Hnth).
    rewrite Forall_forall in Hdict. specialize (Hdict _ Hin).
    destruct acct as [ | | | | | d]; try discriminate.
    exists d. split; reflexivity.
  - apply nth_error_None in Hnth. lia.
Qed.


(** ** Round-robin selection *)

Lemma register_rounds_select (pool : list pyval) (fuel self : nat) (i0 : Z) :
  pool <> [] ->
  Forall (fun a => is_dict a = true) pool ->
  (List.length pool < 100 * fuel)%nat ->
  forall (n s : nat) (w : world),
    remote w = accounts_service pool ->
    _account_index w mod Z.of_nat (List.length pool)
    = (i0 + Z.of_nat s) mod Z.of_nat (List.length pool) ->
    Forall2
      (fun k r =>
         selects pool self ((i0 + Z.of_nat k) mod Z.of_nat (List.length pool)) r)
      (seq s n) (register_rounds n fuel self w).
Proof.
  intros Hne Hdict Hfuel.
  induction n as [ | n IH]; intros s w Hr Hi; simpl; constructor.
  - assert (Hfetch :
      fst (_fetch_accounts fuel self (emit (Log info FetchingPool) w))
      = Returns pool).
    { apply (fetch_accounts_loop_pool self pool fuel pool [] 0%nat);
        [exact Hr | reflexivity | reflexivity | exact Hfuel]. }
    destruct (register_account_selects fuel self w pool Hfetch Hne Hdict)
      as (d & Hnth & Hrun).
    rewrite Hrun, Hi in *. unfold selects, selected. simpl.
    rewrite Nat.eqb_refl. simpl.
    split; [reflexivity | ].
    exists (PDict d). repeat split. exact Hnth.
  - apply IH.
    + assert (Hfetch :
        fst (_fetch_accounts fuel self (emit (Log info FetchingPool) w))
        = Returns pool).
      { apply (fetch_accounts_loop_pool self pool fuel pool [] 0%nat);
          [exact Hr | reflexivity | reflexivity | exact Hfuel]. }
      destruct (register_account_selects fuel self w pool Hfetch Hne Hdict)
        as (d & _ & Hrun).
      rewrite Hrun. unfold selected. simpl.
      pose proof (register_fetch_same_state fuel self w) as (_ & _ & _ & Hrem).
      rewrite Hrem. exact Hr.
    + assert (Hfetch :
        fst (_fetch_accounts fuel self (emit (Log info FetchingPool) w))
        = Returns pool).
      { apply (fetch_accounts_loop_pool self pool fuel pool [] 0%nat);
          [exact Hr | reflexivity | reflexivity | exact Hfuel]. }
      destruct (register_account_selects fuel self w pool Hfetch Hne Hdict)
        as (d & _ & Hrun).
      rewrite Hrun. unfold selected. simpl.
      rewrite Z.mod_mod by (destruct pool; [contradiction | simpl; lia]).
      rewrite Hi, Zplus_mod_idemp_l.
      f_equal. lia.
Qed.

(** Shifting by the stored index is one-to-one on the positions of the
    pool. *)
Lemma shifted_positions_permutation (i0 : Z) (n : nat) :
  (0 < n)%nat ->
  Permutation
    (map (fun k => Z.to_nat ((i0 + Z.of_nat k) mod Z.of_nat n)) (seq 0 n))
    (seq 0 n).
Proof.
  intros Hn.
  apply NoDup_Permutation_bis.
  - apply Injective_map_NoDup_in; [ | apply seq_NoDup].
    intros x y Hx Hy Heq.
    apply in_seq in Hx. apply in_seq in Hy.
    assert (Hz : (i0 + Z.of_nat x) mod Z.of_nat n
                 = (i0 + Z.of_nat y) mod Z.of_nat n).
    { pose proof (Z.mod_pos_bound (i0 + Z.of_nat x) (Z.of_nat n)).
      pose proof (Z.mod_pos_bound (i0 + Z.of_nat y) (Z.of_nat n)).
      lia. }
    assert (Hd : (Z.of_nat x - Z.of_nat y) mod Z.of_nat n = 0).
    { replace (Z.of_nat x - Z.of_nat y)
        with ((i0 + Z.of_nat x) - (i0 + Z.of_nat y)) by lia.
      rewrite Zminus_mod, Hz, Z.sub_diag. apply Z.mod_0_l. lia. }
    apply Z.mod_divide in Hd; [ | lia].
    destruct Hd as [c Hc].
    assert (Hbound : - Z.of_nat n < c * Z.of_nat n < Z.of_nat n) by lia.
    assert (c = 0) by nia.
    lia.
  - rewrite length_map. reflexivity.
  - intros p Hp. apply in_map_iff in Hp. destruct Hp as (k & <- & Hk).
    apply in_seq.
    pose proof (Z.mod_pos_bound (i0 + Z.of_nat k) (Z.of_nat n)). lia.
Qed.

(** C1.  On a service that keeps serving the same pool of [n >= 1]
    account objects, [n] calls of [register_account] in a row all return
    [True]; the [k]-th of them selects the account at position
    [(stored index + k) mod n], sets the instance's email and account id
    to that account's and logs that position; and these [n] positions are
    the [n] positions of the pool, each once. *)
Theorem round_robin_visits_every_account
    (pool : list pyval) (fuel self : nat) (w : world) :
  pool <> [] ->
  Forall (fun a => is_dict a = true) pool ->
  remote w = accounts_service pool ->
  (List.length pool < 100 * fuel)%nat ->
  let n := List.length pool in
  let position (k : nat) := (_account_index w + Z.of_nat k) mod Z.of_nat n in
  Forall2 (fun k r => selects pool self (position k) r)
    (seq 0 n) (register_rounds n fuel self w) /\
  Permutation (map (fun k => Z.to_nat (position k)) (seq 0 n)) (seq 0 n).
Proof.
  intros Hne Hdict Hr Hfuel n position. split.
  - apply register_rounds_select; try assumption.
    f_equal. simpl. lia.
  - apply shifted_positions_permutation.
    subst n. destruct pool; [contradiction | simpl; lia].
Qed.

(** ** Scanning the inbox *)

Section Scanning.

Variable extract_verification_code : string -> option string.
Variable extract_nontext : pyval -> result (option string).
Variable fromisoformat_local : string -> option Z.
Variable list_lt : list pyval -> list pyval -> result bool.
Variable sleep_refusal : Z -> option exn.
Variable int_max_str_digits : Z.

Local Abbreviation scan' :=
  (scan extract_verification_code extract_nontext fromisoformat_local).
Local Abbreviation fetch :=
  (fetch_verification_code extract_verification_code extract_nontext
     fromisoformat_local list_lt).
Local Abbreviation loop :=
  (poll_loop extract_verification_code extract_nontext fromisoformat_local
     list_lt sleep_refusal int_max_str_digits).
Local Abbreviation poll :=
  (poll_for_code extract_verification_code extract_nontext
     fromisoformat_local list_lt sleep_refusal int_max_str_digits).
Local Abbreviation sleeps := (time_sleep sleep_refusal).
Local Abbreviation formats := (format_ints int_max_str_digits).

(** C5.  On an instance whose email is [None] (or empty),
    [fetch_verification_code] returns [None] whatever [since_time], the
    cache, the index, the other instances and the service are: it logs
    one error line and does nothing else, in particular it sends no
    request. *)
Theorem fetch_verification_code_without_email
    (self : nat) (since_time : option Z) (w : world) :
  Py.truthy (email (objects w self)) = false ->
  fetch self since_time w = (Returns None, emit (Log error EmailUnset) w).
Proof.
  intros H. unfold fetch_verification_code, bind, read_self,
    get_world, ret.
  simpl. rewrite H. reflexivity.
Qed.

Lemma total_scan (since_time : option Z) (emails : list pyval) :
  forall idx skipped, total (scan' since_time emails idx skipped).
Proof.
  induction emails as [ | msg rest IH]; intros idx skipped; simpl.
  - repeat method_step.
  - apply total_bind; [apply total_lift | intros old].
    destruct old; [apply IH | ].
    repeat first [ apply IH | method_step ].
Qed.

(** Nothing escapes [fetch_verification_code]: it returns in every
    world. *)
Lemma safe_fetch (self : nat) (since_time : option Z) :
  safe (fetch self since_time).
Proof.
  unfold fetch_verification_code.
  apply safe_bind; [auto with methods | intros o].
  destruct (negb (Py.truthy (email o))); [repeat method_step | ].
  apply safe_try_except.
  - unfold fetch_verification_code_try.
    apply total_bind; [auto with methods | intros _].
    apply total_bind; [apply safe_total, safe_list_emails | intros emails].
    destruct (negb (Py.truthy (PList emails))); [repeat method_step | ].
    repeat first [ apply total_scan | method_step ].
  - intros e. repeat method_step.
Qed.

(** *** What a scan writes in the trace *)

Lemma quiet_request (self : nat) (method : string) (u : url) :
  keeps same_steps (_request self method u).
Proof.
  unfold _request, requests_request, _log, read_self.
  repeat keeps_step same_steps same_steps_refl same_steps_trans.
Qed.

Lemma quiet_list_emails (self : nat) (address : pyval) :
  keeps same_steps (_list_emails self address).
Proof.
  unfold _list_emails, _list_emails_try, _log, read_self.
  repeat first [ apply quiet_request
               | keeps_step same_steps same_steps_refl same_steps_trans ].
Qed.

Lemma preserves_list_emails (self : nat) (address : pyval) :
  preserves (_list_emails self address).
Proof.
  unfold _list_emails, _list_emails_try, _log, read_self.
  repeat first [ apply preserves_request | preserves_step ].
Qed.

Lemma preserves_scan (since_time : option Z) (emails : list pyval) :
  forall idx skipped, preserves (scan' since_time emails idx skipped).
Proof.
  induction emails as [ | msg rest IH]; intros idx skipped; simpl;
    unfold _log.
  - repeat preserves_step.
  - apply (keeps_bind same_state same_state_trans);
      [preserves_step | intros old].
    destruct old; [apply IH | ].
    repeat first [ apply IH | preserves_step ].
Qed.

Lemma preserves_fetch (self : nat) (since_time : option Z) :
  preserves (fetch self since_time).
Proof.
  unfold fetch_verification_code, fetch_verification_code_try,
    _log, read_self.
  repeat first [ apply preserves_scan | apply preserves_list_emails
               | preserves_step ].
Qed.

(** The loop of the scan logs a code exactly when it returns one, and
    the code it returns is not empty. *)
Lemma scan_found_or_quiet (since_time : option Z) (emails : list pyval) :
  forall idx skipped w,
    found_or_quiet w (scan' since_time emails idx skipped w).
Proof.
  induction emails as [ | msg rest IH]; intros idx skipped w; simpl.
  - unfold found_or_quiet, bind, _log, modify, ret.
    destruct (negb (skipped =? 0)); reflexivity.
  - unfold bind, lift, _log, modify, ret.
    destruct (too_old fromisoformat_local since_time msg) as [old | e];
      [ | reflexivity].
    destruct old; [apply IH | ].
    destruct (Py.get msg "subject") as [s | e]; [ | reflexivity].
    destruct (Py.slice_to 50 (Py.or_ s (PStr ""))) as [shown | e];
      [ | reflexivity].
    destruct (Py.get msg "body") as [b | e]; [ | reflexivity].
    destruct (Py.get msg "body_preview") as [p | e]; [ | reflexivity].
    destruct (Py.add (Py.or_ b (PStr "")) (Py.or_ p (PStr "")))
      as [content | e]; [ | reflexivity].
    destruct (extract extract_verification_code extract_nontext content)
      as [code | e]; [ | reflexivity].
    destruct (nonempty code) eqn:Hcode.
    + destruct code as [c | ]; [ | discriminate].
      split; [exact Hcode | reflexivity].
    + apply (IH (idx + 1) skipped
               (emit (Log info (CheckingEmail idx shown)) w)).
Qed.

(** A call of [fetch_verification_code] on an instance that has an
    email returns; it leaves one [Fetch] step, followed by a [Found]
    step exactly when it returns a code; that code is not empty. *)
Lemma fetch_steps (self : nat) (since_time : option Z) (w : world) :
  Py.truthy (email (objects w self)) = true ->
  exists code w',
    fetch self since_time w = (Returns code, w') /\
    same_state w w' /\
    steps (trace w')
    = match code with Some c => [Found c] | None => [] end
      ++ Fetch :: steps (trace w) /\
    (code <> None -> nonempty code = true).
Proof.
  intros Hemail.
  pose proof (preserves_fetch self since_time w) as Hsame.
  destruct (fetch self since_time w) as [r w'] eqn:E.
  simpl in Hsame.
  unfold fetch_verification_code, bind, read_self, get_world, ret
    in E.
  simpl in E. rewrite Hemail in E. simpl in E.
  unfold try_except, fetch_verification_code_try, bind, _log, modify, ret
    in E.
  set (w0 := emit (Log info (PullingEmails (email (objects w self)))) w)
    in E.
  pose proof (quiet_list_emails self (email (objects w self)) w0) as Hq.
  destruct (safe_list_emails self (email (objects w self)) w0)
    as [emails Hemails].
  destruct (_list_emails self (email (objects w self)) w0) as [r1 w1].
  simpl in Hemails, Hq. subst r1.
  unfold same_steps in Hq. simpl in Hq.
  destruct emails as [ | m emails]; simpl in E.
  - injection E as <- <-. exists None. eexists.
    refine (conj eq_refl (conj Hsame (conj _ _)));
      [simpl; exact Hq | congruence].
  - unfold lift in E.
    destruct (sorted_newest_first list_lt (m :: emails)) as [sorted | e].
    + pose proof (scan_found_or_quiet since_time sorted 1 0
                    (emit (Log info
                             (EmailsReceived (Z.of_nat (List.length sorted))))
                       w1)) as Hscan.
      destruct (scan extract_verification_code extract_nontext
                  fromisoformat_local since_time sorted 1 0 _)
        as [r2 w2].
      unfold found_or_quiet in Hscan. simpl in Hscan.
      destruct r2 as [[c | ] | e | ]; try contradiction.
      * destruct Hscan as [Hc Hst]. injection E as <- <-.
        exists (Some c). eexists.
        refine (conj eq_refl (conj Hsame (conj _ _)));
          [simpl; rewrite Hst, Hq; reflexivity | ].
        intros _. exact Hc.
      * injection E as <- <-. exists None. eexists.
        refine (conj eq_refl (conj Hsame (conj _ _)));
          [simpl; rewrite Hscan; exact Hq | congruence].
      * injection E as <- <-. exists None. eexists.
        refine (conj eq_refl (conj Hsame (conj _ _)));
          [simpl; rewrite Hscan; exact Hq | congruence].
    + injection E as <- <-. exists None. eexists.
      refine (conj eq_refl (conj Hsame (conj _ _)));
        [simpl; exact Hq | congruence].
Qed.

(** *** Polling *)

(** A number formats when a number at least as large does. *)
Lemma str_int_below (n m : Z) :
  Z.abs n <= Z.abs m ->
  str_int int_max_str_digits m = Ok tt ->
  str_int int_max_str_digits n = Ok tt.
Proof.
  unfold str_int. intros Hle.
  destruct (0 <? int_max_str_digits); simpl; [ | reflexivity].
  destruct (10 ^ int_max_str_digits <=? Z.abs m) eqn:Hm; [discriminate | ].
  intros _. apply Z.leb_gt in Hm.
  destruct (10 ^ int_max_str_digits <=? Z.abs n) eqn:Hn; [ | reflexivity].
  apply Z.leb_le in Hn. lia.
Qed.

Lemma str_int_one : str_int int_max_str_digits 1 = Ok tt.
Proof.
  unfold str_int.
  destruct (0 <? int_max_str_digits) eqn:Hd; simpl; [ | reflexivity].
  apply Z.ltb_lt in Hd.
  assert (H : 10 ^ 1 <= 10 ^ int_max_str_digits)
    by (apply Z.pow_le_mono_r; lia).
  change (10 ^ 1) with 10 in H.
  destruct (10 ^ int_max_str_digits <=? 1) eqn:H1; [ | reflexivity].
  apply Z.leb_le in H1. lia.
Qed.

(** [timeout // interval], when it is above 1, is not larger than
    [timeout]. *)
Lemma floordiv_below (timeout interval : Z) :
  interval <> 0 -> 1 < timeout / interval ->
  timeout / interval <= Z.abs timeout.
Proof.
  intros Hnz Hq.
  pose proof (Z.div_mod timeout interval Hnz) as Hdm.
  destruct (Z_lt_ge_dec 0 interval) as [Hpos | Hneg].
  - pose proof (Z.mod_pos_bound timeout interval Hpos). nia.
  - assert (Hlt : interval < 0) by lia.
    pose proof (Z.mod_neg_bound timeout interval Hlt). nia.
Qed.

Lemma str_int_max_retries (timeout interval : Z) :
  interval <> 0 ->
  str_int int_max_str_digits timeout = Ok tt ->
  str_int int_max_str_digits (Z.max 1 (timeout / interval)) = Ok tt.
Proof.
  intros Hnz Ht.
  destruct (Z.max_spec 1 (timeout / interval)) as [[Hlt ->] | [_ ->]];
    [ | apply str_int_one].
  apply (str_int_below _ timeout); [ | exact Ht].
  pose proof (floordiv_below timeout interval Hnz Hlt). lia.
Qed.

Lemma format_ints_ok (ns : list Z) :
  formats ns = Ok tt <->
  Forall (fun n => str_int int_max_str_digits n = Ok tt) ns.
Proof.
  induction ns as [ | n ns IH]; simpl.
  - split; [constructor | reflexivity].
  - destruct (str_int int_max_str_digits n) as [[] | e] eqn:Hn; simpl.
    + rewrite IH. split; [now constructor | ].
      intros H. now inversion H.
    + split; [discriminate | ].
      intros H. inversion H; subst. congruence.
Qed.


(** The loop of the poll once its values of [i] are used up. *)
Lemma poll_loop_end (self : nat) (since_time : option Z)
    (timeout interval max_retries i : Z) (w : world) :
  loop self since_time timeout interval max_retries O i w
  = match formats [timeout] with
    | Ok _ => (Returns None, emit (Log error (PollTimeout timeout)) w)
    | Raise e => (Raises e, w)
    end.
Proof.
  cbn [poll_loop]. unfold bind, lift, _log, modify, ret.
  destruct (formats [timeout]); reflexivity.
Qed.

(** One turn of the loop of the poll. *)
Lemma poll_loop_step (self : nat) (since_time : option Z)
    (timeout interval max_retries : Z) (remaining : nat) (i : Z) (w : world) :
  loop self since_time timeout interval max_retries (S remaining) i w
  = match formats [i; max_retries] with
    | Raise e => (Raises e, w)
    | Ok _ =>
        match
          fetch self since_time (emit (Log info (PollAttempt i max_retries)) w)
        with
        | (Returns code, w1) =>
            if nonempty code then
              (Returns code,
               emit (Log info (PollSuccess
                                 (match code with Some c => c | None => "" end)))
                 w1)
            else if i <? max_retries then
              match sleeps interval with
              | Ok _ =>
                  loop self since_time timeout interval max_retries remaining
                    (i + 1) (emit (Slept interval) w1)
              | Raise e => (Raises e, w1)
              end
            else
              loop self since_time timeout interval max_retries remaining
                (i + 1) w1
        | (Raises e, w1) => (Raises e, w1)
        | (OutOfFuel, w1) => (OutOfFuel, w1)
        end
    end.
Proof.
  cbn [poll_loop]. unfold bind at 1, lift at 1.
  destruct (formats [i; max_retries]); [ | reflexivity].
  unfold bind at 1, _log at 1, modify at 1. unfold bind at 1.
  destruct (fetch self since_time _) as [[code | e | ] w1]; try reflexivity.
  destruct (nonempty code).
  - unfold bind, _log, modify, ret. reflexivity.
  - unfold bind at 1. destruct (i <? max_retries).
    + unfold sleep, bind, lift, modify.
      destruct (sleeps interval); reflexivity.
    + reflexivity.
Qed.

(** [poll_for_code] up to its loop. *)
Lemma poll_for_code_run (self : nat) (timeout interval : Z)
    (since_time : option Z) (w : world) :
  poll self timeout interval since_time w =
  if Py.truthy (email (objects w self)) then
    if interval =? 0 then (Raises ZeroDivisionError, w)
    else
      let max_retries := Z.max 1 (timeout / interval) in
      match formats [timeout; interval; max_retries] with
      | Raise e => (Raises e, w)
      | Ok _ =>
          loop self since_time timeout interval max_retries
            (Z.to_nat max_retries) 1
            (emit (Log info (PollStart timeout interval max_retries)) w)
      end
  else (Returns None, emit (Log error EmailUnset) w).
Proof.
  unfold poll_for_code. unfold bind at 1, read_self, bind at 1, get_world, ret.
  destruct (Py.truthy (email (objects w self))); cbn [negb];
    [ | reflexivity].
  unfold bind at 1, lift at 1, Py.floordiv.
  destruct (interval =? 0); [reflexivity | ].
  cbv zeta. unfold bind at 1, lift at 1.
  destruct (formats [timeout; interval; Z.max 1 (timeout / interval)]);
    reflexivity.
Qed.

(** The numbers of an attempt format when [max_retries] does. *)
Lemma format_attempt (i max_retries : Z) :
  1 <= i <= max_retries ->
  str_int int_max_str_digits max_retries = Ok tt ->
  formats [i; max_retries] = Ok tt.
Proof.
  intros Hi Hmax. apply format_ints_ok.
  repeat constructor; [ | exact Hmax].
  apply (str_int_below _ max_retries); [lia | exact Hmax].
Qed.

(** The loop of the poll, entered with [S r] values of [i] to go, the
    last of which is [max_retries], when the numbers format and the
    sleeps that are due are accepted. *)
Lemma poll_loop_schedule (self : nat) (since_time : option Z)
    (timeout interval max_retries : Z) :
  str_int int_max_str_digits timeout = Ok tt ->
  str_int int_max_str_digits max_retries = Ok tt ->
  (2 <= max_retries -> sleeps interval = Ok tt) ->
  forall (r : nat) (i : Z) (w : world),
    1 <= i ->
    Z.of_nat (S r) + i = max_retries + 1 ->
    Py.truthy (email (objects w self)) = true ->
    exists code w1 k,
      loop self since_time timeout interval max_retries (S r) i w
      = (Returns code, emit (closing_line timeout code) w1) /\
      attempts (fetch self since_time) interval max_retries k i w code w1 /\
      (1 <= k <= S r)%nat /\
      steps (trace w1)
      = rev (schedule interval max_retries k i code) ++ steps (trace w) /\
      (code = None -> k = S r) /\
      (code <> None -> nonempty code = true).
Proof.
  intros Htimeout Hmax Hsleep.
  assert (Hend : formats [timeout] = Ok tt)
    by (apply format_ints_ok; repeat constructor; exact Htimeout).
  induction r as [ | r IH]; intros i w Hi Hlast Hemail;
    rewrite poll_loop_step, format_attempt by (lia || exact Hmax);
    destruct (fetch_steps self since_time
                (emit (Log info (PollAttempt i max_retries)) w) Hemail)
      as (code & w1 & Hfetch & Hsame & Hsteps & Hcode);
    rewrite Hfetch; simpl in Hsteps;
    (destruct (nonempty code) eqn:Hne;
     [ destruct code as [c | ]; [ | discriminate];
       exists (Some c), w1, 1%nat;
       refine (conj eq_refl (conj _ (conj _ (conj _ (conj _ _)))));
       [ apply attempts_last; exact Hfetch | lia
       | simpl; rewrite Hsteps; reflexivity | discriminate
       | intros _; exact Hne ]
     | ]);
    (assert (Hnone : code = None)
       by (destruct code as [c | ]; [ | reflexivity];
           assert (Hc : false = true) by (apply Hcode; discriminate);
           discriminate));
    subst code; simpl in Hsteps.
  - assert (Hi' : (i <? max_retries) = false) by (apply Z.ltb_ge; lia).
    rewrite Hi', poll_loop_end, Hend.
    exists None, w1, 1%nat.
    refine (conj eq_refl (conj _ (conj _ (conj _ (conj _ _))))).
    + apply attempts_last. exact Hfetch.
    + lia.
    + simpl. rewrite Hsteps. reflexivity.
    + reflexivity.
    + congruence.
  - assert (Hi' : (i <? max_retries) = true) by (apply Z.ltb_lt; lia).
    rewrite Hi', Hsleep by lia.
    destruct (IH (i + 1) (emit (Slept interval) w1)) as
      (code & w' & k & Hrun & Hatt & Hk & Hst & Hall & Hfound).
    + lia.
    + lia.
    + destruct Hsame as (_ & _ & Hobj & _). simpl in Hobj |- *.
      rewrite Hobj. exact Hemail.
    + exists code, w', (S k).
      refine (conj Hrun (conj _ (conj _ (conj _ (conj _ Hfound))))).
      * apply (attempts_next _ _ _ _ _ _ w1); assumption.
      * lia.
      * rewrite Hst. simpl steps. rewrite Hsteps.
        destruct k as [ | k]; [lia | ].
        change (schedule interval max_retries (S (S k)) i code)
          with (Attempt i max_retries :: Fetch :: Sleep interval
                :: schedule interval max_retries (S k) (i + 1) code).
        simpl rev. repeat rewrite <- app_assoc. reflexivity.
      * intros Hc. rewrite (Hall Hc). reflexivity.
Qed.

(** A poll on an instance with an email, called with arguments that the
    platform takes. *)
Lemma poll_for_code_attempts (self : nat) (timeout interval : Z)
    (since_time : option Z) (w : world) :
  interval <> 0 ->
  formats [timeout; interval] = Ok tt ->
  (2 <= timeout / interval -> sleeps interval = Ok tt) ->
  Py.truthy (email (objects w self)) = true ->
  let max_retries := Z.max 1 (timeout / interval) in
  exists code w1 k,
    poll self timeout interval since_time w
    = (Returns code, emit (closing_line timeout code) w1) /\
    attempts (fetch self since_time) interval max_retries k 1
      (emit (Log info (PollStart timeout interval max_retries)) w) code w1 /\
    (1 <= k <= Z.to_nat max_retries)%nat /\
    steps (trace w1)
    = rev (schedule interval max_retries k 1 code) ++ steps (trace w) /\
    (code = None -> k = Z.to_nat max_retries) /\
    (code <> None -> nonempty code = true).
Proof.
  intros Hnz Hfmt Hsleep Hemail max_retries.
  apply format_ints_ok in Hfmt.
  inversion Hfmt as [ | ? ? Htimeout Hrest]; subst.
  inversion Hrest as [ | ? ? Hinterval _]; subst.
  assert (Hmax : str_int int_max_str_digits max_retries = Ok tt)
    by (apply str_int_max_retries; assumption).
  assert (Hstart : formats [timeout; interval; max_retries] = Ok tt)
    by (apply format_ints_ok; repeat constructor; assumption).
  rewrite poll_for_code_run, Hemail. cbv zeta. fold max_retries.
  apply Z.eqb_neq in Hnz. rewrite Hnz, Hstart.
  assert (Hone : 1 <= max_retries) by (unfold max_retries; lia).
  destruct (Z.to_nat max_retries) as [ | r] eqn:Hr; [lia | ].
  destruct (poll_loop_schedule self since_time timeout interval max_retries
              Htimeout Hmax) with (r := r) (i := 1)
              (w := emit (Log info (PollStart timeout interval max_retries)) w)
    as (code & w1 & k & Hrun & Hatt & Hk & Hst & Hall & Hfound);
    [unfold max_retries; intros; apply Hsleep; lia | lia | lia | exact Hemail
    | ].
  exists code, w1, k.
  refine (conj Hrun (conj Hatt (conj Hk (conj Hst (conj Hall Hfound))))).
Qed.

(** C6, as the code has it.  Called with an interval that is not zero,
    with numbers that can be written in decimal and, when two attempts
    or more are due, with an interval that [time.sleep] accepts,
    [poll_for_code] returns, and it goes through [k] attempts, [k] being
    at most [max_retries = max(1, timeout // interval)]: each attempt is
    announced and is one call of [fetch_verification_code]; a sleep of
    [interval] follows every attempt that finds no code except the last
    possible one; the first attempt that finds a code ends the poll with
    that code, no sleep following.  On an instance with an email there
    is at least one attempt, and the poll ends without a code only
    after all [max_retries] attempts ([max_retries - 1] sleeps);
    without an email it returns [None] at once.  For [timeout = 10] and
    [interval = 5], [max_retries] is 2: two failed attempts are
    separated by the single sleep of 5 and followed by none. *)
Theorem poll_for_code_schedule (self : nat) (timeout interval : Z)
    (since_time : option Z) (w : world) :
  interval <> 0 ->
  formats [timeout; interval] = Ok tt ->
  (2 <= timeout / interval -> sleeps interval = Ok tt) ->
  let max_retries := Z.max 1 (timeout / interval) in
  exists code w' k,
    poll self timeout interval since_time w = (Returns code, w') /\
    (k <= Z.to_nat max_retries)%nat /\
    history w' = history w ++ schedule interval max_retries k 1 code /\
    (code <> None -> nonempty code = true) /\
    (Py.truthy (email (objects w self)) = true ->
     (1 <= k)%nat /\
     (code = None -> k = Z.to_nat max_retries) /\
     exists w1,
       attempts (fetch self since_time) interval max_retries k 1
         (emit (Log info (PollStart timeout interval max_retries)) w)
         code w1 /\
       w' = emit (closing_line timeout code) w1) /\
    (Py.truthy (email (objects w self)) = false -> code = None /\ k = 0%nat).
Proof.
  intros Hnz Hfmt Hsleep max_retries.
  destruct (Py.truthy (email (objects w self))) eqn:Hemail.
  - destruct (poll_for_code_attempts self timeout interval since_time w
                Hnz Hfmt Hsleep Hemail)
      as (code & w1 & k & Hrun & Hatt & Hk & Hst & Hall & Hfound).
    fold max_retries in Hrun, Hatt, Hk, Hst, Hall.
    exists code, (emit (closing_line timeout code) w1), k.
    refine (conj Hrun (conj _ (conj _ (conj Hfound (conj _ _))))).
    + lia.
    + unfold history.
      assert (Hline : steps (trace (emit (closing_line timeout code) w1))
                      = steps (trace w1)) by (destruct code; reflexivity).
      rewrite Hline, Hst, rev_app_distr, rev_involutive. reflexivity.
    + intros _. refine (conj _ (conj Hall _)); [lia | ].
      exists w1. split; [exact Hatt | reflexivity].
    + discriminate.
  - rewrite poll_for_code_run, Hemail.
    exists None, (emit (Log error EmailUnset) w), 0%nat.
    refine (conj eq_refl (conj _ (conj _ (conj _ (conj _ _))))).
    + lia.
    + unfold history. simpl. now rewrite app_nil_r.
    + congruence.
    + discriminate.
    + intros _. split; reflexivity.
Qed.

(** *** The order of the scan *)

Lemma or_text (v : pyval) :
  Spec.text_or_falsy v = true ->
  Py.or_ v (PStr "") = PStr (match v with PStr s => s | _ => "" end).
Proof.
  intros H. unfold Py.or_.
  destruct v as [ | b | n | s | l | d]; simpl in *;
    try (apply negb_true_iff in H; rewrite H; reflexivity);
    try reflexivity.
  destruct (String.eqb s "") eqn:E; simpl; [ | reflexivity].
  apply String.eqb_eq in E. now subst.
Qed.

(** The key of a well-formed message is its timestamp, as text. *)
Lemma sort_key_text (m : pyval) :
  Spec.message_ok m = true ->
  sort_key m = Ok (PStr (Spec.received_time m)).
Proof.
  destruct m as [ | | | | | d]; try discriminate.
  unfold Spec.message_ok. intros H.
  repeat (apply andb_true_iff in H; destruct H as [H ?]).
  unfold sort_key, Py.get, and_then.
  fold (Spec.lookup d "received_time").
  rewrite (or_text _ H). reflexivity.
Qed.

Lemma map_sort_key (l : list pyval) :
  Forall (fun m => Spec.message_ok m = true) l ->
  map_result sort_key l = Ok (map (fun m => PStr (Spec.received_time m)) l).
Proof.
  induction 1 as [ | m l Hm _ IH]; simpl; [reflexivity | ].
  rewrite (sort_key_text m Hm). simpl. rewrite IH. reflexivity.
Qed.

Lemma combine_map_self {A B} (f : A -> B) (l : list A) :
  combine (map f l) l = map (fun x => (f x, x)) l.
Proof. induction l as [ | x l IH]; simpl; [ | rewrite IH]; reflexivity. Qed.

Lemma string_leb_trans (a b c : string) :
  String.leb a b = true -> String.leb b c = true -> String.leb a c = true.
Proof.
  unfold String.leb.
  revert b c. induction a as [ | x a IH]; intros [ | y b] [ | z c];
    simpl; try congruence.
  unfold Ascii.compare.
  destruct (N.compare_spec (N_of_ascii x) (N_of_ascii y));
    destruct (N.compare_spec (N_of_ascii y) (N_of_ascii z));
    destruct (N.compare_spec (N_of_ascii x) (N_of_ascii z));
    try congruence; try lia.
  apply IH.
Qed.

Lemma string_ltb_leb (a b : string) :
  String.ltb a b = true -> String.leb a b = true.
Proof.
  unfold String.ltb, String.leb.
  destruct (String.compare a b); simpl; auto.
Qed.

Lemma string_not_ltb_leb (a b : string) :
  String.ltb a b = false -> String.leb b a = true.
Proof.
  unfold String.ltb, String.leb. rewrite (String.compare_antisym b a).
  destruct (String.compare a b); simpl; intros H;
    first [reflexivity | discriminate H].
Qed.

Lemma insert_desc_sorted (kx : pyval * pyval) :
  keyed kx ->
  forall l,
    Forall keyed l ->
    StronglySorted not_newer l ->
    exists r,
      insert_desc list_lt kx l = Ok r /\
      Permutation (kx :: l) r /\
      Forall keyed r /\
      StronglySorted not_newer r.
Proof.
  intros Hkx.
  induction l as [ | ky l IH]; intros Hkeys Hsorted; simpl.
  - exists [kx]. repeat split; auto. repeat constructor.
  - inversion Hkeys as [ | ? ? Hky Hkl]; subst.
    apply StronglySorted_inv in Hsorted. destruct Hsorted as [Hl Hall].
    unfold keyed in Hkx, Hky. rewrite Hkx, Hky. simpl.
    destruct (String.ltb (Spec.received_time (snd kx))
                (Spec.received_time (snd ky))) eqn:Hlt.
    + destruct (IH Hkl Hl) as (r & Hr & Hperm & Hkr & Hsr).
      rewrite Hr. simpl. exists (ky :: r).
      split; [reflexivity | ]. split; [ | split].
      * rewrite perm_swap. now apply perm_skip.
      * constructor; assumption.
      * constructor; [assumption | ].
        apply (Permutation_Forall Hperm).
        constructor; [ | assumption].
        unfold not_newer. now apply string_ltb_leb.
    + exists (kx :: ky :: l).
      split; [reflexivity | ]. split; [reflexivity | split].
      * constructor; [exact Hkx | assumption].
      * constructor; [now constructor | ].
        assert (Hxy : not_newer kx ky)
          by (unfold not_newer; now apply string_not_ltb_leb).
        constructor; [exact Hxy | ].
        eapply Forall_impl; [ | exact Hall].
        intros z Hz. unfold not_newer in *.
        eapply string_leb_trans; eassumption.
Qed.

Lemma sort_desc_sorted (l : list (pyval * pyval)) :
  Forall keyed l ->
  exists r,
    sort_desc list_lt l = Ok r /\
    Permutation l r /\
    Forall keyed r /\
    StronglySorted not_newer r.
Proof.
  induction 1 as [ | kx l Hkx _ IH]; simpl.
  - exists []. repeat split; constructor.
  - destruct IH as (r & Hr & Hperm & Hkr & Hsr).
    rewrite Hr. simpl.
    destruct (insert_desc_sorted kx Hkx r Hkr Hsr)
      as (r' & Hr' & Hperm' & Hkr' & Hsr').
    exists r'. repeat split; try assumption.
    rewrite <- Hperm'. now apply perm_skip.
Qed.

(** On well-formed messages [sorted] returns a rearrangement of the
    inbox in which no message is followed by a newer one. *)
Lemma sorted_newest_first_ok (emails : list pyval) :
  Forall (fun m => Spec.message_ok m = true) emails ->
  exists sorted,
    sorted_newest_first list_lt emails = Ok sorted /\
    Permutation emails sorted /\
    Spec.newest_first sorted.
Proof.
  intros Hok. unfold sorted_newest_first.
  rewrite (map_sort_key emails Hok). simpl.
  rewrite combine_map_self.
  destruct (sort_desc_sorted
              (map (fun m => (PStr (Spec.received_time m), m)) emails))
    as (r & Hr & Hperm & _ & Hsr).
  { apply Forall_map. apply Forall_forall. intros m _. reflexivity. }
  rewrite Hr. simpl. exists (map snd r).
  split; [reflexivity | ]. split.
  - apply (Permutation_map snd) in Hperm.
    rewrite map_map, map_id in Hperm. exact Hperm.
  - unfold Spec.newest_first. clear -Hsr.
    induction Hsr as [ | a l _ IH Hall]; simpl; constructor;
      [exact IH | ].
    apply Forall_map. exact Hall.
Qed.

(** *** The time filter and the result of the scan *)

(** On an object the filter never raises: it skips the message exactly
    when its timestamp parses to a time before [since]. *)
Lemma too_old_run (since_time : option Z) (d : list (string * pyval)) :
  too_old fromisoformat_local since_time (PDict d)
  = Ok match since_time with
       | Some since => Spec.earlier_than fromisoformat_local since (PDict d)
       | None => false
       end.
Proof.
  destruct since_time as [since | ]; [ | reflexivity].
  unfold too_old, Spec.earlier_than, Spec.received_time, Spec.text,
    Py.get, and_then.
  fold (Spec.lookup d "received_time").
  destruct (Spec.lookup d "received_time") as [ | b | n | s | l | e];
    simpl.
  - destruct (fromisoformat_local ""); reflexivity.
  - destruct b; destruct (fromisoformat_local ""); reflexivity.
  - destruct (negb (n =? 0)); destruct (fromisoformat_local "");
      reflexivity.
  - destruct (String.eqb s ""); simpl;
      destruct (fromisoformat_local (Py.replace_Z s)); reflexivity.
  - destruct l; destruct (fromisoformat_local ""); reflexivity.
  - destruct e; destruct (fromisoformat_local ""); reflexivity.
Qed.

(** On well-formed messages the loop returns the first code of the
    messages that the filter keeps, in the order of the list. *)
Lemma scan_first_code (since_time : option Z) (emails : list pyval) :
  Forall (fun m => Spec.message_ok m = true) emails ->
  forall idx skipped w,
    fst (scan' since_time emails idx skipped w)
    = Returns (Spec.first_code extract_verification_code
                 (Spec.kept fromisoformat_local since_time emails)).
Proof.
  induction 1 as [ | m rest Hm _ IH]; intros idx skipped w.
  - simpl. unfold bind, _log, modify, ret.
    destruct since_time; destruct (negb (skipped =? 0)); reflexivity.
  - destruct m as [ | | | | | d]; try discriminate.
    assert (Hfields := Hm). unfold Spec.message_ok in Hfields.
    apply andb_true_iff in Hfields. destruct Hfields as [Hfields Hpreview].
    apply andb_true_iff in Hfields. destruct Hfields as [Hfields Hbody].
    apply andb_true_iff in Hfields. destruct Hfields as [_ Hsubject].
    simpl scan.
    unfold bind at 1. unfold lift at 1.
    rewrite too_old_run.
    assert (Hkeep :
      fst ((s <- lift (Py.get (PDict d) "subject") ;;
            shown <- lift (Py.slice_to 50 (Py.or_ s (PStr ""))) ;;
            _log info (CheckingEmail idx shown) ;;
            b <- lift (Py.get (PDict d) "body") ;;
            p <- lift (Py.get (PDict d) "body_preview") ;;
            content <- lift (Py.add (Py.or_ b (PStr ""))
                               (Py.or_ p (PStr ""))) ;;
            code <- lift (extract extract_verification_code
                            extract_nontext content) ;;
            if nonempty code then
              _log info (CodeFound (match code with
                                    | Some c => c | None => "" end)) ;;
              ret code
            else scan' since_time rest (idx + 1) skipped) w)
      = Returns (match Spec.code_of extract_verification_code (PDict d) with
                 | Some c => Some c
                 | None =>
                     Spec.first_code extract_verification_code
                       (Spec.kept fromisoformat_local since_time rest)
                 end)).
    { unfold bind, lift, _log, modify, ret, Py.get.
      fold (Spec.lookup d "subject") (Spec.lookup d "body")
        (Spec.lookup d "body_preview").
      rewrite (or_text _ Hsubject), (or_text _ Hbody), (or_text _ Hpreview).
      simpl.
      unfold Spec.code_of, Spec.body_text, Spec.text.
      destruct (extract_verification_code _) as [c | ]; simpl.
      - destruct (String.eqb c "") eqn:E; simpl; [apply IH | reflexivity].
      - apply IH. }
    destruct since_time as [since | ]; simpl Spec.kept.
    + destruct (Spec.earlier_than fromisoformat_local since (PDict d));
        simpl.
      * apply IH.
      * exact Hkeep.
    + exact Hkeep.
Qed.

(** A healthy answer of the inbox endpoint is handed over as it is. *)
Lemma list_emails_healthy (self : nat) (address : pyval) (w : world)
    (d : list (string * pyval)) (emails : list pyval) :
  remote w (requests_sent w)
    (request_of (objects w self) "GET"
       (InboxUrl (base_url (objects w self)) address))
  = Answer {| status_code := 200; res_content := Json (PDict d) |} ->
  Py.truthy (Spec.lookup d "success") = true ->
  Spec.lookup d "emails" = PList emails ->
  fst (_list_emails self address w) = Returns emails.
Proof.
  intros Hans Hsuccess Hemails.
  unfold _list_emails, _list_emails_try, try_except.
  run_request Hans. unfold Py.get.
  fold (Spec.lookup d "success") (Spec.lookup d "emails").
  rewrite Hsuccess, Hemails. simpl.
  unfold Py.or_. destruct emails; reflexivity.
Qed.

Lemma sorted_tail_below {A} (R : A -> A -> Prop) (before after : list A)
    (m : A) :
  StronglySorted R (before ++ m :: after) -> Forall (R m) after.
Proof.
  induction before as [ | x before IH]; simpl; intros H;
    apply StronglySorted_inv in H; destruct H as [Hs Hall];
    [exact Hall | exact (IH Hs)].
Qed.

Lemma string_leb_empty (s : string) : String.leb s "" = true -> s = "".
Proof. destruct s; [reflexivity | discriminate]. Qed.

(** What [fetch_verification_code] returns on a healthy inbox of
    well-formed messages. *)
Lemma fetch_on_inbox (self : nat) (since_time : option Z) (w : world)
    (d : list (string * pyval)) (emails sorted : list pyval) :
  Py.truthy (email (objects w self)) = true ->
  remote w (requests_sent w)
    (request_of (objects w self) "GET"
       (InboxUrl (base_url (objects w self)) (email (objects w self))))
  = Answer {| status_code := 200; res_content := Json (PDict d) |} ->
  Py.truthy (Spec.lookup d "success") = true ->
  Spec.lookup d "emails" = PList emails ->
  Forall (fun m => Spec.message_ok m = true) emails ->
  sorted_newest_first list_lt emails = Ok sorted ->
  Permutation emails sorted ->
  fst (fetch self since_time w)
  = Returns (Spec.first_code extract_verification_code
               (Spec.kept fromisoformat_local since_time sorted)).
Proof.
  intros Hemail Hans Hsuccess Hemails Hok Hsorted Hperm.
  unfold fetch_verification_code, bind, read_self, get_world, ret.
  simpl. rewrite Hemail. simpl.
  unfold try_except, fetch_verification_code_try, bind, _log, modify, ret.
  pose proof (list_emails_healthy self (email (objects w self))
                (emit (Log info (PullingEmails (email (objects w self)))) w)
                d emails Hans Hsuccess Hemails) as Hlist.
  destruct (_list_emails self (email (objects w self)) _) as [r w1].
  simpl in Hlist. subst r.
  destruct emails as [ | m emails].
  - apply Permutation_nil in Hperm. subst sorted. simpl.
    destruct since_time; reflexivity.
  - remember (m :: emails) as l eqn:Hl.
    assert (Htrue : Py.truthy (PList l) = true) by (subst l; reflexivity).
    rewrite Htrue. change (negb true) with false. cbv beta iota.
    rewrite Hsorted. unfold lift. cbv beta iota.
    assert (Hok' : Forall (fun m => Spec.message_ok m = true) sorted)
      by (apply (Permutation_Forall Hperm); exact Hok).
    pose proof (scan_first_code since_time sorted Hok' 1 0
                  (emit (Log info
                           (EmailsReceived (Z.of_nat (List.length sorted))))
                     w1)) as Hscan.
    destruct (scan extract_verification_code extract_nontext
                fromisoformat_local since_time sorted 1 0 _) as [r2 w2].
    simpl in Hscan. subst r2. reflexivity.
Qed.

(** C3.  On an instance with an email whose inbox endpoint answers with
    well-formed messages, [fetch_verification_code] sorts the messages
    so that none is followed by one with a greater [received_time], the
    timestamps being compared as strings and a missing one counting as
    the empty string, so that only messages without a timestamp can
    follow a message without one; it returns the first non-empty code
    extracted from body followed by preview, going through the sorted
    messages that the time filter keeps.  In particular, of two
    messages the newer of which yields no code and the older of which
    yields one, the older one's code is returned. *)
Theorem fetch_verification_code_newest_first
    (self : nat) (since_time : option Z) (w : world)
    (d : list (string * pyval)) (emails : list pyval) :
  Py.truthy (email (objects w self)) = true ->
  remote w (requests_sent w)
    (request_of (objects w self) "GET"
       (InboxUrl (base_url (objects w self)) (email (objects w self))))
  = Answer {| status_code := 200; res_content := Json (PDict d) |} ->
  Py.truthy (Spec.lookup d "success") = true ->
  Spec.lookup d "emails" = PList emails ->
  Forall (fun m => Spec.message_ok m = true) emails ->
  exists sorted,
    sorted_newest_first list_lt emails = Ok sorted /\
    Permutation emails sorted /\
    Spec.newest_first sorted /\
    (forall before m after,
        sorted = before ++ m :: after ->
        Spec.received_time m = "" ->
        Forall (fun x => Spec.received_time x = "") after) /\
    fst (fetch self since_time w)
    = Returns (Spec.first_code extract_verification_code
                 (Spec.kept fromisoformat_local since_time sorted)) /\
    (forall newer older c,
        Permutation emails [newer; older] ->
        String.ltb (Spec.received_time older) (Spec.received_time newer)
        = true ->
        Spec.code_of extract_verification_code newer = None ->
        Spec.code_of extract_verification_code older = Some c ->
        since_time = None ->
        fst (fetch self since_time w) = Returns (Some c)).
Proof.
  intros Hemail Hans Hsuccess Hemails Hok.
  destruct (sorted_newest_first_ok emails Hok)
    as (sorted & Hsorted & Hperm & Hnewest).
  pose proof (fetch_on_inbox self since_time w d emails sorted Hemail Hans
                Hsuccess Hemails Hok Hsorted Hperm) as Hfetch.
  exists sorted.
  refine (conj Hsorted (conj Hperm (conj Hnewest (conj _ (conj Hfetch _))))).
  - intros before m after -> Hm.
    apply sorted_tail_below in Hnewest.
    eapply Forall_impl; [ | exact Hnewest].
    intros x Hx. simpl in Hx. rewrite Hm in Hx.
    now apply string_leb_empty.
  - intros newer older c Htwo Hlt Hnone Hsome ->.
    rewrite Hfetch. simpl Spec.kept.
    assert (Hp : Permutation [newer; older] sorted)
      by (rewrite <- Htwo; exact Hperm).
    apply Permutation_length_2_inv in Hp. destruct Hp as [-> | ->].
    + simpl. now rewrite Hnone, Hsome.
    + exfalso. unfold Spec.newest_first in Hnewest.
      apply StronglySorted_inv in Hnewest. destruct Hnewest as [_ Hall].
      inversion Hall as [ | ? ? Hle _]; subst.
      unfold String.ltb in Hlt. unfold String.leb in Hle.
      rewrite (String.compare_antisym
                 (Spec.received_time newer) (Spec.received_time older))
        in Hle.
      destruct (String.compare (Spec.received_time older)
                  (Spec.received_time newer)); simpl in Hle;
        discriminate.
Qed.

Lemma filter_permutation {A} (f : A -> bool) (l l' : list A) :
  Permutation l l' -> Permutation (filter f l) (filter f l').
Proof.
  induction 1 as [ | x l l' _ IH | x y l | l l' l'' _ IH1 _ IH2]; simpl.
  - constructor.
  - destruct (f x); [now constructor | exact IH].
  - destruct (f x), (f y); try reflexivity. apply perm_swap.
  - now transitivity (filter f l').
Qed.

(** What the model of the filter says of a message: its timestamp is
    there and parses to a time before [since]. *)
Lemma earlier_than_parses (since : Z) (m : pyval) :
  Spec.earlier_than fromisoformat_local since m = true <->
  exists t,
    Spec.received_time m <> "" /\
    fromisoformat_local (Py.replace_Z (Spec.received_time m)) = Some t /\
    t < since.
Proof.
  unfold Spec.earlier_than.
  destruct (fromisoformat_local (Py.replace_Z (Spec.received_time m)))
    as [t | ]; split.
  - intros H. apply andb_true_iff in H. destruct H as [Hs Hlt].
    exists t. refine (conj _ (conj eq_refl _)).
    + apply negb_true_iff, String.eqb_neq in Hs. exact Hs.
    + apply Z.ltb_lt. exact Hlt.
  - intros (t' & Hs & Ht & Hlt). injection Ht as <-.
    apply andb_true_iff. split.
    + apply negb_true_iff, String.eqb_neq. exact Hs.
    + apply Z.ltb_lt. exact Hlt.
  - discriminate.
  - intros (t' & _ & Ht & _). discriminate.
Qed.

(** When the loop finds no code, its last lines count the messages that
    the filter skipped. *)
Lemma scan_skipped (since : Z) (emails : list pyval) :
  Forall (fun m => Spec.message_ok m = true) emails ->
  Spec.first_code extract_verification_code
    (Spec.kept fromisoformat_local (Some since) emails) = None ->
  forall idx skipped w,
    exists t,
      trace (snd (scan' (Some since) emails idx skipped w))
      = Log warning NoCodeFound ::
        (if skipped
            + Z.of_nat
                (List.length
                   (filter (Spec.earlier_than fromisoformat_local since)
                      emails)) =? 0
         then t
         else Log info
                (OldEmailsSkipped
                   (skipped
                    + Z.of_nat
                        (List.length
                           (filter
                              (Spec.earlier_than fromisoformat_local since)
                              emails)))) :: t).
Proof.
  induction 1 as [ | m rest Hm _ IH]; intros Hnone idx skipped w.
  - cbn [filter List.length Z.of_nat scan]. rewrite Z.add_0_r.
    unfold bind, _log, modify, ret.
    destruct (skipped =? 0); simpl; eexists; reflexivity.
  - destruct m as [ | | | | | d]; try discriminate.
    assert (Hfields := Hm). unfold Spec.message_ok in Hfields.
    apply andb_true_iff in Hfields. destruct Hfields as [Hfields Hpreview].
    apply andb_true_iff in Hfields. destruct Hfields as [Hfields Hbody].
    apply andb_true_iff in Hfields. destruct Hfields as [_ Hsubject].
    cbn [scan]. unfold bind at 1. unfold lift at 1.
    rewrite too_old_run.
    cbn [Spec.kept filter] in Hnone. cbn [filter].
    destruct (Spec.earlier_than fromisoformat_local since (PDict d)) eqn:He;
      cbn [negb] in Hnone.
    + destruct (IH Hnone (idx + 1) (skipped + 1) w) as [t Ht].
      exists t. rewrite Ht. cbn [List.length].
      rewrite Nat2Z.inj_succ.
      replace (skipped + Z.succ
                 (Z.of_nat
                    (List.length
                       (filter (Spec.earlier_than fromisoformat_local since)
                          rest))))
        with (skipped + 1
              + Z.of_nat
                  (List.length
                     (filter (Spec.earlier_than fromisoformat_local since)
                        rest))) by lia.
      reflexivity.
    + cbn [Spec.first_code] in Hnone.
      destruct (Spec.code_of extract_verification_code (PDict d)) eqn:Hc;
        [discriminate | ].
      unfold bind, lift, _log, modify, ret, Py.get.
      fold (Spec.lookup d "subject") (Spec.lookup d "body")
        (Spec.lookup d "body_preview").
      rewrite (or_text _ Hsubject), (or_text _ Hbody), (or_text _ Hpreview).
      simpl.
      unfold Spec.code_of, Spec.body_text, Spec.text in Hc.
      destruct (extract_verification_code _) as [c | ]; simpl.
      * destruct (String.eqb c "") eqn:E; [ | discriminate].
        simpl. apply IH. exact Hnone.
      * apply IH. exact Hnone.
Qed.

(** On a healthy inbox that is not empty, [fetch_verification_code]
    comes down to the loop over the sorted messages. *)
Lemma fetch_on_inbox_scan (self : nat) (since_time : option Z) (w : world)
    (d : list (string * pyval)) (emails sorted : list pyval) :
  Py.truthy (email (objects w self)) = true ->
  remote w (requests_sent w)
    (request_of (objects w self) "GET"
       (InboxUrl (base_url (objects w self)) (email (objects w self))))
  = Answer {| status_code := 200; res_content := Json (PDict d) |} ->
  Py.truthy (Spec.lookup d "success") = true ->
  Spec.lookup d "emails" = PList emails ->
  Forall (fun m => Spec.message_ok m = true) emails ->
  sorted_newest_first list_lt emails = Ok sorted ->
  Permutation emails sorted ->
  emails <> [] ->
  exists w1,
    fetch self since_time w = scan' since_time sorted 1 0 w1.
Proof.
  intros Hemail Hans Hsuccess Hemails Hok Hsorted Hperm Hne.
  unfold fetch_verification_code, bind, read_self, get_world, ret.
  simpl. rewrite Hemail. simpl.
  unfold try_except, fetch_verification_code_try, bind, _log, modify, ret.
  pose proof (list_emails_healthy self (email (objects w self))
                (emit (Log info (PullingEmails (email (objects w self)))) w)
                d emails Hans Hsuccess Hemails) as Hlist.
  destruct (_list_emails self (email (objects w self)) _) as [r w1].
  simpl in Hlist. subst r.
  destruct emails as [ | m emails]; [congruence | ].
  remember (m :: emails) as l eqn:Hl.
  assert (Htrue : Py.truthy (PList l) = true) by (subst l; reflexivity).
  rewrite Htrue. change (negb true) with false. cbv beta iota.
  rewrite Hsorted. unfold lift. cbv beta iota.
  assert (Hok' : Forall (fun m => Spec.message_ok m = true) sorted)
    by (apply (Permutation_Forall Hperm); exact Hok).
  exists (emit (Log info (EmailsReceived (Z.of_nat (List.length sorted)))) w1).
  pose proof (scan_first_code since_time sorted Hok' 1 0
                (emit (Log info
                         (EmailsReceived (Z.of_nat (List.length sorted))))
                   w1)) as Hscan.
  destruct (scan extract_verification_code extract_nontext
              fromisoformat_local since_time sorted 1 0 _) as [r2 w2].
  simpl in Hscan. subst r2. reflexivity.
Qed.

(** C4.  On an instance with an email whose inbox endpoint answers with
    well-formed messages, [fetch_verification_code] called with a
    [since_time] applies its filter to every message without an
    exception, and the filter skips a message exactly when its
    [received_time] is there and parses to a time strictly before
    [since_time]; a message whose timestamp is missing or does not
    parse is kept.  The call returns the first code of the sorted
    messages that are kept: a skipped message is never scanned for a
    code.  When it finds no code in a non-empty inbox, its last lines
    give the number of skipped messages, which is the number of messages
    with an earlier timestamp.  With three messages at times
    [t1 < t2 < t3] and [since_time = t2], the result is the first code
    of the messages at [t2] and [t3]; the message at [t1] does not
    count. *)
Theorem since_time_filter (self : nat) (since : Z) (w : world)
    (d : list (string * pyval)) (emails : list pyval) :
  Py.truthy (email (objects w self)) = true ->
  remote w (requests_sent w)
    (request_of (objects w self) "GET"
       (InboxUrl (base_url (objects w self)) (email (objects w self))))
  = Answer {| status_code := 200; res_content := Json (PDict d) |} ->
  Py.truthy (Spec.lookup d "success") = true ->
  Spec.lookup d "emails" = PList emails ->
  Forall (fun m => Spec.message_ok m = true) emails ->
  let earlier := Spec.earlier_than fromisoformat_local since in
  let r := fetch self (Some since) w in
  exists sorted,
    sorted_newest_first list_lt emails = Ok sorted /\
    Permutation emails sorted /\
    (forall m,
        In m emails ->
        too_old fromisoformat_local (Some since) m = Ok (earlier m) /\
        (earlier m = true <->
         exists t,
           Spec.received_time m <> "" /\
           fromisoformat_local (Py.replace_Z (Spec.received_time m))
           = Some t /\
           t < since)) /\
    fst r
    = Returns (Spec.first_code extract_verification_code
                 (filter (fun m => negb (earlier m)) sorted)) /\
    (emails <> [] ->
     fst r = Returns None ->
     exists t,
       trace (snd r)
       = Log warning NoCodeFound ::
         (if Z.of_nat (List.length (filter earlier emails)) =? 0 then t
          else Log info
                 (OldEmailsSkipped
                    (Z.of_nat (List.length (filter earlier emails)))) :: t)) /\
    (forall m1 m2 m3 t1 t3,
        Permutation emails [m1; m2; m3] ->
        Spec.received_time m1 <> "" ->
        fromisoformat_local (Py.replace_Z (Spec.received_time m1)) = Some t1 ->
        fromisoformat_local (Py.replace_Z (Spec.received_time m2))
        = Some since ->
        fromisoformat_local (Py.replace_Z (Spec.received_time m3)) = Some t3 ->
        t1 < since < t3 ->
        exists scanned,
          Permutation scanned [m2; m3] /\
          fst r = Returns (Spec.first_code extract_verification_code scanned)).
Proof.
  intros Hemail Hans Hsuccess Hemails Hok earlier r.
  destruct (sorted_newest_first_ok emails Hok)
    as (sorted & Hsorted & Hperm & _).
  pose proof (fetch_on_inbox self (Some since) w d emails sorted Hemail Hans
                Hsuccess Hemails Hok Hsorted Hperm) as Hfetch.
  cbn [Spec.kept] in Hfetch. fold earlier r in Hfetch.
  exists sorted.
  refine (conj Hsorted (conj Hperm (conj _ (conj Hfetch (conj _ _))))).
  - intros m Hin. split; [ | apply earlier_than_parses].
    rewrite Forall_forall in Hok. specialize (Hok m Hin).
    destruct m as [ | | | | | dm]; try discriminate.
    apply (too_old_run (Some since)).
  - intros Hne Hnone.
    destruct (fetch_on_inbox_scan self (Some since) w d emails sorted Hemail
                Hans Hsuccess Hemails Hok Hsorted Hperm Hne) as [w1 Hrun].
    fold r in Hrun.
    rewrite Hfetch in Hnone. injection Hnone as Hnone.
    assert (Hok' : Forall (fun m => Spec.message_ok m = true) sorted)
      by (apply (Permutation_Forall Hperm); exact Hok).
    destruct (scan_skipped since sorted Hok' Hnone 1 0 w1) as [t Ht].
    rewrite <- Hrun in Ht. fold earlier in Ht. rewrite Z.add_0_l in Ht.
    rewrite (Permutation_length (filter_permutation earlier _ _ Hperm)).
    exists t. exact Ht.
  - intros m1 m2 m3 t1 t3 Hthree Hne H1 H2 H3 [Hlo Hhi].
    exists (filter (fun m => negb (earlier m)) sorted).
    split; [ | exact Hfetch].
    assert (Hp : Permutation sorted [m1; m2; m3])
      by (rewrite <- Hperm; exact Hthree).
    rewrite (filter_permutation (fun m => negb (earlier m)) _ _ Hp).
    unfold earlier, Spec.earlier_than. cbn [filter].
    rewrite H1, H2, H3.
    assert (Ht3 : (t3 <? since) = false) by (apply Z.ltb_ge; lia).
    assert (Ht1 : (t1 <? since) = true) by (apply Z.ltb_lt; lia).
    apply String.eqb_neq in Hne.
    rewrite Ht3, Ht1, Hne, Z.ltb_irrefl, !andb_false_r. reflexivity.
Qed.

(** What [_list_emails] makes of an answer it cannot use: the empty
    list, after an error line that tells why. *)
Lemma list_emails_refused (self : nat) (address : pyval) (w : world) :
  let u := InboxUrl (base_url (objects w self)) address in
  let out := remote w (requests_sent w) (request_of (objects w self) "GET" u) in
  let r := _list_emails self address w in
  (out = TransportError ->
   fst r = Returns [] /\
   hd_error (trace (snd r))
   = Some (Log error (EmailsException RequestException))) /\
  (forall res,
      out = Answer res -> status_code res <> 200 ->
      fst r = Returns [] /\
      hd_error (trace (snd r))
      = Some (Log error (EmailsHttpFailed (status_code res)))) /\
  (forall res,
      out = Answer res -> status_code res = 200 ->
      res_content res = Malformed ->
      fst r = Returns [] /\
      hd_error (trace (snd r))
      = Some (Log error (EmailsException JSONDecodeError))) /\
  (forall res d,
      out = Answer res -> status_code res = 200 ->
      json_or res (PDict []) = Ok (PDict d) ->
      Py.truthy (Spec.lookup d "success") = false ->
      fst r = Returns [] /\
      hd_error (trace (snd r)) = Some (Log error EmailsNotSuccess)).
Proof.
  intros u out r. subst r out u.
  unfold _list_emails, _list_emails_try, try_except.
  refine (conj _ (conj _ (conj _ _))).
  - intros Ho. run_request Ho. split; reflexivity.
  - intros res Ho Hst. run_request Ho.
    apply Z.eqb_neq in Hst. rewrite Hst. simpl. split; reflexivity.
  - intros res Ho Hst Hc. run_request Ho.
    rewrite Hst. simpl. unfold json_or, json. rewrite Hc. simpl.
    split; reflexivity.
  - intros res d Ho Hst Hj Hs. run_request Ho.
    rewrite Hst. simpl. rewrite Hj. simpl.
    unfold Spec.lookup in Hs. unfold Py.get. rewrite Hs. simpl.
    split; reflexivity.
Qed.

(** What one turn of the pagination makes of a failed request: the loop
    is left with the accounts gathered so far, after an error line that
    tells why. *)
Lemma fetch_accounts_turn_refused (self : nat) (acc : list pyval) (page : Z)
    (w : world) :
  let out := remote w (requests_sent w) (page_request (objects w self) page) in
  let r := _fetch_accounts_turn self acc page w in
  (out = TransportError ->
   fst r = Returns (Break acc) /\
   hd_error (trace (snd r))
   = Some (Log error (AccountsException RequestException))) /\
  (forall res,
      out = Answer res -> status_code res <> 200 ->
      fst r = Returns (Break acc) /\
      hd_error (trace (snd r))
      = Some (Log error (AccountsHttpFailed (status_code res)))) /\
  (forall res,
      out = Answer res -> status_code res = 200 ->
      res_content res = Malformed ->
      fst r = Returns (Break acc) /\
      hd_error (trace (snd r))
      = Some (Log error (AccountsException JSONDecodeError))).
Proof.
  intros out r. subst r out. unfold page_request.
  unfold _fetch_accounts_turn, try_except.
  refine (conj _ (conj _ _)).
  - intros Ho. run_request Ho. unfold page_size. rewrite Ho. simpl.
    split; reflexivity.
  - intros res Ho Hst. run_request Ho. unfold page_size. rewrite Ho. simpl.
    apply Z.eqb_neq in Hst. rewrite Hst. simpl. split; reflexivity.
  - intros res Ho Hst Hc. run_request Ho. unfold page_size. rewrite Ho. simpl.
    rewrite Hst. simpl. unfold json_or, json. rewrite Hc. simpl.
    split; reflexivity.
Qed.

(** C7, as the code has it.  Nothing escapes
    [fetch_verification_code], whatever the arguments, the instance and
    the service: when its [try] block raises, the exception is logged
    and the result is [None]; an empty inbox gives [None] after an info
    line.  Nothing escapes [_list_emails]: a transport error, a status
    other than 200, a body that is not JSON, a payload without a true
    [success] and anything else its [try] block raises give the empty
    list after an error line.  No exception comes out of
    [_fetch_accounts]: a transport error, a status other than 200 or a
    body that is not JSON ends the pagination with the accounts
    gathered so far, after an error line.  A timestamp that does not
    parse raises nothing in the time filter, which logs no line.
    [poll_for_code] returns when the interval is not zero, its numbers
    can be written in decimal and, two attempts or more being due,
    [time.sleep] accepts the interval.  [register_account] returns
    whenever the pool it fetched holds objects only, and with [False]
    after an error line when the pool is empty. *)
Theorem exceptions_are_caught :
  (forall self since_time w,
      exists code w', fetch self since_time w = (Returns code, w')) /\
  (forall self since_time w e w1,
      Py.truthy (email (objects w self)) = true ->
      fetch_verification_code_try extract_verification_code extract_nontext
        fromisoformat_local list_lt self (email (objects w self))
        since_time w = (Raises e, w1) ->
      fetch self since_time w
      = (Returns None, emit (Log error (FetchCodeException e)) w1)) /\
  (forall self since_time w w1,
      Py.truthy (email (objects w self)) = true ->
      _list_emails self (email (objects w self))
        (emit (Log info (PullingEmails (email (objects w self)))) w)
      = (Returns [], w1) ->
      fetch self since_time w
      = (Returns None, emit (Log info InboxEmpty) w1)) /\
  (forall self address w,
      exists l w', _list_emails self address w = (Returns l, w')) /\
  (forall self address w e w1,
      _list_emails_try self
        (InboxUrl (base_url (objects w self)) address) w = (Raises e, w1) ->
      _list_emails self address w
      = (Returns [], emit (Log error (EmailsException e)) w1)) /\
  (forall self address w,
      let u := InboxUrl (base_url (objects w self)) address in
      let out :=
        remote w (requests_sent w) (request_of (objects w self) "GET" u) in
      let r := _list_emails self address w in
      (out = TransportError ->
       fst r = Returns [] /\
       hd_error (trace (snd r))
       = Some (Log error (EmailsException RequestException))) /\
      (forall res,
          out = Answer res -> status_code res <> 200 ->
          fst r = Returns [] /\
          hd_error (trace (snd r))
          = Some (Log error (EmailsHttpFailed (status_code res)))) /\
      (forall res,
          out = Answer res -> status_code res = 200 ->
          res_content res = Malformed ->
          fst r = Returns [] /\
          hd_error (trace (snd r))
          = Some (Log error (EmailsException JSONDecodeError))) /\
      (forall res d,
          out = Answer res -> status_code res = 200 ->
          json_or res (PDict []) = Ok (PDict d) ->
          Py.truthy (Spec.lookup d "success") = false ->
          fst r = Returns [] /\
          hd_error (trace (snd r)) = Some (Log error EmailsNotSuccess))) /\
  (forall fuel self w e, fst (_fetch_accounts fuel self w) <> Raises e) /\
  (forall self acc page w,
      let out :=
        remote w (requests_sent w) (page_request (objects w self) page) in
      let r := _fetch_accounts_turn self acc page w in
      (out = TransportError ->
       fst r = Returns (Break acc) /\
       hd_error (trace (snd r))
       = Some (Log error (AccountsException RequestException))) /\
      (forall res,
          out = Answer res -> status_code res <> 200 ->
          fst r = Returns (Break acc) /\
          hd_error (trace (snd r))
          = Some (Log error (AccountsHttpFailed (status_code res)))) /\
      (forall res,
          out = Answer res -> status_code res = 200 ->
          res_content res = Malformed ->
          fst r = Returns (Break acc) /\
          hd_error (trace (snd r))
          = Some (Log error (AccountsException JSONDecodeError)))) /\
  (forall since d,
      exists skip,
        too_old fromisoformat_local (Some since) (PDict d) = Ok skip) /\
  (forall self timeout interval since_time w,
      interval <> 0 ->
      formats [timeout; interval] = Ok tt ->
      (2 <= timeout / interval -> sleeps interval = Ok tt) ->
      exists code w',
        poll self timeout interval since_time w = (Returns code, w')) /\
  (forall fuel self w pool w1,
      _fetch_accounts fuel self (emit (Log info FetchingPool) w)
      = (Returns pool, w1) ->
      Forall (fun a => is_dict a = true) pool ->
      exists ok w',
        register_account fuel self w = (Returns ok, w') /\
        (pool = [] ->
         ok = false /\ hd_error (trace w') = Some (Log error PoolEmpty))).
Proof.
  refine (conj _ (conj _ (conj _ (conj _ (conj _ (conj _ (conj _
            (conj _ (conj _ (conj _ _)))))))))).
  - intros self since_time w.
    destruct (safe_fetch self since_time w) as [code Hcode].
    destruct (fetch self since_time w) as [r w']. simpl in Hcode. subst r.
    now exists code, w'.
  - intros self since_time w e w1 Hemail Htry.
    unfold fetch_verification_code, bind, read_self, get_world, ret.
    simpl. rewrite Hemail. simpl. unfold try_except. rewrite Htry.
    reflexivity.
  - intros self since_time w w1 Hemail Hlist.
    unfold fetch_verification_code, bind, read_self, get_world, ret.
    simpl. rewrite Hemail. simpl.
    unfold try_except, fetch_verification_code_try, bind, _log, modify, ret.
    rewrite Hlist. reflexivity.
  - intros self address w.
    destruct (safe_list_emails self address w) as [l Hl].
    destruct (_list_emails self address w) as [r w']. simpl in Hl. subst r.
    now exists l, w'.
  - intros self address w e w1 Htry.
    unfold _list_emails, bind, read_self, get_world, ret. simpl.
    unfold try_except. rewrite Htry. reflexivity.
  - intros self address w. apply list_emails_refused.
  - intros fuel self w e. apply fetch_accounts_loop_never_raises.
  - intros self acc page w. apply fetch_accounts_turn_refused.
  - intros since d. eexists. apply (too_old_run (Some since)).
  - intros self timeout interval since_time w Hnz Hfmt Hsleep.
    destruct (Py.truthy (email (objects w self))) eqn:Hemail.
    + destruct (poll_for_code_attempts self timeout interval since_time w
                  Hnz Hfmt Hsleep Hemail)
        as (code & w1 & k & Hrun & _).
      eexists. eexists. exact Hrun.
    + rewrite poll_for_code_run, Hemail. eexists. eexists. reflexivity.
  - intros fuel self w pool w1 Hfetch Hdict.
    rewrite register_account_run, Hfetch.
    destruct pool as [ | a pool].
    + eexists. eexists. split; [reflexivity | ].
      intros _. split; reflexivity.
    + destruct (register_account_selects fuel self w (a :: pool))
        as (d0 & _ & Hrun);
        [now rewrite Hfetch | discriminate | exact Hdict | ].
      rewrite register_account_run, Hfetch in Hrun.
      rewrite Hrun. eexists. eexists. split; [reflexivity | ].
      discriminate.
Qed.

End Scanning.

(** ** The theorems at work on sample runs *)

(** Three calls on a pool of three visit the three accounts. *)
Lemma round_robin_on_three :
  let w := fresh_world (accounts_service pool_of_three) in
  Forall2
    (fun k r =>
       selects pool_of_three 0 ((_account_index w + Z.of_nat k) mod 3) r)
    (seq 0 3) (register_rounds 3 1 0 w) /\
  Permutation
    (map (fun k => Z.to_nat ((_account_index w + Z.of_nat k) mod 3)) (seq 0 3))
    (seq 0 3).
Proof.
  apply (round_robin_visits_every_account pool_of_three 1 0
           (fresh_world (accounts_service pool_of_three))).
  - discriminate.
  - repeat constructor.
  - reflexivity.
  - simpl. lia.
Defined.


(** Without an email nothing is fetched, whatever the inbox holds. *)
Lemma no_email_no_code :
  Py.truthy (email (objects (fresh_world (inbox_service (inbox_of inbox_of_two))) 0))
  = false /\
  fetch_verification_code six_digits no_nontext morning_clock no_list_lt 0
    (Some 42600) (fresh_world (inbox_service (inbox_of inbox_of_two)))
  = (Returns None,
     emit (Log error EmailUnset)
       (fresh_world (inbox_service (inbox_of inbox_of_two)))).
Proof.
  split; [reflexivity | ].
  apply (fetch_verification_code_without_email six_digits no_nontext
           morning_clock no_list_lt 0 (Some 42600)
           (fresh_world (inbox_service (inbox_of inbox_of_two)))).
  reflexivity.
Defined.

(** A poll of ten seconds every five seconds on an empty inbox. *)
Lemma poll_ten_by_five :
  let w := world_with_email (inbox_service (inbox_of [])) "ann@outlook.com" in
  exists code w' k,
    poll_for_code six_digits no_nontext morning_clock no_list_lt int64_clock
      default_max_str_digits 0 10 5 None w
    = (Returns code, w') /\
    (k <= Z.to_nat (Z.max 1 (10 / 5)))%nat /\
    history w' = history w ++ schedule 5 (Z.max 1 (10 / 5)) k 1 code /\
    (code <> None -> nonempty code = true) /\
    (Py.truthy (email (objects w 0)) = true ->
     (1 <= k)%nat /\
     (code = None -> k = Z.to_nat (Z.max 1 (10 / 5))) /\
     exists w1,
       attempts
         (fetch_verification_code six_digits no_nontext morning_clock
            no_list_lt 0 None)
         5 (Z.max 1 (10 / 5)) k 1
         (emit (Log info (PollStart 10 5 (Z.max 1 (10 / 5)))) w) code w1 /\
       w' = emit (closing_line 10 code) w1) /\
    (Py.truthy (email (objects w 0)) = false -> code = None /\ k = 0%nat).
Proof.
  apply (poll_for_code_schedule six_digits no_nontext morning_clock
           no_list_lt int64_clock default_max_str_digits 0 10 5 None
           (world_with_email (inbox_service (inbox_of [])) "ann@outlook.com")).
  - discriminate.
  - vm_compute. reflexivity.
  - intros _. reflexivity.
Defined.

(** The same poll, run: two attempts, one sleep between them, no code. *)
Example two_attempts_one_sleep_run :
  let r := poll_for_code six_digits no_nontext morning_clock no_list_lt
             int64_clock default_max_str_digits 0 10 5 None
             (world_with_email (inbox_service (inbox_of []))
                "ann@outlook.com") in
  fst r = Returns None /\
  history (snd r) = [Attempt 1 2; Fetch; Sleep 5; Attempt 2 2; Fetch].
Proof. split; vm_compute; reflexivity. Qed.

(** C6 as stated fails.  With [timeout = -10] and [interval = -5] two
    attempts are due; the first finds nothing in an empty inbox and the
    sleep that follows is refused: the [ValueError] of [time.sleep]
    comes out of the poll after one attempt, the second attempt is not
    made and nothing is returned.  So it is with [timeout = 2 * 10^10]
    and [interval = 10^10] on a clock of 64 bits, where the
    [OverflowError] of [time.sleep] comes out. *)
Lemma refused_sleep_ends_the_poll :
  let w := world_with_email (inbox_service (inbox_of [])) "ann@outlook.com" in
  let poll :=
    poll_for_code six_digits no_nontext morning_clock no_list_lt int64_clock
      default_max_str_digits 0 in
  (Z.max 1 (-10 / -5) = 2 /\
   fst (poll (-10) (-5) None w) = Raises ValueError /\
   history (snd (poll (-10) (-5) None w)) = [Attempt 1 2; Fetch]) /\
  (Z.max 1 (20000000000 / 10000000000) = 2 /\
   fst (poll 20000000000 10000000000 None w) = Raises OverflowError /\
   history (snd (poll 20000000000 10000000000 None w))
   = [Attempt 1 2; Fetch]).
Proof. repeat split; vm_compute; reflexivity. Qed.

(** The first call on a fresh process selects the first of three. *)
Lemma first_registration_selects_first :
  let w := fresh_world (accounts_service pool_of_three) in
  let w' := snd (register_account 1 0 w) in
  let total := Z.of_nat (List.length (_accounts_cache w')) in
  let position := _account_index w mod total in
  0 < total /\
  0 <= position < total /\
  (exists acct,
      nth_error (_accounts_cache w') (Z.to_nat position) = Some acct /\
      Py.get acct "email" = Ok (email (objects w' 0)) /\
      Py.get acct "id" = Ok (account_id (objects w' 0))) /\
  hd_error (trace w')
  = Some (Log info (AccountSelected (position + 1) total
                      (email (objects w' 0)))) /\
  _account_index w' = (position + 1) mod total /\
  0 <= _account_index w' < total.
Proof.
  apply (successful_registration_selects_modulo_size 1 0
           (fresh_world (accounts_service pool_of_three))
           (snd (register_account 1 0
                   (fresh_world (accounts_service pool_of_three))))).
  reflexivity.
Defined.

(** A pool was cached and an account selected; the service then serves an
    empty pool: the next call fails, keeps the selection and empties the
    cache. *)
Lemma emptied_pool_erases_cache :
  let w := with_remote (accounts_service [])
             (snd (register_account 1 0
                     (fresh_world (accounts_service pool_of_three)))) in
  let w' := snd (register_account 1 0 w) in
  _accounts_cache w = pool_of_three /\
  objects w' = objects w /\
  email (objects w' 0) = email (objects w 0) /\
  account_id (objects w' 0) = account_id (objects w 0) /\
  _account_index w' = _account_index w /\
  _accounts_cache w' = [].
Proof.
  split; [reflexivity | ].
  apply (failed_registration_erases_cache 1 0
           (with_remote (accounts_service [])
              (snd (register_account 1 0
                      (fresh_world (accounts_service pool_of_three)))))).
  reflexivity.
Defined.

(** The newer of two messages has no code: the older one's is returned. *)
Lemma older_code_is_returned :
  let w := world_with_email (inbox_service (inbox_of inbox_of_two))
             "ann@outlook.com" in
  exists sorted,
    sorted_newest_first no_list_lt inbox_of_two = Ok sorted /\
    Permutation inbox_of_two sorted /\
    Spec.newest_first sorted /\
    (forall before m after,
        sorted = before ++ m :: after ->
        Spec.received_time m = "" ->
        Forall (fun x => Spec.received_time x = "") after) /\
    fst (fetch_verification_code six_digits no_nontext morning_clock
           no_list_lt 0 None w)
    = Returns (Spec.first_code six_digits
                 (Spec.kept morning_clock None sorted)) /\
    (forall newer older c,
        Permutation inbox_of_two [newer; older] ->
        String.ltb (Spec.received_time older) (Spec.received_time newer)
        = true ->
        Spec.code_of six_digits newer = None ->
        Spec.code_of six_digits older = Some c ->
        @None Z = None ->
        fst (fetch_verification_code six_digits no_nontext morning_clock
               no_list_lt 0 None w) = Returns (Some c)).
Proof.
  apply (fetch_verification_code_newest_first six_digits no_nontext
           morning_clock no_list_lt 0 None
           (world_with_email (inbox_service (inbox_of inbox_of_two))
              "ann@outlook.com")
           [("success", PBool true); ("emails", PList inbox_of_two)]
           inbox_of_two).
  - reflexivity.
  - reflexivity.
  - reflexivity.
  - reflexivity.
  - repeat constructor.
Defined.

(** The same inbox, run: the message without a code is checked first. *)
Example newer_message_checked_first_run :
  let r := fetch_verification_code six_digits no_nontext morning_clock
             no_list_lt 0 None
             (world_with_email (inbox_service (inbox_of inbox_of_two))
                "ann@outlook.com") in
  fst r = Returns (Some "123456") /\
  firstn 3 (trace (snd r))
  = [Log info (CodeFound "123456");
     Log info (CheckingEmail 2 (PStr "Your code"));
     Log info (CheckingEmail 1 (PStr "Welcome"))].
Proof. split; reflexivity. Qed.

(** With [since_time] between the two messages the older one is skipped
    and no code is found. *)
Example older_message_is_skipped_run :
  fst (fetch_verification_code six_digits no_nontext morning_clock no_list_lt
         0 (Some 42610)
         (world_with_email (inbox_service (inbox_of inbox_of_two))
            "ann@outlook.com"))
  = Returns None.
Proof. reflexivity. Qed.

(** Three messages of one morning and a [since_time] at the second: the
    first is skipped, the code of the second is returned. *)
Lemma second_morning_is_scanned :
  let w := world_with_email (inbox_service (inbox_of inbox_of_three))
             "ann@outlook.com" in
  let earlier := Spec.earlier_than morning_clock 42610 in
  let r := fetch_verification_code six_digits no_nontext morning_clock
             no_list_lt 0 (Some 42610) w in
  exists sorted,
    sorted_newest_first no_list_lt inbox_of_three = Ok sorted /\
    Permutation inbox_of_three sorted /\
    (forall m,
        In m inbox_of_three ->
        too_old morning_clock (Some 42610) m = Ok (earlier m) /\
        (earlier m = true <->
         exists t,
           Spec.received_time m <> "" /\
           morning_clock (Py.replace_Z (Spec.received_time m)) = Some t /\
           t < 42610)) /\
    fst r
    = Returns (Spec.first_code six_digits
                 (filter (fun m => negb (earlier m)) sorted)) /\
    (inbox_of_three <> [] ->
     fst r = Returns None ->
     exists t,
       trace (snd r)
       = Log warning NoCodeFound ::
         (if Z.of_nat (List.length (filter earlier inbox_of_three)) =? 0
          then t
          else Log info
                 (OldEmailsSkipped
                    (Z.of_nat (List.length (filter earlier inbox_of_three))))
               :: t)) /\
    (forall m1 m2 m3 t1 t3,
        Permutation inbox_of_three [m1; m2; m3] ->
        Spec.received_time m1 <> "" ->
        morning_clock (Py.replace_Z (Spec.received_time m1)) = Some t1 ->
        morning_clock (Py.replace_Z (Spec.received_time m2)) = Some 42610 ->
        morning_clock (Py.replace_Z (Spec.received_time m3)) = Some t3 ->
        t1 < 42610 < t3 ->
        exists scanned,
          Permutation scanned [m2; m3] /\
          fst r = Returns (Spec.first_code six_digits scanned)).
Proof.
  apply (since_time_filter six_digits no_nontext morning_clock no_list_lt 0
           42610
           (world_with_email (inbox_service (inbox_of inbox_of_three))
              "ann@outlook.com")
           [("success", PBool true); ("emails", PList inbox_of_three)]
           inbox_of_three).
  - reflexivity.
  - reflexivity.
  - reflexivity.
  - reflexivity.
  - repeat constructor.
Defined.

(** The same inbox, run: the first message is skipped and the second,
    checked after the third, gives the code. *)
Example second_morning_run :
  let r := fetch_verification_code six_digits no_nontext morning_clock
             no_list_lt 0 (Some 42610)
             (world_with_email (inbox_service (inbox_of inbox_of_three))
                "ann@outlook.com") in
  fst r = Returns (Some "654321") /\
  firstn 3 (trace (snd r))
  = [Log info (CodeFound "654321");
     Log info (CheckingEmail 2 (PStr "Your new code"));
     Log info (CheckingEmail 1 (PStr "Welcome"))].
Proof. split; reflexivity. Qed.

(** C7 as stated fails.  With an email set and [interval = 0],
    [poll_for_code] lets the [ZeroDivisionError] of [timeout // interval]
    out.  And a timestamp that does not parse leaves no line in the log:
    the message is checked like any other. *)
Lemma poll_with_zero_interval_raises :
  fst (poll_for_code six_digits no_nontext morning_clock no_list_lt
         int64_clock default_max_str_digits 0 10 0 None
         (world_with_email (inbox_service (inbox_of [])) "ann@outlook.com"))
  = Raises ZeroDivisionError /\
  rev (trace
         (snd (fetch_verification_code six_digits no_nontext morning_clock
                 no_list_lt 0 (Some 42600)
                 (world_with_email
                    (inbox_service (inbox_of inbox_with_bad_time))
                    "ann@outlook.com"))))
  = [Log info (PullingEmails (PStr "ann@outlook.com"));
     Log info (SendingRequest "GET"
                 (InboxUrl "http://your-outlook-api.com"
                    (PStr "ann@outlook.com")));
     Log info (ReceivedResponse 200);
     Log info (EmailsReceived 1);
     Log info (CheckingEmail 1 (PStr "Hello"));
     Log warning NoCodeFound].
Proof. split; vm_compute; reflexivity. Qed.

(** * Further properties *)

(** ** What a registration costs, and when it does not end *)

Lemma fetch_accounts_loop_pool_requests (self : nat) (pool : list pyval) :
  forall (fuel : nat) (rest acc : list pyval) (p : nat) (w : world),
    remote w = accounts_service pool ->
    skipn (100 * p) pool = rest ->
    (List.length rest < 100 * fuel)%nat ->
    requests_sent (snd (_fetch_accounts_loop fuel self acc (Z.of_nat p + 1) w))
    = (requests_sent w + List.length rest / 100 + 1)%nat.
Proof.
  induction fuel as [ | fuel IH]; intros rest acc p w Hr Hrest Hfuel;
    [simpl in Hfuel; lia | ].
  cbn [_fetch_accounts_loop]. unfold bind.
  assert (Hans :
    remote w (requests_sent w) (page_request (objects w self) (Z.of_nat p + 1))
    = Answer {| status_code := 200;
                res_content := Json (PList (firstn 100 rest)) |}).
  { rewrite Hr. unfold accounts_service, page_request, request_of.
    cbn [req_url].
    assert (Hp : Z.to_nat ((Z.of_nat p + 1 - 1) * 100) = (100 * p)%nat) by lia.
    rewrite Hp, Hrest. reflexivity. }
  rewrite (fetch_accounts_turn_on_list self acc _ _ w Hans).
  destruct (firstn 100 rest) as [ | x items] eqn:Hfirst.
  - destruct rest as [ | y rest]; [ | discriminate].
    unfold ret.
    change (List.length (@nil pyval) / 100)%nat with 0%nat.
    simpl (requests_sent _). lia.
  - rewrite <- Hfirst.
    destruct (Z.of_nat (List.length (firstn 100 rest)) <? 100) eqn:Hshort.
    + apply Z.ltb_lt in Hshort. rewrite length_firstn in Hshort.
      rewrite Nat.div_small by lia.
      unfold ret. simpl (requests_sent _). lia.
    + apply Z.ltb_ge in Hshort. rewrite length_firstn in Hshort.
      replace (Z.of_nat p + 1 + 1) with (Z.of_nat (S p) + 1) by lia.
      rewrite (IH (skipn 100 rest)).
      * rewrite length_skipn.
        assert (Hdiv : (List.length rest / 100
                        = (List.length rest - 100) / 100 + 1)%nat).
        { replace (List.length rest)
            with ((List.length rest - 100) + 1 * 100)%nat at 1 by lia.
          rewrite Nat.div_add by lia. reflexivity. }
        rewrite Hdiv. simpl (requests_sent _).
        generalize ((List.length rest - 100) / 100)%nat. intros q. lia.
      * exact Hr.
      * rewrite <- Hrest, skipn_skipn. f_equal. lia.
      * rewrite length_skipn. lia.
Qed.

(** The requests a whole call sends are those of its fetch. *)
Lemma register_account_requests (fuel self : nat) (w : world) :
  requests_sent (snd (register_account fuel self w))
  = requests_sent
      (snd (_fetch_accounts fuel self (emit (Log info FetchingPool) w))).
Proof.
  rewrite register_account_run.
  destruct (_fetch_accounts fuel self (emit (Log info FetchingPool) w))
    as [[pool | e | ] w1]; try reflexivity.
  destruct pool as [ | a pool]; [reflexivity | ].
  cbv zeta.
  destruct (Py.index (a :: pool) _) as [[ | | | | | d] | e]; reflexivity.
Qed.

(** On a service that holds a fixed pool of [n] accounts, a call of
    [register_account] sends [n / 100 + 1] requests: one for each full
    page and one for the page that ends the pagination, which is empty
    when [n] is a multiple of 100. *)
Theorem register_account_request_count
    (pool : list pyval) (fuel self : nat) (w : world) :
  remote w = accounts_service pool ->
  (List.length pool < 100 * fuel)%nat ->
  requests_sent (snd (register_account fuel self w))
  = (requests_sent w + List.length pool / 100 + 1)%nat.
Proof.
  intros Hr Hfuel.
  rewrite register_account_requests.
  apply (fetch_accounts_loop_pool_requests self pool fuel pool [] 0%nat
           (emit (Log info FetchingPool) w)); [exact Hr | reflexivity | exact Hfuel].
Qed.

Lemma fetch_accounts_loop_endless (self : nat) (page : list pyval) :
  (100 <= List.length page)%nat ->
  forall (fuel : nat) (acc : list pyval) (number : Z) (w : world),
    remote w = endless_service page ->
    fst (_fetch_accounts_loop fuel self acc number w) = OutOfFuel /\
    requests_sent (snd (_fetch_accounts_loop fuel self acc number w))
    = (requests_sent w + fuel)%nat.
Proof.
  intros Hfull.
  induction fuel as [ | fuel IH]; intros acc number w Hr; simpl.
  - split; [reflexivity | lia].
  - unfold bind.
    assert (Hans :
      remote w (requests_sent w) (page_request (objects w self) number)
      = Answer {| status_code := 200; res_content := Json (PList page) |})
      by (rewrite Hr; reflexivity).
    rewrite (fetch_accounts_turn_on_list self acc _ _ w Hans).
    destruct page as [ | x page]; [simpl in Hfull; lia | ].
    assert (Hlong : (Z.of_nat (List.length (x :: page)) <? 100) = false)
      by (apply Z.ltb_ge; lia).
    rewrite Hlong.
    destruct (IH (acc ++ x :: page) (number + 1)
                (emit (Log info (ReceivedResponse 200))
                   (count_request
                      (emit (Log info
                               (SendingRequest "GET"
                                  (AccountsUrl (base_url (objects w self))
                                     number 100))) w)))) as [Hout Hreq];
      [exact Hr | ].
    split; [exact Hout | ].
    rewrite Hreq. simpl. lia.
Qed.

(** Nothing bounds the pagination: on a service that answers every page
    request with a full page, [register_account] is still fetching after
    any number of requests, and never returns. *)
Theorem register_account_never_returns_on_full_pages
    (page : list pyval) (fuel self : nat) (w : world) :
  remote w = endless_service page ->
  (100 <= List.length page)%nat ->
  fst (register_account fuel self w) = OutOfFuel /\
  requests_sent (snd (register_account fuel self w))
  = (requests_sent w + fuel)%nat.
Proof.
  intros Hr Hfull.
  destruct (fetch_accounts_loop_endless self page Hfull fuel [] 1
              (emit (Log info FetchingPool) w) Hr) as [Hout Hreq].
  split.
  - rewrite register_account_run. unfold _fetch_accounts.
    destruct (_fetch_accounts_loop fuel self [] 1
                (emit (Log info FetchingPool) w)) as [r w1].
    simpl in Hout. subst r. reflexivity.
  - rewrite register_account_requests. exact Hreq.
Qed.

(** When the entry [register_account] picks in the pool it fetched is not
    an object, the [AttributeError] of [account.get] escapes.  The cache
    has been replaced by then, while the instances and the stored index
    are as before the call. *)
Theorem register_account_raises_on_ill_shaped_account
    (fuel self : nat) (w w1 : world) (pool : list pyval) (entry : pyval) :
  _fetch_accounts fuel self (emit (Log info FetchingPool) w)
  = (Returns pool, w1) ->
  nth_error pool
    (Z.to_nat (_account_index w mod Z.of_nat (List.length pool)))
  = Some entry ->
  is_dict entry = false ->
  exists w',
    register_account fuel self w = (Raises AttributeError, w') /\
    _accounts_cache w' = pool /\
    objects w' = objects w /\
    _account_index w' = _account_index w.
Proof.
  intros Hfetch Hnth Hshape.
  pose proof (register_fetch_same_state fuel self w) as (Hi & _ & Ho & _).
  rewrite Hfetch in Hi, Ho. simpl in Hi, Ho.
  rewrite register_account_run, Hfetch.
  destruct pool as [ | a pool]; [destruct (Z.to_nat _); discriminate | ].
  remember (a :: pool) as l eqn:Hl.
  assert (Hpos : 0 < Z.of_nat (List.length l)) by (subst l; simpl; lia).
  cbv zeta. rewrite Hi.
  rewrite (index_in_range l _ (Z.mod_pos_bound (_account_index w) _ Hpos)).
  rewrite Hnth.
  eexists. split.
  - destruct entry; try reflexivity. discriminate.
  - simpl. repeat split; assumption.
Qed.

(** ** The rotation is shared by the instances *)

Lemma register_rounds_by_select (pool : list pyval) (fuel : nat) (i0 : Z) :
  pool <> [] ->
  Forall (fun a => is_dict a = true) pool ->
  (List.length pool < 100 * fuel)%nat ->
  forall (selfs : list nat) (s : nat) (w : world),
    remote w = accounts_service pool ->
    _account_index w mod Z.of_nat (List.length pool)
    = (i0 + Z.of_nat s) mod Z.of_nat (List.length pool) ->
    Forall2
      (fun ks r =>
         selects pool (snd ks)
           ((i0 + Z.of_nat (fst ks)) mod Z.of_nat (List.length pool)) r)
      (combine (seq s (List.length selfs)) selfs)
      (register_rounds_by selfs fuel w).
Proof.
  intros Hne Hdict Hfuel.
  induction selfs as [ | self selfs IH]; intros s w Hr Hi; simpl;
    constructor.
  - assert (Hfetch :
      fst (_fetch_accounts fuel self (emit (Log info FetchingPool) w))
      = Returns pool).
    { apply (fetch_accounts_loop_pool self pool fuel pool [] 0%nat);
        [exact Hr | reflexivity | reflexivity | exact Hfuel]. }
    destruct (register_account_selects fuel self w pool Hfetch Hne Hdict)
      as (d & Hnth & Hrun).
    rewrite Hrun, Hi in *. unfold selects, selected. simpl.
    rewrite Nat.eqb_refl. simpl.
    split; [reflexivity | ].
    exists (PDict d). repeat split. exact Hnth.
  - assert (Hfetch :
      fst (_fetch_accounts fuel self (emit (Log info FetchingPool) w))
      = Returns pool).
    { apply (fetch_accounts_loop_pool self pool fuel pool [] 0%nat);
        [exact Hr | reflexivity | reflexivity | exact Hfuel]. }
    destruct (register_account_selects fuel self w pool Hfetch Hne Hdict)
      as (d & _ & Hrun).
    apply IH.
    + rewrite Hrun. unfold selected. simpl.
      pose proof (register_fetch_same_state fuel self w) as (_ & _ & _ & Hrem).
      rewrite Hrem. exact Hr.
    + rewrite Hrun. unfold selected. simpl.
      rewrite Z.mod_mod by (destruct pool; [contradiction | simpl; lia]).
      rewrite Hi, Zplus_mod_idemp_l.
      f_equal. lia.
Qed.

(** The stored index belongs to the class: when several instances call
    [register_account] one after the other on a service that keeps
    serving the same pool of [n] account objects, the [k]-th call selects
    position [(stored index + k) mod n] for the instance that makes it,
    whichever instances made the calls before. *)
Theorem rotation_is_shared_by_instances
    (pool : list pyval) (selfs : list nat) (fuel : nat) (w : world) :
  pool <> [] ->
  Forall (fun a => is_dict a = true) pool ->
  remote w = accounts_service pool ->
  (List.length pool < 100 * fuel)%nat ->
  Forall2
    (fun ks r =>
       selects pool (snd ks)
         ((_account_index w + Z.of_nat (fst ks))
          mod Z.of_nat (List.length pool)) r)
    (combine (seq 0 (List.length selfs)) selfs)
    (register_rounds_by selfs fuel w).
Proof.
  intros Hne Hdict Hr Hfuel.
  apply register_rounds_by_select; try assumption.
  f_equal. simpl. lia.
Qed.

(** ** Construction *)

Lemma rstrip_where_split (p : ascii -> bool) (s : string) :
  exists t, s = (rstrip_where p s ++ t)%string /\ all_chars p t = true.
Proof.
  induction s as [ | c s IH]; simpl.
  - exists EmptyString. split; reflexivity.
  - destruct IH as (t & Hs & Ht).
    destruct (rstrip_where p s) as [ | a r] eqn:Hr.
    + simpl in Hs. subst t.
      destruct (p c) eqn:Hc.
      * exists (String c s). split; [reflexivity | ].
        simpl. now rewrite Hc, Ht.
      * exists s. split; [reflexivity | exact Ht].
    + exists t. split; [ | exact Ht].
      simpl in *. f_equal. exact Hs.
Qed.

Lemma rstrip_where_ends (p : ascii -> bool) (s : string) :
  ends_with p (rstrip_where p s) = false.
Proof.
  induction s as [ | c s IH]; simpl; [reflexivity | ].
  destruct (rstrip_where p s) as [ | a r] eqn:Hr.
  - destruct (p c) eqn:Hc; simpl; [reflexivity | exact Hc].
  - exact IH.
Qed.

Lemma rstrip_where_starts (p : ascii -> bool) (s : string) :
  starts_with p s = false -> starts_with p (rstrip_where p s) = false.
Proof.
  destruct s as [ | c s]; simpl; [reflexivity | ].
  intros Hc. destruct (rstrip_where p s); [rewrite Hc | ]; simpl;
    [exact Hc | exact Hc].
Qed.

Lemma lstrip_where_split (p : ascii -> bool) (s : string) :
  exists l, s = (l ++ lstrip_where p s)%string /\ all_chars p l = true.
Proof.
  induction s as [ | c s IH]; simpl.
  - exists EmptyString. split; reflexivity.
  - destruct (p c) eqn:Hc.
    + destruct IH as (l & Hs & Hl).
      exists (String c l). split; [simpl; now rewrite <- Hs | ].
      simpl. now rewrite Hc, Hl.
    + exists EmptyString. split; reflexivity.
Qed.

Lemma lstrip_where_starts (p : ascii -> bool) (s : string) :
  starts_with p (lstrip_where p s) = false.
Proof.
  induction s as [ | c s IH]; simpl; [reflexivity | ].
  destruct (p c) eqn:Hc; [exact IH | simpl; exact Hc].
Qed.

(** What [__init__] makes of its arguments when they are strings (or
    [None], or empty): [base_url] is the given URL, or the default when
    none is given, less all its trailing slashes; [proxy_url] is the
    given proxy less the whitespace around it; no email is selected.
    The class attributes and the other instances are not touched, so a
    new client does not restart the rotation. *)
Theorem init_normalises (self : nat) (base proxy : pyval) (w : world) :
  Spec.text_or_falsy base = true ->
  Spec.text_or_falsy proxy = true ->
  let given := match base with
               | PStr s => if String.eqb s "" then default_base_url else s
               | _ => default_base_url
               end in
  let given_proxy := match proxy with PStr s => s | _ => "" end in
  exists w',
    __init__ self base proxy w = (Returns tt, w') /\
    (exists slashes,
        given = (base_url (objects w' self) ++ slashes)%string /\
        all_chars is_slash slashes = true) /\
    ends_with is_slash (base_url (objects w' self)) = false /\
    (exists before after,
        given_proxy
        = (before ++ proxy_url (objects w' self) ++ after)%string /\
        all_chars isspace before = true /\
        all_chars isspace after = true) /\
    starts_with isspace (proxy_url (objects w' self)) = false /\
    ends_with isspace (proxy_url (objects w' self)) = false /\
    email (objects w' self) = PNone /\
    account_id (objects w' self) = PNone /\
    _account_index w' = _account_index w /\
    _accounts_cache w' = _accounts_cache w /\
    (forall other, other <> self -> objects w' other = objects w other).
Proof.
  intros Hbase Hproxy given given_proxy.
  assert (Hb : Py.or_ base (PStr default_base_url) = PStr given).
  { unfold Py.or_, given.
    destruct base as [ | b | n | s | l | d]; simpl in *;
      try (apply negb_true_iff in Hbase; rewrite Hbase; reflexivity);
      try reflexivity.
    destruct (String.eqb s ""); reflexivity. }
  assert (Hp : Py.or_ proxy (PStr "") = PStr given_proxy)
    by (unfold given_proxy; apply or_text; exact Hproxy).
  unfold __init__, bind, lift, modify, set_email, set_account_id.
  rewrite Hb, Hp. simpl.
  eexists. split; [reflexivity | ].
  simpl. rewrite !Nat.eqb_refl. simpl.
  destruct (rstrip_where_split is_slash given) as (slashes & Hs & Hall).
  destruct (lstrip_where_split isspace given_proxy) as (before & Hl & Hbefore).
  destruct (rstrip_where_split isspace (lstrip_where isspace given_proxy))
    as (after & Hr & Hafter).
  refine (conj _ (conj _ (conj _ (conj _ (conj _ (conj eq_refl
            (conj eq_refl (conj eq_refl (conj eq_refl _))))))))).
  - exists slashes. split; assumption.
  - apply rstrip_where_ends.
  - exists before, after. split; [ | split; assumption].
    rewrite <- Hr. exact Hl.
  - apply rstrip_where_starts, lstrip_where_starts.
  - apply rstrip_where_ends.
  - intros other Hother.
    apply Nat.eqb_neq in Hother. rewrite !Hother. reflexivity.
Qed.

(** ** What scanning and polling cost and leave alone *)

Lemma same_requests_refl (w : world) : same_requests w w.
Proof. reflexivity. Qed.

Lemma same_requests_trans (w1 w2 w3 : world) :
  same_requests w1 w2 -> same_requests w2 w3 -> same_requests w1 w3.
Proof. unfold same_requests. congruence. Qed.

Lemma request_per_fetch_refl (w : world) : request_per_fetch w w.
Proof. unfold request_per_fetch. lia. Qed.

Lemma request_per_fetch_trans (w1 w2 w3 : world) :
  request_per_fetch w1 w2 -> request_per_fetch w2 w3 ->
  request_per_fetch w1 w3.
Proof. unfold request_per_fetch. lia. Qed.

Lemma one_request_bind_first {A B} (m : M A) (k : A -> M B) :
  one_request m -> (forall a, keeps same_requests (k a)) ->
  one_request (bind m k).
Proof.
  intros Hm Hk w. unfold bind. specialize (Hm w).
  destruct (m w) as [[a | e | ] w1]; simpl in *; try exact Hm.
  rewrite (Hk a w1). exact Hm.
Qed.

Lemma one_request_bind_second {A B} (m : M A) (k : A -> M B) :
  safe m -> keeps same_requests m -> (forall a, one_request (k a)) ->
  one_request (bind m k).
Proof.
  intros Hs Hm Hk w. unfold bind.
  destruct (Hs w) as [a Ha]. specialize (Hm w).
  destruct (m w) as [r w1]; simpl in *. subst r.
  rewrite (Hk a w1). now rewrite Hm.
Qed.

Lemma one_request_try_except {A} (m : M A) (h : exn -> M A) :
  one_request m -> (forall e, keeps same_requests (h e)) ->
  one_request (try_except m h).
Proof.
  intros Hm Hh w. unfold try_except. specialize (Hm w).
  destruct (m w) as [[a | e | ] w1]; simpl in *; try exact Hm.
  rewrite (Hh e w1). exact Hm.
Qed.

Ltac no_request_step :=
  keeps_step same_requests same_requests_refl same_requests_trans.

(** [_request] asks the service once, whether it is answered or not. *)
Lemma one_request_request (self : nat) (method : string) (u : url) :
  one_request (_request self method u).
Proof.
  intro w. unfold _request, requests_request, bind, _log, read_self,
    get_world, modify, ret, lift. simpl.
  destruct (remote w (requests_sent w) _); reflexivity.
Qed.

Lemma one_request_list_emails (self : nat) (address : pyval) :
  one_request (_list_emails self address).
Proof.
  unfold _list_emails.
  apply one_request_bind_second; [apply safe_read_self | | intros o].
  - unfold read_self. repeat no_request_step.
  - apply one_request_try_except.
    + unfold _list_emails_try.
      apply one_request_bind_first; [apply one_request_request | intros res].
      unfold _log. repeat no_request_step.
    + intros e. unfold _log. repeat no_request_step.
Qed.

Section Beyond.

Variable extract_verification_code : string -> option string.
Variable extract_nontext : pyval -> result (option string).
Variable fromisoformat_local : string -> option Z.
Variable list_lt : list pyval -> list pyval -> result bool.
Variable sleep_refusal : Z -> option exn.
Variable int_max_str_digits : Z.

Local Abbreviation scan' :=
  (scan extract_verification_code extract_nontext fromisoformat_local).
Local Abbreviation fetch :=
  (fetch_verification_code extract_verification_code extract_nontext
     fromisoformat_local list_lt).
Local Abbreviation poll :=
  (poll_for_code extract_verification_code extract_nontext
     fromisoformat_local list_lt sleep_refusal int_max_str_digits).
Local Abbreviation loop :=
  (poll_loop extract_verification_code extract_nontext
     fromisoformat_local list_lt sleep_refusal int_max_str_digits).
Local Abbreviation sleeps := (time_sleep sleep_refusal).
Local Abbreviation formats := (format_ints int_max_str_digits).

Lemma no_request_scan (since_time : option Z) (emails : list pyval) :
  forall idx skipped, keeps same_requests (scan' since_time emails idx skipped).
Proof.
  induction emails as [ | msg rest IH]; intros idx skipped; simpl;
    unfold _log.
  - repeat no_request_step.
  - apply (keeps_bind same_requests same_requests_trans);
      [no_request_step | intros old].
    destruct old; [apply IH | ].
    repeat first [ apply IH | no_request_step ].
Qed.

Lemma fetch_requests (self : nat) (since_time : option Z) (w : world) :
  requests_sent (snd (fetch self since_time w))
  = if Py.truthy (email (objects w self)) then S (requests_sent w)
    else requests_sent w.
Proof.
  unfold fetch_verification_code, bind at 1, read_self, bind at 1,
    get_world, ret.
  destruct (Py.truthy (email (objects w self))); [ | reflexivity].
  cbv beta iota. change (negb true) with false. cbv iota.
  assert (Hone : one_request
            (try_except
               (fetch_verification_code_try extract_verification_code
                  extract_nontext fromisoformat_local list_lt self
                  (email (objects w self)) since_time)
               (fun e => _log error (FetchCodeException e) ;; ret None))).
  { apply one_request_try_except.
    - unfold fetch_verification_code_try.
      apply one_request_bind_second; [apply safe_log | | intros _].
      + unfold _log. no_request_step.
      + apply one_request_bind_first;
          [apply one_request_list_emails | intros emails].
        unfold _log.
        repeat first [ apply no_request_scan | no_request_step ].
    - intros e. unfold _log. repeat no_request_step. }
  apply Hone.
Qed.

(** [fetch_verification_code] sends exactly one request when the instance
    has an email, whatever the answer, and none when it has not: nothing
    is retried at this level. *)
Theorem fetch_verification_code_sends_one_request
    (self : nat) (since_time : option Z) (w : world) :
  requests_sent (snd (fetch self since_time w))
  = if Py.truthy (email (objects w self)) then S (requests_sent w)
    else requests_sent w.
Proof. apply fetch_requests. Qed.

Lemma preserves_sleep (seconds : Z) :
  preserves (sleep sleep_refusal seconds).
Proof. unfold sleep. repeat preserves_step. Qed.

Lemma preserves_poll_loop (self : nat) (since_time : option Z)
    (timeout interval max_retries : Z) :
  forall (remaining : nat) (i : Z),
    preserves (loop self since_time timeout interval max_retries remaining i).
Proof.
  induction remaining as [ | remaining IH]; intros i; simpl; unfold _log.
  - repeat preserves_step.
  - repeat first [ apply IH | apply preserves_sleep
                 | apply (preserves_fetch extract_verification_code
                            extract_nontext fromisoformat_local list_lt)
                 | preserves_step ].
Qed.

(** Scanning and polling never select anything: whatever they are given
    and whatever the service answers, [fetch_verification_code] and
    [poll_for_code] leave the stored index, the cached pool, every
    instance (its email and account id with it) and the service as they
    found them. *)
Theorem scanning_and_polling_change_no_state
    (self : nat) (timeout interval : Z) (since_time : option Z) (w : world) :
  same_state w (snd (fetch self since_time w)) /\
  same_state w (snd (poll self timeout interval since_time w)).
Proof.
  split.
  - apply (preserves_fetch extract_verification_code extract_nontext
             fromisoformat_local list_lt).
  - revert w. change (preserves (poll self timeout interval since_time)).
    unfold poll_for_code, _log, read_self.
    repeat first [ apply preserves_poll_loop | preserves_step ].
Qed.

Lemma fetches_app (l m : list poll_step) :
  fetches (l ++ m) = (fetches l + fetches m)%nat.
Proof.
  induction l as [ | [ | | | ] l IH]; simpl; try rewrite IH; reflexivity.
Qed.

Lemma fetches_rev (l : list poll_step) : fetches (rev l) = fetches l.
Proof.
  induction l as [ | s l IH]; simpl; [reflexivity | ].
  rewrite fetches_app, IH. destruct s; simpl; lia.
Qed.

Lemma fetches_schedule (interval max_retries : Z) (code : option string) :
  forall (k : nat) (i : Z),
    fetches (schedule interval max_retries k i code) = k.
Proof.
  induction k as [ | k IH]; intros i; [reflexivity | ].
  destruct k as [ | k].
  - simpl. destruct code; reflexivity.
  - change (schedule interval max_retries (S (S k)) i code)
      with (Attempt i max_retries :: Fetch :: Sleep interval
            :: schedule interval max_retries (S k) (i + 1) code).
    cbn [fetches]. now rewrite IH.
Qed.

Lemma slept_app (l m : list poll_step) : slept (l ++ m) = slept l + slept m.
Proof.
  induction l as [ | [ | | | ] l IH]; simpl; try rewrite IH; lia.
Qed.

Lemma slept_rev (l : list poll_step) : slept (rev l) = slept l.
Proof.
  induction l as [ | s l IH]; simpl; [reflexivity | ].
  rewrite slept_app, IH. destruct s; simpl; lia.
Qed.

Lemma slept_schedule (interval max_retries : Z) (code : option string) :
  forall (k : nat) (i : Z),
    slept (schedule interval max_retries (S k) i code)
    = Z.of_nat k * interval.
Proof.
  induction k as [ | k IH]; intros i.
  - simpl. destruct code; reflexivity.
  - change (schedule interval max_retries (S (S k)) i code)
      with (Attempt i max_retries :: Fetch :: Sleep interval
            :: schedule interval max_retries (S k) (i + 1) code).
    cbn [slept]. rewrite IH. lia.
Qed.

(** What the loop of a poll has gone through when it ends, however it
    ends: [k] calls of [fetch_verification_code], each with its request,
    and [n] sleeps of [interval]. *)
Lemma poll_loop_accounting (self : nat) (since_time : option Z)
    (timeout interval max_retries : Z) :
  forall (remaining : nat) (i : Z) (w : world),
    Py.truthy (email (objects w self)) = true ->
    Z.of_nat remaining + i = max_retries + 1 ->
    let r := loop self since_time timeout interval max_retries remaining i w in
    exists k n : nat,
      (k <= remaining)%nat /\
      (n <= Nat.pred remaining)%nat /\
      (n <= k)%nat /\
      requests_sent (snd r) = (requests_sent w + k)%nat /\
      fetches (steps (trace (snd r))) = (k + fetches (steps (trace w)))%nat /\
      slept (steps (trace (snd r)))
      = Z.of_nat n * interval + slept (steps (trace w)) /\
      (fst r = Returns None -> k = remaining) /\
      (forall c, fst r = Returns (Some c) -> (1 <= k)%nat).
Proof.
  induction remaining as [ | remaining IH]; intros i w Hemail Hlast r;
    subst r.
  - rewrite (poll_loop_end extract_verification_code extract_nontext
               fromisoformat_local list_lt).
    exists 0%nat, 0%nat.
    destruct (formats [timeout]); simpl;
      repeat split; try lia; try discriminate.
  - rewrite (poll_loop_step extract_verification_code extract_nontext
               fromisoformat_local list_lt).
    destruct (formats [i; max_retries]).
    2:{ exists 0%nat, 0%nat. simpl.
        repeat split; try lia; try discriminate. }
    set (w0 := emit (Log info (PollAttempt i max_retries)) w).
    pose proof (fetch_requests self since_time w0) as Hreq.
    destruct (fetch_steps extract_verification_code extract_nontext
                fromisoformat_local list_lt self since_time w0 Hemail)
      as (code & w1 & Hfetch & Hsame & Hsteps & Hcode).
    rewrite Hfetch in Hreq |- *. simpl snd in Hreq.
    change (Py.truthy (email (objects w0 self)))
      with (Py.truthy (email (objects w self))) in Hreq.
    rewrite Hemail in Hreq. simpl in Hreq, Hsteps.
    assert (Hemail1 : Py.truthy (email (objects w1 self)) = true)
      by (destruct Hsame as (_ & _ & Hobj & _); rewrite Hobj; exact Hemail).
    destruct (nonempty code) eqn:Hne.
    + destruct code as [c | ]; [ | discriminate].
      exists 1%nat, 0%nat. simpl. rewrite Hsteps. simpl.
      repeat split; try lia; discriminate.
    + assert (Hnone : code = None)
        by (destruct code as [c | ]; [ | reflexivity];
            assert (Hc : false = true) by (apply Hcode; discriminate);
            discriminate).
      subst code. simpl in Hsteps.
      destruct (i <? max_retries) eqn:Hi;
        [apply Z.ltb_lt in Hi; destruct (sleeps interval) as [[] | e]
        | apply Z.ltb_ge in Hi].
      * destruct (IH (i + 1) (emit (Slept interval) w1) Hemail1)
          as (k & n & Hk & Hn & Hnk & Hr & Hf & Hs & Hall & Hsome); [lia | ].
        simpl in Hr, Hf, Hs. rewrite Hsteps in Hf, Hs. simpl in Hf, Hs.
        exists (S k), (S n).
        refine (conj _ (conj _ (conj _ (conj _ (conj _ (conj _
                  (conj _ _))))))).
        -- lia.
        -- lia.
        -- lia.
        -- rewrite Hr. lia.
        -- rewrite Hf. lia.
        -- rewrite Hs. lia.
        -- intros H. rewrite (Hall H). reflexivity.
        -- intros c _. lia.
      * exists 1%nat, 0%nat. simpl. rewrite Hsteps. simpl.
        repeat split; try lia; discriminate.
      * destruct (IH (i + 1) w1 Hemail1)
          as (k & n & Hk & Hn & Hnk & Hr & Hf & Hs & Hall & Hsome); [lia | ].
        rewrite Hsteps in Hf, Hs. simpl in Hf, Hs.
        exists (S k), n.
        refine (conj _ (conj _ (conj _ (conj _ (conj _ (conj _
                  (conj _ _))))))).
        -- lia.
        -- lia.
        -- lia.
        -- rewrite Hr. lia.
        -- rewrite Hf. lia.
        -- rewrite Hs. lia.
        -- intros H. rewrite (Hall H). reflexivity.
        -- intros c _. lia.
Qed.

(** The same for [poll_for_code], whatever it is called with. *)
Lemma poll_accounting (self : nat) (timeout interval : Z)
    (since_time : option Z) (w : world) :
  let max_retries := Z.max 1 (timeout / interval) in
  let r := poll self timeout interval since_time w in
  exists k n : nat,
    (k <= Z.to_nat max_retries)%nat /\
    (n <= Z.to_nat max_retries - 1)%nat /\
    (n <= k)%nat /\
    requests_sent (snd r) = (requests_sent w + k)%nat /\
    fetches (steps (trace (snd r))) = (k + fetches (steps (trace w)))%nat /\
    slept (steps (trace (snd r)))
    = Z.of_nat n * interval + slept (steps (trace w)) /\
    (Py.truthy (email (objects w self)) = true ->
     fst r = Returns None -> k = Z.to_nat max_retries) /\
    (forall c, fst r = Returns (Some c) -> (1 <= k)%nat) /\
    (Py.truthy (email (objects w self)) = false \/ interval = 0 ->
     k = 0%nat).
Proof.
  intros max_retries r. subst r.
  rewrite (poll_for_code_run extract_verification_code extract_nontext
             fromisoformat_local list_lt).
  assert (Hnothing : forall (e : exn) (w0 : world),
    steps (trace w0) = steps (trace w) ->
    requests_sent w0 = requests_sent w ->
    forall out : outcome (option string),
      (forall c, out <> Returns (Some c)) ->
      (Py.truthy (email (objects w self)) = true -> out <> Returns None) ->
      exists k n : nat,
        (k <= Z.to_nat max_retries)%nat /\
        (n <= Z.to_nat max_retries - 1)%nat /\
        (n <= k)%nat /\
        requests_sent (snd (out, w0)) = (requests_sent w + k)%nat /\
        fetches (steps (trace (snd (out, w0))))
        = (k + fetches (steps (trace w)))%nat /\
        slept (steps (trace (snd (out, w0))))
        = Z.of_nat n * interval + slept (steps (trace w)) /\
        (Py.truthy (email (objects w self)) = true ->
         fst (out, w0) = Returns None -> k = Z.to_nat max_retries) /\
        (forall c, fst (out, w0) = Returns (Some c) -> (1 <= k)%nat) /\
        (Py.truthy (email (objects w self)) = false \/ interval = 0 ->
         k = 0%nat)).
  { intros _ w0 Hst Hrq out Hsome Hnone. exists 0%nat, 0%nat. simpl.
    rewrite Hst, Hrq.
    refine (conj _ (conj _ (conj _ (conj _ (conj _ (conj _ (conj _
              (conj _ _)))))))); try lia; try reflexivity.
    - intros He H. exfalso. exact (Hnone He H).
    - intros c H. exfalso. exact (Hsome c H). }
  destruct (Py.truthy (email (objects w self))) eqn:Hemail.
  2:{ apply (Hnothing ValueError); try reflexivity; discriminate. }
  destruct (interval =? 0) eqn:Hz.
  { apply (Hnothing ValueError); try reflexivity; discriminate. }
  cbv zeta. fold max_retries.
  destruct (formats [timeout; interval; max_retries]).
  2:{ apply (Hnothing ValueError); try reflexivity; discriminate. }
  apply Z.eqb_neq in Hz.
  assert (Hone : 1 <= max_retries) by (unfold max_retries; lia).
  destruct (poll_loop_accounting self since_time timeout interval max_retries
              (Z.to_nat max_retries) 1
              (emit (Log info (PollStart timeout interval max_retries)) w)
              Hemail)
    as (k & n & Hk & Hn & Hnk & Hr & Hf & Hs & Hall & Hsome); [lia | ].
  exists k, n.
  refine (conj Hk (conj _ (conj Hnk (conj Hr (conj Hf (conj Hs (conj _
            (conj Hsome _)))))))).
  - lia.
  - intros _. exact Hall.
  - intros [H | H]; [discriminate | contradiction].
Qed.

(** However [poll_for_code] is called and however it ends, it sends one
    request for each call of [fetch_verification_code] it makes, and it
    makes at most [max(1, timeout // interval)] of them: exactly that
    many when it returns [None] on an instance with an email, at least
    one when it returns a code, none when the instance has no email or
    the interval is zero. *)
Theorem poll_for_code_sends_one_request_per_attempt
    (self : nat) (timeout interval : Z) (since_time : option Z) (w : world) :
  let max_retries := Z.max 1 (timeout / interval) in
  let r := poll self timeout interval since_time w in
  exists k : nat,
    (k <= Z.to_nat max_retries)%nat /\
    fetches (history (snd r)) = (fetches (history w) + k)%nat /\
    requests_sent (snd r) = (requests_sent w + k)%nat /\
    (Py.truthy (email (objects w self)) = true ->
     fst r = Returns None -> k = Z.to_nat max_retries) /\
    (forall c, fst r = Returns (Some c) -> (1 <= k)%nat) /\
    (Py.truthy (email (objects w self)) = false \/ interval = 0 ->
     k = 0%nat).
Proof.
  intros max_retries r.
  destruct (poll_accounting self timeout interval since_time w)
    as (k & n & Hk & _ & _ & Hr & Hf & _ & Hall & Hsome & Hzero).
  fold max_retries in Hk, Hall. fold r in Hr, Hf, Hall, Hsome.
  exists k.
  refine (conj Hk (conj _ (conj Hr (conj Hall (conj Hsome Hzero))))).
  unfold history. rewrite !fetches_rev. lia.
Qed.

(** With a positive interval, the time [poll_for_code] spends sleeping is
    never more than [timeout - interval], and it does not sleep at all
    when [timeout] is below twice the interval or the instance has no
    email. *)
Theorem poll_for_code_sleeps_less_than_timeout
    (self : nat) (timeout interval : Z) (since_time : option Z) (w : world) :
  0 < interval ->
  let w' := snd (poll self timeout interval since_time w) in
  0 <= slept (history w') - slept (history w) <= Z.max 0 (timeout - interval)
  /\ (timeout < 2 * interval -> slept (history w') = slept (history w))
  /\ (Py.truthy (email (objects w self)) = false ->
      slept (history w') = slept (history w)).
Proof.
  intros Hinterval w'.
  destruct (poll_accounting self timeout interval since_time w)
    as (k & n & _ & Hn & Hnk & _ & _ & Hs & _ & _ & Hzero).
  fold w' in Hs. unfold history. rewrite !slept_rev, Hs.
  assert (Hq : timeout / interval * interval <= timeout)
    by (rewrite Z.mul_comm; apply Z.mul_div_le; lia).
  assert (Hn' : Z.of_nat n <= Z.max 1 (timeout / interval) - 1) by lia.
  split; [ | split].
  - split; [nia | ].
    destruct (Z.max_spec 1 (timeout / interval)) as [[Hlt Hm] | [Hge Hm]];
      rewrite Hm in Hn'; nia.
  - intros Hshort.
    assert (Hone : timeout / interval < 2)
      by (apply Z.div_lt_upper_bound; lia).
    assert (n = 0%nat) by lia. subst n. lia.
  - intros Hemail.
    assert (k = 0%nat) by (apply Hzero; left; exact Hemail).
    assert (n = 0%nat) by lia. subst n. lia.
Qed.

(** Called with an interval that is not zero, with numbers that can be
    written in decimal and, when two attempts or more are due, with an
    interval that [time.sleep] accepts, [poll_for_code] returns, and the
    last line it logs tells its three endings apart: the success line
    with the code it returns, the timeout line when it gives up after
    its attempts, and the missing-email line when it did not start. *)
Theorem poll_for_code_last_line_tells_the_outcome
    (self : nat) (timeout interval : Z) (since_time : option Z) (w : world) :
  interval <> 0 ->
  formats [timeout; interval] = Ok tt ->
  (2 <= timeout / interval -> sleeps interval = Ok tt) ->
  exists code w',
    poll self timeout interval since_time w = (Returns code, w') /\
    (code <> None -> nonempty code = true) /\
    hd_error (trace w')
    = Some (match code with
            | Some c => Log info (PollSuccess c)
            | None =>
                if Py.truthy (email (objects w self))
                then Log error (PollTimeout timeout)
                else Log error EmailUnset
            end).
Proof.
  intros Hnz Hfmt Hsleep.
  destruct (Py.truthy (email (objects w self))) eqn:Hemail.
  - destruct (poll_for_code_attempts extract_verification_code extract_nontext
                fromisoformat_local list_lt sleep_refusal int_max_str_digits
                self timeout interval since_time w Hnz Hfmt Hsleep Hemail)
      as (code & w1 & k & Hrun & _ & _ & _ & _ & Hfound).
    exists code, (emit (closing_line timeout code) w1).
    refine (conj Hrun (conj Hfound _)). destruct code; reflexivity.
  - rewrite (poll_for_code_run extract_verification_code extract_nontext
               fromisoformat_local list_lt), Hemail.
    exists None. eexists. repeat split. congruence.
Qed.


(** ** The order of messages received at the same time *)

Lemma string_ltb_irrefl (s : string) : String.ltb s s = false.
Proof.
  unfold String.ltb. pose proof (String.compare_antisym s s) as H.
  destruct (String.compare s s); simpl in H; congruence.
Qed.

Lemma insert_desc_stable (s : string) (kx : pyval * pyval) :
  keyed kx ->
  forall l r,
    Forall keyed l ->
    insert_desc list_lt kx l = Ok r ->
    filter (fun p => String.eqb (Spec.received_time (snd p)) s) r
    = filter (fun p => String.eqb (Spec.received_time (snd p)) s) (kx :: l).
Proof.
  intros Hkx.
  induction l as [ | ky l IH]; intros r Hkeys Hr; simpl in Hr.
  - injection Hr as <-. reflexivity.
  - inversion Hkeys as [ | ? ? Hky Hkl]; subst.
    unfold keyed in Hkx, Hky. rewrite Hkx, Hky in Hr. simpl in Hr.
    destruct (String.ltb (Spec.received_time (snd kx))
                (Spec.received_time (snd ky))) eqn:Hlt.
    + destruct (insert_desc list_lt kx l) as [r' | e] eqn:Hr';
        [ | discriminate].
      simpl in Hr. injection Hr as <-.
      specialize (IH r' Hkl eq_refl).
      cbn [filter] in *. rewrite IH.
      destruct (String.eqb (Spec.received_time (snd kx)) s) eqn:Ex;
        destruct (String.eqb (Spec.received_time (snd ky)) s) eqn:Ey;
        try reflexivity.
      apply String.eqb_eq in Ex. apply String.eqb_eq in Ey.
      rewrite Ex, Ey, string_ltb_irrefl in Hlt. discriminate.
    + injection Hr as <-. reflexivity.
Qed.

Lemma sort_desc_stable (s : string) :
  forall l r,
    Forall keyed l ->
    sort_desc list_lt l = Ok r ->
    filter (fun p => String.eqb (Spec.received_time (snd p)) s) r
    = filter (fun p => String.eqb (Spec.received_time (snd p)) s) l.
Proof.
  induction l as [ | kx l IH]; intros r Hkeys Hr; simpl in Hr.
  - injection Hr as <-. reflexivity.
  - inversion Hkeys as [ | ? ? Hkx Hkl]; subst.
    destruct (sort_desc_sorted list_lt l Hkl) as (r' & Hr' & _ & Hkr' & _).
    rewrite Hr' in Hr. simpl in Hr.
    rewrite (insert_desc_stable s kx Hkx r' r Hkr' Hr).
    cbn [filter]. rewrite (IH r' Hkl Hr'). reflexivity.
Qed.

Lemma filter_map_snd {A B} (f : B -> bool) (l : list (A * B)) :
  filter f (map snd l) = map snd (filter (fun p => f (snd p)) l).
Proof.
  induction l as [ | p l IH]; simpl; [reflexivity | ].
  destruct (f (snd p)); simpl; now rewrite IH.
Qed.

(** The sort is stable.  On well-formed messages, those that carry the
    same [received_time] are scanned in the order in which the service
    listed them. *)
Theorem equal_timestamps_keep_inbox_order (emails : list pyval) :
  Forall (fun m => Spec.message_ok m = true) emails ->
  exists sorted,
    sorted_newest_first list_lt emails = Ok sorted /\
    forall s, at_time s sorted = at_time s emails.
Proof.
  intros Hok.
  destruct (sorted_newest_first_ok list_lt emails Hok)
    as (sorted & Hsorted & _).
  exists sorted. split; [exact Hsorted | ]. intros s.
  unfold sorted_newest_first in Hsorted.
  rewrite (map_sort_key emails Hok) in Hsorted. simpl in Hsorted.
  rewrite combine_map_self in Hsorted.
  destruct (sort_desc list_lt _) as [r | e] eqn:Hr; [ | discriminate].
  simpl in Hsorted. injection Hsorted as <-.
  assert (Hkeys :
    Forall keyed (map (fun m => (PStr (Spec.received_time m), m)) emails))
    by (apply Forall_map, Forall_forall; intros m _; reflexivity).
  unfold at_time. rewrite filter_map_snd.
  rewrite (sort_desc_stable s _ r Hkeys Hr).
  rewrite <- (filter_map_snd
                (fun m => String.eqb (Spec.received_time m) s)).
  rewrite map_map. simpl. now rewrite map_id.
Qed.

(** ** Inboxes that yield nothing *)

Lemma sort_key_of_non_object (m : pyval) :
  is_dict m = false -> sort_key m = Raise AttributeError.
Proof. destruct m; simpl; intros H; try reflexivity. discriminate. Qed.

Lemma sort_key_never_raises_otherwise (m : pyval) (e : exn) :
  sort_key m = Raise e -> e = AttributeError.
Proof.
  destruct m; simpl; intros H; try (injection H as <-; reflexivity).
  discriminate.
Qed.

Lemma map_sort_key_raises (l : list pyval) :
  Exists (fun m => is_dict m = false) l ->
  map_result sort_key l = Raise AttributeError.
Proof.
  induction l as [ | m l IH]; intros H; [inversion H | ].
  simpl. destruct (sort_key m) as [k | e] eqn:Hk; simpl.
  - inversion H as [? ? Hm | ? ? Hl]; subst.
    + rewrite (sort_key_of_non_object m Hm) in Hk. discriminate.
    + rewrite (IH Hl). reflexivity.
  - now rewrite (sort_key_never_raises_otherwise m e Hk).
Qed.

(** One entry of the inbox that is not an object hides every code: the
    sort key raises on it before any message is looked at, the exception
    is logged and [fetch_verification_code] returns [None], whatever the
    other messages hold. *)
Theorem one_ill_shaped_message_hides_every_code
    (self : nat) (since_time : option Z) (w : world)
    (d : list (string * pyval)) (emails : list pyval) :
  Py.truthy (email (objects w self)) = true ->
  remote w (requests_sent w)
    (request_of (objects w self) "GET"
       (InboxUrl (base_url (objects w self)) (email (objects w self))))
  = Answer {| status_code := 200; res_content := Json (PDict d) |} ->
  Py.truthy (Spec.lookup d "success") = true ->
  Spec.lookup d "emails" = PList emails ->
  Exists (fun m => is_dict m = false) emails ->
  exists w',
    fetch self since_time w = (Returns None, w') /\
    hd_error (trace w')
    = Some (Log error (FetchCodeException AttributeError)).
Proof.
  intros Hemail Hans Hsuccess Hemails Hbad.
  unfold fetch_verification_code, bind, read_self, get_world, ret.
  simpl. rewrite Hemail. simpl.
  unfold try_except, fetch_verification_code_try, bind, _log, modify, ret.
  pose proof (list_emails_healthy self (email (objects w self))
                (emit (Log info (PullingEmails (email (objects w self)))) w)
                d emails Hans Hsuccess Hemails) as Hlist.
  destruct (_list_emails self (email (objects w self)) _) as [r w1].
  simpl in Hlist. subst r.
  assert (Htrue : Py.truthy (PList emails) = true)
    by (destruct emails; [inversion Hbad | reflexivity]).
  rewrite Htrue. change (negb true) with false. cbv beta iota.
  unfold sorted_newest_first. rewrite (map_sort_key_raises emails Hbad).
  simpl. eexists. split; reflexivity.
Qed.

Lemma scan_all_old (since_time : option Z) (emails : list pyval) :
  Forall (fun m => too_old fromisoformat_local since_time m = Ok true) emails ->
  forall idx skipped w,
    scan' since_time emails idx skipped w
    = (Returns None,
       emit (Log warning NoCodeFound)
         (if negb (skipped + Z.of_nat (List.length emails) =? 0)
          then emit (Log info (OldEmailsSkipped
                                 (skipped + Z.of_nat (List.length emails)))) w
          else w)).
Proof.
  induction 1 as [ | m rest Hm _ IH]; intros idx skipped w.
  - simpl. rewrite Z.add_0_r. unfold bind, _log, modify, ret.
    destruct (negb (skipped =? 0)); reflexivity.
  - simpl scan. unfold bind at 1, lift at 1. rewrite Hm.
    rewrite IH.
    replace (skipped + 1 + Z.of_nat (List.length rest))
      with (skipped + Z.of_nat (List.length (m :: rest)))
      by (simpl List.length; lia).
    reflexivity.
Qed.

(** When every message of a healthy inbox was received before
    [since_time], no message is checked: [fetch_verification_code]
    returns [None], and its last two lines are the number of messages
    skipped, which is the size of the inbox, and the not-found warning. *)
Theorem all_messages_older_than_since_time
    (self : nat) (since : Z) (w : world)
    (d : list (string * pyval)) (emails : list pyval) :
  Py.truthy (email (objects w self)) = true ->
  remote w (requests_sent w)
    (request_of (objects w self) "GET"
       (InboxUrl (base_url (objects w self)) (email (objects w self))))
  = Answer {| status_code := 200; res_content := Json (PDict d) |} ->
  Py.truthy (Spec.lookup d "success") = true ->
  Spec.lookup d "emails" = PList emails ->
  emails <> [] ->
  Forall (fun m => Spec.message_ok m = true) emails ->
  Forall (fun m => Spec.earlier_than fromisoformat_local since m = true)
    emails ->
  exists w',
    fetch self (Some since) w = (Returns None, w') /\
    firstn 2 (trace w')
    = [Log warning NoCodeFound;
       Log info (OldEmailsSkipped (Z.of_nat (List.length emails)))].
Proof.
  intros Hemail Hans Hsuccess Hemails Hne Hok Hold.
  destruct (sorted_newest_first_ok list_lt emails Hok)
    as (sorted & Hsorted & Hperm & _).
  unfold fetch_verification_code, bind, read_self, get_world, ret.
  simpl. rewrite Hemail. simpl.
  unfold try_except, fetch_verification_code_try, bind, _log, modify, ret.
  pose proof (list_emails_healthy self (email (objects w self))
                (emit (Log info (PullingEmails (email (objects w self)))) w)
                d emails Hans Hsuccess Hemails) as Hlist.
  destruct (_list_emails self (email (objects w self)) _) as [r w1].
  simpl in Hlist. subst r.
  assert (Htrue : Py.truthy (PList emails) = true)
    by (destruct emails; [contradiction | reflexivity]).
  rewrite Htrue. change (negb true) with false. cbv beta iota.
  rewrite Hsorted. unfold lift. cbv beta iota.
  assert (Hall : Forall
            (fun m => too_old fromisoformat_local (Some since) m = Ok true)
            sorted).
  { apply (Permutation_Forall Hperm).
    rewrite Forall_forall in *. intros m Hin.
    specialize (Hok m Hin). specialize (Hold m Hin).
    destruct m as [ | | | | | dm]; try discriminate.
    rewrite (too_old_run fromisoformat_local (Some since) dm).
    now rewrite Hold. }
  rewrite (scan_all_old (Some since) sorted Hall).
  rewrite <- (Permutation_length Hperm).
  assert (Hlen : (0 + Z.of_nat (List.length emails) =? 0) = false)
    by (apply Z.eqb_neq; destruct emails; [contradiction | simpl; lia]).
  rewrite Hlen. eexists. split; reflexivity.
Qed.

(** ** Clients without a usable email *)

Lemma fetch_stops_without_email (self : nat) (since_time : option Z)
    (w : world) :
  Py.truthy (email (objects w self)) = false ->
  fetch self since_time w = (Returns None, emit (Log error EmailUnset) w).
Proof.
  intros H.
  unfold fetch_verification_code, bind, read_self, get_world, ret.
  simpl. rewrite H. reflexivity.
Qed.

Lemma poll_stops_without_email (self : nat) (timeout interval : Z)
    (since_time : option Z) (w : world) :
  Py.truthy (email (objects w self)) = false ->
  poll self timeout interval since_time w
  = (Returns None, emit (Log error EmailUnset) w).
Proof.
  intros H.
  rewrite (poll_for_code_run extract_verification_code extract_nontext
             fromisoformat_local list_lt).
  rewrite H. reflexivity.
Qed.

(** [register_account] does not look at the email it selects: when the
    account it picks has no email (or an empty one) the call still
    returns [True], and the instance is left without an email, so that
    every later [fetch_verification_code] and [poll_for_code] returns
    [None] at once, without a request, whatever the interval. *)
Theorem registration_succeeds_without_an_email
    (fuel self : nat) (w w1 : world) (pool : list pyval)
    (d : list (string * pyval)) :
  _fetch_accounts fuel self (emit (Log info FetchingPool) w)
  = (Returns pool, w1) ->
  nth_error pool
    (Z.to_nat (_account_index w mod Z.of_nat (List.length pool)))
  = Some (PDict d) ->
  Py.truthy (Spec.lookup d "email") = false ->
  exists w',
    register_account fuel self w = (Returns true, w') /\
    email (objects w' self) = Spec.lookup d "email" /\
    (forall since_time,
        fetch self since_time w'
        = (Returns None, emit (Log error EmailUnset) w')) /\
    (forall timeout interval since_time,
        poll self timeout interval since_time w'
        = (Returns None, emit (Log error EmailUnset) w')).
Proof.
  intros Hfetch Hnth Hfalsy.
  pose proof (register_fetch_same_state fuel self w) as (Hi & _ & _ & _).
  rewrite Hfetch in Hi. simpl in Hi.
  rewrite register_account_run, Hfetch.
  destruct pool as [ | a pool]; [destruct (Z.to_nat _); discriminate | ].
  remember (a :: pool) as l eqn:Hl.
  assert (Hpos : 0 < Z.of_nat (List.length l)) by (subst l; simpl; lia).
  cbv zeta. rewrite Hi.
  rewrite (index_in_range l _ (Z.mod_pos_bound (_account_index w) _ Hpos)).
  rewrite Hnth.
  eexists. split; [reflexivity | ].
  assert (Hemail :
    email (objects
             (selected self l d
                (_account_index w mod Z.of_nat (List.length l)) w1) self)
    = Spec.lookup d "email")
    by (unfold selected; simpl; rewrite Nat.eqb_refl; reflexivity).
  split; [exact Hemail | split].
  - intros since_time. apply fetch_stops_without_email.
    rewrite Hemail. exact Hfalsy.
  - intros timeout interval since_time. apply poll_stops_without_email.
    rewrite Hemail. exact Hfalsy.
Qed.

(** A client that has just been constructed has no email: until
    [register_account] or [set_credentials] is called,
    [fetch_verification_code] and [poll_for_code] return [None] at once,
    without a request, even with an interval of zero. *)
Theorem fresh_client_finds_nothing
    (self : nat) (base proxy : pyval) (w w' : world) :
  __init__ self base proxy w = (Returns tt, w') ->
  (forall since_time,
      fetch self since_time w'
      = (Returns None, emit (Log error EmailUnset) w')) /\
  (forall timeout interval since_time,
      poll self timeout interval since_time w'
      = (Returns None, emit (Log error EmailUnset) w')).
Proof.
  intros Hinit.
  assert (Hemail : email (objects w' self) = PNone).
  { unfold __init__, bind, lift, modify, set_email, set_account_id in Hinit.
    destruct (py_rstrip_slash _) as [b | e]; [ | discriminate].
    destruct (py_strip _) as [p | e]; [ | discriminate].
    injection Hinit as <-. simpl. now rewrite !Nat.eqb_refl. }
  split.
  - intros since_time. apply fetch_stops_without_email.
    now rewrite Hemail.
  - intros timeout interval since_time. apply poll_stops_without_email.
    now rewrite Hemail.
Qed.

(** ** Which inbox is read *)

Lemma extends_refl (w : world) : extends w w.
Proof. now exists []. Qed.

Lemma extends_trans (w1 w2 w3 : world) :
  extends w1 w2 -> extends w2 w3 -> extends w1 w3.
Proof.
  intros [n1 H1] [n2 H2]. exists (n2 ++ n1).
  now rewrite H2, H1, app_assoc.
Qed.

Lemma line_per_request_refl (w : world) : line_per_request w w.
Proof. unfold line_per_request. lia. Qed.

Lemma line_per_request_trans (w1 w2 w3 : world) :
  line_per_request w1 w2 -> line_per_request w2 w3 ->
  line_per_request w1 w3.
Proof. unfold line_per_request. lia. Qed.

Ltac extends_step :=
  first
    [ apply (keeps_ret extends extends_refl)
    | apply (keeps_lift extends extends_refl)
    | apply (keeps_get_world extends extends_refl)
    | apply (keeps_out_of_fuel extends extends_refl)
    | apply (keeps_modify extends); intro;
      solve [ exists []; reflexivity | eexists (_ :: nil); reflexivity ]
    | apply (keeps_bind extends extends_trans); [ | intros ]
    | apply (keeps_try_except extends extends_trans); [ | intros ]
    | match goal with
      | |- keeps _ (if ?b then _ else _) => destruct b
      | |- keeps _ (match ?x with _ => _ end) => destruct x
      end ].

Ltac line_step :=
  first
    [ apply (keeps_ret line_per_request line_per_request_refl)
    | apply (keeps_lift line_per_request line_per_request_refl)
    | apply (keeps_get_world line_per_request line_per_request_refl)
    | apply (keeps_modify line_per_request); intro;
      solve [ unfold line_per_request; simpl; lia ]
    | apply (keeps_bind line_per_request line_per_request_trans);
      [ | intros ]
    | apply (keeps_try_except line_per_request line_per_request_trans);
      [ | intros ]
    | match goal with
      | |- keeps _ (if ?b then _ else _) => destruct b
      | |- keeps _ (match ?x with _ => _ end) => destruct x
      end ].

Lemma extends_request (self : nat) (method : string) (u : url) :
  keeps extends (_request self method u).
Proof.
  unfold _request, requests_request, _log, read_self.
  repeat extends_step.
Qed.

Lemma extends_list_emails (self : nat) (address : pyval) :
  keeps extends (_list_emails self address).
Proof.
  unfold _list_emails, _list_emails_try, _log, read_self.
  repeat first [ apply extends_request | extends_step ].
Qed.

Lemma extends_scan (since_time : option Z) (emails : list pyval) :
  forall idx skipped, keeps extends (scan' since_time emails idx skipped).
Proof.
  induction emails as [ | msg rest IH]; intros idx skipped; simpl;
    unfold _log.
  - repeat extends_step.
  - apply (keeps_bind extends extends_trans); [extends_step | intros old].
    destruct old; [apply IH | ].
    repeat first [ apply IH | extends_step ].
Qed.

(** Every request goes with the line that announces it. *)
Lemma line_per_request_request (self : nat) (method : string) (u : url) :
  keeps line_per_request (_request self method u).
Proof.
  intro w. unfold _request, requests_request, bind, _log, read_self,
    get_world, modify, ret, lift, line_per_request. simpl.
  destruct (remote w (requests_sent w) _); simpl; lia.
Qed.

Lemma line_per_request_list_emails (self : nat) (address : pyval) :
  keeps line_per_request (_list_emails self address).
Proof.
  unfold _list_emails, _list_emails_try, _log, read_self.
  repeat first [ apply line_per_request_request | line_step ].
Qed.

Lemma line_per_request_scan (since_time : option Z) (emails : list pyval) :
  forall idx skipped,
    keeps line_per_request (scan' since_time emails idx skipped).
Proof.
  induction emails as [ | msg rest IH]; intros idx skipped; simpl;
    unfold _log.
  - repeat line_step.
  - apply (keeps_bind line_per_request line_per_request_trans);
      [line_step | intros old].
    destruct old; [apply IH | ].
    repeat first [ apply IH | line_step ].
Qed.

Lemma line_per_request_fetch (self : nat) (since_time : option Z) :
  keeps line_per_request (fetch self since_time).
Proof.
  unfold fetch_verification_code, fetch_verification_code_try, _log,
    read_self.
  repeat first [ apply line_per_request_scan
               | apply line_per_request_list_emails | line_step ].
Qed.

Lemma leaves_log_then {A} (self : nat) (o : instance) (lv : level)
    (msg : message) (m : M A) :
  keeps extends m -> leaves self o [Log lv msg] (_log lv msg ;; m).
Proof.
  intros Hm w _. unfold bind, _log, modify.
  destruct (Hm (emit (Log lv msg) w)) as [new Hnew].
  exists new. rewrite Hnew. reflexivity.
Qed.

Lemma leaves_log_before {A} (self : nat) (o : instance) (lv : level)
    (msg : message) (marks : list event) (m : M A) :
  leaves self o marks m ->
  leaves self o (marks ++ [Log lv msg]) (_log lv msg ;; m).
Proof.
  intros Hm w Ho. unfold bind, _log, modify.
  destruct (Hm (emit (Log lv msg) w) Ho) as [new Hnew].
  exists new. rewrite Hnew. simpl. now rewrite <- app_assoc.
Qed.

Lemma leaves_bind {A B} (self : nat) (o : instance) (marks : list event)
    (m : M A) (k : A -> M B) :
  leaves self o marks m -> (forall a, keeps extends (k a)) ->
  leaves self o marks (bind m k).
Proof.
  intros Hm Hk w Ho. unfold bind.
  destruct (Hm w Ho) as [new Hnew].
  destruct (m w) as [[a | e | ] w1]; simpl in *; try (now exists new).
  destruct (Hk a w1) as [more Hmore].
  exists (more ++ new). now rewrite Hmore, Hnew, app_assoc.
Qed.

Lemma leaves_try_except {A} (self : nat) (o : instance)
    (marks : list event) (m : M A) (h : exn -> M A) :
  leaves self o marks m -> (forall e, keeps extends (h e)) ->
  leaves self o marks (try_except m h).
Proof.
  intros Hm Hh w Ho. unfold try_except.
  destruct (Hm w Ho) as [new Hnew].
  destruct (m w) as [[a | e | ] w1]; simpl in *; try (now exists new).
  destruct (Hh e w1) as [more Hmore].
  exists (more ++ new). now rewrite Hmore, Hnew, app_assoc.
Qed.

Lemma leaves_read_self {A} (self : nat) (o : instance)
    (marks : list event) (k : instance -> M A) :
  leaves self o marks (k o) ->
  leaves self o marks (bind (read_self self) k).
Proof.
  intros Hk w Ho. unfold bind, read_self, get_world, ret. simpl.
  rewrite Ho. apply Hk. exact Ho.
Qed.

Lemma sendings_app (l m : list event) :
  sendings (l ++ m) = (sendings l + sendings m)%nat.
Proof.
  induction l as [ | [lv [ | | | | | | | | | | | | | | | | | | | | | | | ] | ] l IH];
    simpl; try rewrite IH; reflexivity.
Qed.

Lemma fetch_trace_marks
    (self : nat) (since_time : option Z) (w : world) :
  Py.truthy (email (objects w self)) = true ->
  let o := objects w self in
  exists new,
    trace (snd (fetch self since_time w))
    = new
      ++ [Log info (SendingRequest "GET" (InboxUrl (base_url o) (email o)));
          Log info (PullingEmails (email o))]
      ++ trace w /\
    sendings new = 0%nat.
Proof.
  intros Hemail o.
  assert (Hleaves :
    leaves self o
      [Log info (SendingRequest "GET" (InboxUrl (base_url o) (email o)));
       Log info (PullingEmails (email o))]
      (try_except
         (fetch_verification_code_try extract_verification_code
            extract_nontext fromisoformat_local list_lt self (email o)
            since_time)
         (fun e => _log error (FetchCodeException e) ;; ret None))).
  { apply leaves_try_except;
      [ | intros e; unfold _log; repeat extends_step].
    unfold fetch_verification_code_try.
    apply (leaves_log_before self o info (PullingEmails (email o))
             [Log info (SendingRequest "GET"
                          (InboxUrl (base_url o) (email o)))]).
    apply leaves_bind.
    - unfold _list_emails. apply leaves_read_self.
      apply leaves_try_except;
        [ | intros e; unfold _log; repeat extends_step].
      unfold _list_emails_try. apply leaves_bind.
      + unfold _request. apply leaves_log_then.
        unfold requests_request, _log, read_self. repeat extends_step.
      + intros res. unfold _log. repeat extends_step.
    - intros emails. unfold _log.
      repeat first [ apply extends_scan | extends_step ]. }
  pose proof (fetch_requests self since_time w) as Hreq.
  pose proof (line_per_request_fetch self since_time w) as Hline.
  rewrite Hemail in Hreq. unfold line_per_request in Hline.
  assert (Hrun :
    fetch self since_time w
    = try_except
        (fetch_verification_code_try extract_verification_code
           extract_nontext fromisoformat_local list_lt self (email o)
           since_time)
        (fun e => _log error (FetchCodeException e) ;; ret None) w).
  { unfold fetch_verification_code, bind, read_self, get_world, ret.
    simpl. fold o. subst o. rewrite Hemail. reflexivity. }
  rewrite Hrun in *.
  destruct (Hleaves w eq_refl) as [new Hnew].
  exists new. split; [exact Hnew | ].
  rewrite Hnew, !sendings_app in Hline. simpl in Hline. lia.
Qed.

(** The only request [fetch_verification_code] makes is for the inbox of
    the email the instance holds at that moment, on the instance's
    [base_url]: the call first logs that it pulls that address, then
    announces a GET of that inbox, and announces no other request. *)
Theorem fetch_reads_the_inbox_of_the_current_email
    (self : nat) (since_time : option Z) (w : world) :
  Py.truthy (email (objects w self)) = true ->
  let o := objects w self in
  exists new,
    trace (snd (fetch self since_time w))
    = new
      ++ [Log info (SendingRequest "GET" (InboxUrl (base_url o) (email o)));
          Log info (PullingEmails (email o))]
      ++ trace w /\
    sendings new = 0%nat.
Proof. apply fetch_trace_marks. Qed.

(** [set_credentials] with a non-empty address replaces the email of the
    instance, whatever [register_account] had selected, and nothing
    else: the account id, the URLs, the other instances and the class
    attributes stay, and nothing is logged.  The next
    [fetch_verification_code] reads the inbox of the given address. *)
Theorem set_credentials_redirects_the_scan
    (self : nat) (address : string) (since_time : option Z) (w : world) :
  address <> "" ->
  let w1 := snd (set_credentials self address w) in
  fst (set_credentials self address w) = Returns tt /\
  email (objects w1 self) = PStr address /\
  account_id (objects w1 self) = account_id (objects w self) /\
  base_url (objects w1 self) = base_url (objects w self) /\
  proxy_url (objects w1 self) = proxy_url (objects w self) /\
  (forall other, other <> self -> objects w1 other = objects w other) /\
  _account_index w1 = _account_index w /\
  _accounts_cache w1 = _accounts_cache w /\
  trace w1 = trace w /\
  exists new,
    trace (snd (fetch self since_time w1))
    = new
      ++ [Log info (SendingRequest "GET"
                      (InboxUrl (base_url (objects w self)) (PStr address)));
          Log info (PullingEmails (PStr address))]
      ++ trace w /\
    sendings new = 0%nat.
Proof.
  intros Hne w1.
  assert (Hself : objects w1 self
                  = {| base_url := base_url (objects w self);
                       proxy_url := proxy_url (objects w self);
                       email := PStr address;
                       account_id := account_id (objects w self) |})
    by (subst w1; simpl; now rewrite Nat.eqb_refl).
  refine (conj eq_refl (conj _ (conj _ (conj _ (conj _ (conj _
            (conj eq_refl (conj eq_refl (conj eq_refl _))))))))).
  - now rewrite Hself.
  - now rewrite Hself.
  - now rewrite Hself.
  - now rewrite Hself.
  - intros other Hother. subst w1. simpl.
    apply Nat.eqb_neq in Hother. now rewrite Hother.
  - assert (Htruthy : Py.truthy (email (objects w1 self)) = true).
    { rewrite Hself. simpl. apply negb_true_iff, String.eqb_neq. exact Hne. }
    destruct (fetch_trace_marks self since_time w1 Htruthy) as (new & Hnew & Hs).
    exists new. rewrite Hself in Hnew. split; [exact Hnew | exact Hs].
Qed.

End Beyond.

(** ** The further properties at work on sample runs *)

(** A pool of exactly one hundred accounts costs two requests. *)
Lemma hundred_accounts_cost_two_requests :
  requests_sent
    (snd (register_account 2 0
            (fresh_world (accounts_service pool_of_hundred))))
  = (requests_sent (fresh_world (accounts_service pool_of_hundred))
     + List.length pool_of_hundred / 100 + 1)%nat.
Proof.
  apply (register_account_request_count pool_of_hundred 2 0
           (fresh_world (accounts_service pool_of_hundred))).
  - reflexivity.
  - vm_compute. lia.
Defined.

(** Five turns on a service that always has a full page: still going. *)
Lemma five_full_pages_and_counting :
  fst (register_account 5 0 (fresh_world (endless_service pool_of_hundred)))
  = OutOfFuel /\
  requests_sent
    (snd (register_account 5 0
            (fresh_world (endless_service pool_of_hundred))))
  = (requests_sent (fresh_world (endless_service pool_of_hundred)) + 5)%nat.
Proof.
  apply (register_account_never_returns_on_full_pages pool_of_hundred 5 0
           (fresh_world (endless_service pool_of_hundred))).
  - reflexivity.
  - vm_compute. lia.
Defined.

(** A pool whose only entry is a string. *)
Lemma string_in_the_pool_raises :
  let w := fresh_world (accounts_service [PStr "oops"]) in
  exists w',
    register_account 1 0 w = (Raises AttributeError, w') /\
    _accounts_cache w' = [PStr "oops"] /\
    objects w' = objects w /\
    _account_index w' = _account_index w.
Proof.
  apply (register_account_raises_on_ill_shaped_account 1 0
           (fresh_world (accounts_service [PStr "oops"]))
           (snd (_fetch_accounts 1 0
                   (emit (Log info FetchingPool)
                      (fresh_world (accounts_service [PStr "oops"])))))
           [PStr "oops"] (PStr "oops")).
  - reflexivity.
  - reflexivity.
  - reflexivity.
Defined.

(** Four calls by three instances go round a pool of three. *)
Lemma three_instances_share_the_rotation :
  let w := fresh_world (accounts_service pool_of_three) in
  Forall2
    (fun ks r =>
       selects pool_of_three (snd ks)
         ((_account_index w + Z.of_nat (fst ks))
          mod Z.of_nat (List.length pool_of_three)) r)
    (combine (seq 0 (List.length [0; 1; 0; 2]%nat)) [0; 1; 0; 2]%nat)
    (register_rounds_by [0; 1; 0; 2]%nat 1 w).
Proof.
  apply (rotation_is_shared_by_instances pool_of_three [0; 1; 0; 2]%nat 1
           (fresh_world (accounts_service pool_of_three))).
  - discriminate.
  - repeat constructor.
  - reflexivity.
  - simpl. lia.
Defined.

(** A URL with two trailing slashes and a proxy between spaces. *)
Lemma init_on_untidy_arguments :
  let base := PStr "http://mail.example.com//" in
  let proxy := PStr "  http://proxy:8080 " in
  let w := fresh_world (accounts_service pool_of_three) in
  exists w',
    __init__ 1 base proxy w = (Returns tt, w') /\
    (exists slashes,
        "http://mail.example.com//"
        = (base_url (objects w' 1) ++ slashes)%string /\
        all_chars is_slash slashes = true) /\
    ends_with is_slash (base_url (objects w' 1)) = false /\
    (exists before after,
        "  http://proxy:8080 "
        = (before ++ proxy_url (objects w' 1) ++ after)%string /\
        all_chars isspace before = true /\
        all_chars isspace after = true) /\
    starts_with isspace (proxy_url (objects w' 1)) = false /\
    ends_with isspace (proxy_url (objects w' 1)) = false /\
    email (objects w' 1) = PNone /\
    account_id (objects w' 1) = PNone /\
    _account_index w' = _account_index w /\
    _accounts_cache w' = _accounts_cache w /\
    (forall other, other <> 1%nat -> objects w' other = objects w other).
Proof.
  apply (init_normalises 1 (PStr "http://mail.example.com//")
           (PStr "  http://proxy:8080 ")
           (fresh_world (accounts_service pool_of_three)));
    reflexivity.
Defined.

(** The same construction, run. *)
Example untidy_arguments_run :
  let w' := snd (__init__ 1 (PStr "http://mail.example.com//")
                   (PStr "  http://proxy:8080 ")
                   (fresh_world (accounts_service pool_of_three))) in
  base_url (objects w' 1) = "http://mail.example.com" /\
  proxy_url (objects w' 1) = "http://proxy:8080".
Proof. split; reflexivity. Qed.

(** Two failed attempts: two requests.  A poll whose first sleep is
    refused: one request. *)
Example two_attempts_two_requests :
  let w := world_with_email (inbox_service (inbox_of [])) "ann@outlook.com" in
  let poll :=
    poll_for_code six_digits no_nontext morning_clock no_list_lt int64_clock
      default_max_str_digits 0 in
  (fst (poll 10 5 None w) = Returns None /\
   requests_sent (snd (poll 10 5 None w)) = (requests_sent w + 2)%nat) /\
  (fst (poll 20000000000 10000000000 None w) = Raises OverflowError /\
   requests_sent (snd (poll 20000000000 10000000000 None w))
   = (requests_sent w + 1)%nat).
Proof. repeat split; vm_compute; reflexivity. Qed.

(** The same poll sleeps five seconds, the most the bound allows. *)
Lemma ten_by_five_sleeps_five :
  let w := world_with_email (inbox_service (inbox_of [])) "ann@outlook.com" in
  let w' := snd (poll_for_code six_digits no_nontext morning_clock no_list_lt
                   int64_clock default_max_str_digits 0 10 5 None w) in
  0 <= slept (history w') - slept (history w) <= Z.max 0 (10 - 5)
  /\ (10 < 2 * 5 -> slept (history w') = slept (history w))
  /\ (Py.truthy (email (objects w 0)) = false ->
      slept (history w') = slept (history w)).
Proof.
  apply (poll_for_code_sleeps_less_than_timeout six_digits no_nontext
           morning_clock no_list_lt int64_clock default_max_str_digits
           0 10 5 None
           (world_with_email (inbox_service (inbox_of [])) "ann@outlook.com")).
  lia.
Defined.

(** The poll that finds the code of the older message ends on the
    success line. *)
Lemma successful_poll_ends_on_success_line :
  let w := world_with_email (inbox_service (inbox_of inbox_of_two))
             "ann@outlook.com" in
  exists code w',
    poll_for_code six_digits no_nontext morning_clock no_list_lt int64_clock
      default_max_str_digits 0 10 5 None w
    = (Returns code, w') /\
    (code <> None -> nonempty code = true) /\
    hd_error (trace w')
    = Some (match code with
            | Some c => Log info (PollSuccess c)
            | None =>
                if Py.truthy (email (objects w 0))
                then Log error (PollTimeout 10)
                else Log error EmailUnset
            end).
Proof.
  apply (poll_for_code_last_line_tells_the_outcome six_digits no_nontext
           morning_clock no_list_lt int64_clock default_max_str_digits
           0 10 5 None
           (world_with_email (inbox_service (inbox_of inbox_of_two))
              "ann@outlook.com")).
  - discriminate.
  - vm_compute. reflexivity.
  - intros _. reflexivity.
Defined.

(** The three ways out of a poll, run: an interval of zero; a timeout
    of 4301 digits, where one of 4300 digits passes; an interval beyond
    the clock. *)
Example three_ways_out_run :
  let w := world_with_email (inbox_service (inbox_of [])) "ann@outlook.com" in
  let poll :=
    poll_for_code six_digits no_nontext morning_clock no_list_lt int64_clock
      default_max_str_digits 0 in
  fst (poll 10 0 None w) = Raises ZeroDivisionError /\
  fst (poll (10 ^ 4300) 5 None w) = Raises ValueError /\
  fst (poll (10 ^ 4300 - 1) (10 ^ 4300 - 1) None w) = Returns None /\
  fst (poll 20000000000 10000000000 None w) = Raises OverflowError /\
  fst (poll 18446744072 9223372036 None w) = Raises OSError.
Proof. repeat split; vm_compute; reflexivity. Qed.

(** The twins stay in the order of the inbox, after the newer message. *)
Lemma twins_keep_their_order :
  exists sorted,
    sorted_newest_first no_list_lt inbox_of_twins = Ok sorted /\
    forall s, at_time s sorted = at_time s inbox_of_twins.
Proof.
  apply (equal_timestamps_keep_inbox_order no_list_lt inbox_of_twins).
  repeat constructor.
Defined.

(** The same inbox, run: the code of the second twin is found after the
    first twin was checked. *)
Example twins_run :
  let r := fetch_verification_code six_digits no_nontext morning_clock
             no_list_lt 0 None
             (world_with_email (inbox_service (inbox_of inbox_of_twins))
                "ann@outlook.com") in
  fst r = Returns (Some "654321") /\
  firstn 4 (trace (snd r))
  = [Log info (CodeFound "654321");
     Log info (CheckingEmail 3 (PStr "Second"));
     Log info (CheckingEmail 2 (PStr "First"));
     Log info (CheckingEmail 1 (PStr "Third"))].
Proof. split; reflexivity. Qed.

(** A code is in the inbox, and so is a string: nothing is found. *)
Lemma junk_hides_the_code :
  let w := world_with_email (inbox_service (inbox_of inbox_with_junk))
             "ann@outlook.com" in
  exists w',
    fetch_verification_code six_digits no_nontext morning_clock no_list_lt
      0 None w = (Returns None, w') /\
    hd_error (trace w')
    = Some (Log error (FetchCodeException AttributeError)).
Proof.
  apply (one_ill_shaped_message_hides_every_code six_digits no_nontext
           morning_clock no_list_lt 0 None
           (world_with_email (inbox_service (inbox_of inbox_with_junk))
              "ann@outlook.com")
           [("success", PBool true); ("emails", PList inbox_with_junk)]
           inbox_with_junk).
  - reflexivity.
  - reflexivity.
  - reflexivity.
  - reflexivity.
  - apply Exists_cons_tl, Exists_cons_hd. reflexivity.
Defined.

(** Both messages of the morning are older than the afternoon. *)
Lemma afternoon_skips_the_morning :
  let w := world_with_email (inbox_service (inbox_of inbox_of_two))
             "ann@outlook.com" in
  exists w',
    fetch_verification_code six_digits no_nontext morning_clock no_list_lt
      0 (Some 50000) w = (Returns None, w') /\
    firstn 2 (trace w')
    = [Log warning NoCodeFound;
       Log info (OldEmailsSkipped (Z.of_nat (List.length inbox_of_two)))].
Proof.
  apply (all_messages_older_than_since_time six_digits no_nontext
           morning_clock no_list_lt 0 50000
           (world_with_email (inbox_service (inbox_of inbox_of_two))
              "ann@outlook.com")
           [("success", PBool true); ("emails", PList inbox_of_two)]
           inbox_of_two).
  - reflexivity.
  - reflexivity.
  - reflexivity.
  - reflexivity.
  - discriminate.
  - repeat constructor.
  - repeat constructor.
Defined.

(** The only account of the pool has no email. *)
Lemma account_without_email_is_selected :
  let w := fresh_world (accounts_service pool_without_email) in
  exists w',
    register_account 1 0 w = (Returns true, w') /\
    email (objects w' 0) = Spec.lookup [("id", PInt 7)] "email" /\
    (forall since_time,
        fetch_verification_code six_digits no_nontext morning_clock
          no_list_lt 0 since_time w'
        = (Returns None, emit (Log error EmailUnset) w')) /\
    (forall timeout interval since_time,
        poll_for_code six_digits no_nontext morning_clock no_list_lt
          int64_clock default_max_str_digits 0 timeout interval since_time w'
        = (Returns None, emit (Log error EmailUnset) w')).
Proof.
  apply (registration_succeeds_without_an_email six_digits no_nontext
           morning_clock no_list_lt int64_clock default_max_str_digits 1 0
           (fresh_world (accounts_service pool_without_email))
           (snd (_fetch_accounts 1 0
                   (emit (Log info FetchingPool)
                      (fresh_world (accounts_service pool_without_email)))))
           pool_without_email [("id", PInt 7)]).
  - reflexivity.
  - reflexivity.
  - reflexivity.
Defined.

(** A client constructed with the defaults. *)
Lemma default_client_finds_nothing :
  let w' := snd (__init__ 0 PNone PNone
                   (fresh_world (inbox_service (inbox_of inbox_of_two)))) in
  (forall since_time,
      fetch_verification_code six_digits no_nontext morning_clock no_list_lt
        0 since_time w'
      = (Returns None, emit (Log error EmailUnset) w')) /\
  (forall timeout interval since_time,
      poll_for_code six_digits no_nontext morning_clock no_list_lt
        int64_clock default_max_str_digits 0 timeout interval since_time w'
      = (Returns None, emit (Log error EmailUnset) w')).
Proof.
  apply (fresh_client_finds_nothing six_digits no_nontext morning_clock
           no_list_lt int64_clock default_max_str_digits 0 PNone PNone
           (fresh_world (inbox_service (inbox_of inbox_of_two)))).
  reflexivity.
Defined.

(** The inbox read is the one of the address that was set. *)
Lemma the_inbox_of_ann_is_read :
  let w := world_with_email (inbox_service (inbox_of inbox_of_two))
             "ann@outlook.com" in
  exists new,
    trace (snd (fetch_verification_code six_digits no_nontext morning_clock
                  no_list_lt 0 None w))
    = new
      ++ [Log info (SendingRequest "GET"
                      (InboxUrl (base_url (objects w 0))
                         (email (objects w 0))));
          Log info (PullingEmails (email (objects w 0)))]
      ++ trace w /\
    sendings new = 0%nat.
Proof.
  apply (fetch_reads_the_inbox_of_the_current_email six_digits no_nontext
           morning_clock no_list_lt 0 None
           (world_with_email (inbox_service (inbox_of inbox_of_two))
              "ann@outlook.com")).
  reflexivity.
Defined.

(** After a registration, [set_credentials] points the scan elsewhere
    and keeps the account id of the registration. *)
Lemma bob_replaces_the_selected_account :
  let w := snd (register_account 1 0
                  (fresh_world (accounts_service pool_of_three))) in
  let w1 := snd (set_credentials 0 "bob@elsewhere.org" w) in
  fst (set_credentials 0 "bob@elsewhere.org" w) = Returns tt /\
  email (objects w1 0) = PStr "bob@elsewhere.org" /\
  account_id (objects w1 0) = account_id (objects w 0) /\
  base_url (objects w1 0) = base_url (objects w 0) /\
  proxy_url (objects w1 0) = proxy_url (objects w 0) /\
  (forall other, other <> 0%nat -> objects w1 other = objects w other) /\
  _account_index w1 = _account_index w /\
  _accounts_cache w1 = _accounts_cache w /\
  trace w1 = trace w /\
  exists new,
    trace (snd (fetch_verification_code six_digits no_nontext morning_clock
                  no_list_lt 0 None w1))
    = new
      ++ [Log info (SendingRequest "GET"
                      (InboxUrl (base_url (objects w 0))
                         (PStr "bob@elsewhere.org")));
          Log info (PullingEmails (PStr "bob@elsewhere.org"))]
      ++ trace w /\
    sendings new = 0%nat.
Proof.
  apply (set_credentials_redirects_the_scan six_digits no_nontext
           morning_clock no_list_lt 0 "bob@elsewhere.org" None
           (snd (register_account 1 0
                   (fresh_world (accounts_service pool_of_three))))).
  discriminate.
Defined.
